(** * MACDS core: memory decay, scorecards, worker wrapper, orchestrator

    A shallow embedding of the core of the multi-agent coding system:

    - [Memory]       : src/macds/core/memory.py       (entries, decay law, store)
    - [Evaluation]   : src/macds/core/evaluation.py   (scorecards, autonomy rule)
    - [Contracts]    : src/macds/core/contracts.py    (violations, envelopes, conflicts)
    - [Agents]       : src/macds/agents/base.py       (the execution wrapper)
    - [Orchestrator] : src/macds/core/orchestrator.py (workflow loop, failure routing,
                                                       escalation)

    Conventions of the embedding.

    - A Python [float] held in a record is a rational ([Q]); arithmetic on it is
      exact.  The decay law needs a real exponent, so a strength is a real ([R]).
      Rounding is not modelled: where a property gives the value of a float
      expression, the code's value is that expression as floating-point
      arithmetic rounds it.  Bounds and order relations on scores, averages
      and autonomy levels are stated where clamping by [min] and [max] and
      the monotonicity of rounding keep them true of the rounded values.
    - A [datetime] is an integer number of microseconds ([Z]); [datetime.now()] is
      the [now] argument of the function that reads the clock, or the [now] field
      of the shared [World].
    - A Python [dict] is a [gmap]; a dict whose iteration order is observed by the
      code (the [scores] argument of [record_task_result], the workflow
      definition) is an association list.
    - Disk persistence ([_load], [_save]) and logging are left out: they change
      nothing that the modelled functions read back. *)

From stdpp Require Import gmap strings pretty list fin_maps.
From Stdlib Require Import ZArith QArith Qreals Reals Psatz.

Local Open Scope string_scope.

(** ** Python built-ins used by the sources *)

Module Py.

(** [min(a, b)]: the first argument unless the second is strictly smaller. *)
Definition min (a b : Q) : Q := if Qlt_le_dec b a then b else a.

(** [max(a, b)]: the first argument unless the second is strictly greater. *)
Definition max (a b : Q) : Q := if Qlt_le_dec a b then b else a.

(** [a >= b] and [a < b] on floats. *)
Definition ge (a b : Q) : bool := Qle_bool b a.
Definition lt (a b : Q) : bool := negb (Qle_bool b a).

(** [sum(xs)] starting from 0. *)
Definition sum (xs : list Q) : Q := foldl Qplus 0%Q xs.

(** A JSON-like value: what [Any], [dict] payloads and [to_dict] results hold. *)
#[warnings="-register-all"]
Inductive value : Type :=
| VNone
| VBool (b : bool)
| VInt (z : Z)
| VFloat (q : Q)
| VStr (s : string)
| VList (l : list value)
| VDict (l : list (string * value)).

(** Exceptions that reach the modelled code; [str(e)] is the message. *)
Inductive exn : Type :=
| ContractViolationError (msg : string)
| ValueError (msg : string)
| AttributeError (msg : string)
| WorkerError (msg : string).

Definition str (e : exn) : string :=
  match e with
  | ContractViolationError m | ValueError m | AttributeError m
  | WorkerError m => m
  end.

Definition is_contract_violation (e : exn) : bool :=
  match e with ContractViolationError _ => true | _ => false end.

End Py.

(** A [datetime], in microseconds. *)
Abbreviation datetime := Z (only parsing).

(** [timedelta.total_seconds()] *)
Definition total_seconds (d : Z) : R := (IZR d / 1000000)%R.

(** ** Memory (src/macds/core/memory.py) *)

Module Memory.

Inductive MemoryScope := WORKING | PROJECT | SKILL | FAILURE.

Inductive DecayPolicy := FAST | MEDIUM | SLOW | VERY_SLOW | PERMANENT.

#[global] Instance MemoryScope_eq_dec : EqDecision MemoryScope.
Proof. solve_decision. Defined.

#[global] Instance DecayPolicy_eq_dec : EqDecision DecayPolicy.
Proof. solve_decision. Defined.

(** [DECAY_RATES]: half-life in seconds; [None] is [float('inf')]. *)
Definition DECAY_RATES (p : DecayPolicy) : option Z :=
  match p with
  | FAST => Some 3600%Z
  | MEDIUM => Some 86400%Z
  | SLOW => Some 604800%Z
  | VERY_SLOW => Some 2592000%Z
  | PERMANENT => None
  end.

(** [SCOPE_DECAY_DEFAULTS] *)
Definition SCOPE_DECAY_DEFAULTS (s : MemoryScope) : DecayPolicy :=
  match s with
  | WORKING => FAST
  | PROJECT => SLOW
  | SKILL => VERY_SLOW
  | FAILURE => MEDIUM
  end.

Record MemoryEntry := {
  id : string;
  content : Py.value;
  scope : MemoryScope;
  source : string;
  confidence : Q;
  decay_policy : DecayPolicy;
  created_at : datetime;
  last_accessed : datetime;
  access_count : nat;
  tags : list string;
  related_entries : list string
}.

(** [MemoryEntry.get_current_strength], read at clock value [now].  Entries
    are stamped with the clock when they are stored and accessed, so [now] is
    not before [last_accessed]; for a clock more than a thousand half-lives
    before it the power overflows in Python and the call raises, which the
    real-valued power here does not show. *)
Definition get_current_strength (now : datetime) (e : MemoryEntry) : R :=
  match decay_policy e with
  | PERMANENT => Q2R (confidence e)
  | p =>
      let elapsed := total_seconds (now - last_accessed e) in
      let decay_factor :=
        match DECAY_RATES p with
        | Some half_life => Rpower (1 / 2) (elapsed / IZR half_life)
        | None => 1%R
        end in
      let access_boost := Rmin 2 (1 + INR (access_count e) * (1 / 10)) in
      Rmin 1 (Q2R (confidence e) * decay_factor * access_boost)
  end.

(** [MemoryEntry.access] *)
Definition access (now : datetime) (e : MemoryEntry) : MemoryEntry :=
  {| id := id e; content := content e; scope := scope e; source := source e;
     confidence := confidence e; decay_policy := decay_policy e;
     created_at := created_at e;
     last_accessed := now;
     access_count := S (access_count e);
     tags := tags e; related_entries := related_entries e |}.

(** The store's [_entries] dictionary; [_generate_id] is the SHA-256
    fingerprint of the serialised content, kept abstract behind [Fingerprint]. *)
Class Fingerprint := _generate_id : Py.value -> string.

Abbreviation MemoryStore := (gmap string MemoryEntry) (only parsing).

(** [MemoryStore.store]: returns the entry id and the updated store.
    [decay_policy = None] and [tags = None] are the omitted arguments. *)
Definition store `{Fingerprint} (now : datetime) (m : gmap string MemoryEntry)
    (content : Py.value) (scope : MemoryScope) (source : string)
    (confidence : Q) (decay_policy : option DecayPolicy)
    (tags : option (list string)) : string * gmap string MemoryEntry :=
  let entry_id := _generate_id content in
  let decay_policy :=
    match decay_policy with
    | None => SCOPE_DECAY_DEFAULTS scope
    | Some p => p
    end in
  let entry :=
    {| id := entry_id; content := content; scope := scope; source := source;
       confidence := confidence; decay_policy := decay_policy;
       created_at := now; last_accessed := now; access_count := 0;
       tags := default [] tags; related_entries := [] |} in
  (entry_id, <[entry_id := entry]> m).

(** [MemoryStore.forget] *)
Definition forget (m : gmap string MemoryEntry) (entry_id : string)
    : bool * gmap string MemoryEntry :=
  match m !! entry_id with
  | Some _ => (true, delete entry_id m)
  | None => (false, m)
  end.

(** [AgentMemory.remember] for the agent [agent_name]. *)
Definition remember `{Fingerprint} (agent_name : string) (now : datetime)
    (m : gmap string MemoryEntry) (content : Py.value) (scope : MemoryScope)
    (confidence : Q) (tags : option (list string))
    : string * gmap string MemoryEntry :=
  store now m content scope agent_name confidence None tags.

(** [AgentMemory.learn_from_failure] *)
Definition learn_from_failure `{Fingerprint} (agent_name : string)
    (now : datetime) (m : gmap string MemoryEntry) (failure_info : Py.value)
    : string * gmap string MemoryEntry :=
  remember agent_name now m failure_info FAILURE 1 (Some ["failure"; "learning"]).

(** [MemoryEntry.is_expired] at clock value [now]. *)
Definition is_expired (now : Z) (e : MemoryEntry) (threshold : Q) : bool :=
  if Rlt_dec (get_current_strength now e) (Q2R threshold) then true else false.

(** [MemoryStore.cleanup]: the number of entries removed and the store left. *)
Definition cleanup (now : Z) (m : gmap string MemoryEntry) (threshold : Q)
    : nat * gmap string MemoryEntry :=
  let expired := filter (fun kv => is_expired now kv.2 threshold = true) m in
  (size expired, m ∖ expired).

(** [AgentMemory.learn_skill] *)
Definition learn_skill `{Fingerprint} (agent_name : string)
    (now : Z) (m : gmap string MemoryEntry) (skill_info : Py.value)
    : string * gmap string MemoryEntry :=
  remember agent_name now m skill_info SKILL 1 (Some ["skill"; "pattern"]).

End Memory.

(** ** Evaluation (src/macds/core/evaluation.py) *)

Module Evaluation.

Inductive ScoreCategory := CORRECTNESS | EFFICIENCY | COMPLIANCE | COST | STABILITY.

(** [ScoreCategory.value] *)
Definition value (c : ScoreCategory) : string :=
  match c with
  | CORRECTNESS => "correctness"
  | EFFICIENCY => "efficiency"
  | COMPLIANCE => "compliance"
  | COST => "cost"
  | STABILITY => "stability"
  end.

Record ScoreEntry := {
  category : ScoreCategory;
  score : Q;
  timestamp : datetime;
  task_id : option string;
  notes : string
}.

Record AgentScorecard := {
  agent_name : string;
  scores : gmap string (list ScoreEntry);
  total_tasks : nat;
  successful_tasks : nat;
  failed_tasks : nat;
  escalations : nat;
  autonomy_level : Q
}.

(** [AgentScorecard(agent_name=name)]: the dataclass defaults. *)
Definition new_scorecard (name : string) : AgentScorecard :=
  {| agent_name := name; scores := ∅; total_tasks := 0; successful_tasks := 0;
     failed_tasks := 0; escalations := 0; autonomy_level := 1 |}.

Definition set_scores (sc : AgentScorecard) (s : gmap string (list ScoreEntry)) :=
  {| agent_name := agent_name sc; scores := s; total_tasks := total_tasks sc;
     successful_tasks := successful_tasks sc; failed_tasks := failed_tasks sc;
     escalations := escalations sc; autonomy_level := autonomy_level sc |}.

Definition set_autonomy_level (sc : AgentScorecard) (a : Q) :=
  {| agent_name := agent_name sc; scores := scores sc; total_tasks := total_tasks sc;
     successful_tasks := successful_tasks sc; failed_tasks := failed_tasks sc;
     escalations := escalations sc; autonomy_level := a |}.

(** [AgentScorecard.add_score]; the entry is stamped with the clock. *)
Definition add_score (now : datetime) (sc : AgentScorecard)
    (c : ScoreCategory) (s : Q) (tid : option string) (n : string)
    : AgentScorecard :=
  let entry := {| category := c; score := s; timestamp := now;
                  task_id := tid; notes := n |} in
  let old := default [] (scores sc !! value c) in
  set_scores sc (<[value c := (old ++ [entry])%list]> (scores sc)).

(** [timedelta(days=days)] in microseconds. *)
Definition days_us (days : Z) : Z := (days * 86400 * 1000000)%Z.

(** [AgentScorecard.get_average]; the mean is exact here and rounded in the
    code (the rounded mean of scores within [0, 100] stays within [0, 100]). *)
Definition get_average (now : datetime) (sc : AgentScorecard)
    (c : ScoreCategory) (days : Z) : Q :=
  match scores sc !! value c with
  | None => 50
  | Some entries =>
      let cutoff := (now - days_us days)%Z in
      let recent := List.filter (fun s => (cutoff <? timestamp s)%Z) entries in
      match recent with
      | [] => 50
      | _ => Py.sum (List.map score recent) / inject_Z (Z.of_nat (length recent))
      end
  end.

(** The [weights] table of [get_overall_score], in its insertion order. *)
Definition weights : list (ScoreCategory * Q) :=
  [ (CORRECTNESS, 35 # 100); (EFFICIENCY, 15 # 100); (COMPLIANCE, 25 # 100);
    (COST, 10 # 100); (STABILITY, 15 # 100) ].

(** [AgentScorecard.get_overall_score] *)
Definition get_overall_score (now : datetime) (sc : AgentScorecard) : Q :=
  let '(total, total_weight) :=
    foldl (fun '(total, total_weight) '(c, weight) =>
             let avg := get_average now sc c 30 in
             (total + avg * weight, total_weight + weight))
          (0, 0) weights in
  if Py.lt 0 total_weight then total / total_weight else 50.

(** [AgentScorecard.get_success_rate] *)
Definition get_success_rate (sc : AgentScorecard) : Q :=
  match total_tasks sc with
  | O => 1
  | _ => inject_Z (Z.of_nat (successful_tasks sc))
         / inject_Z (Z.of_nat (total_tasks sc))
  end.

(** [AgentScorecard.record_success] *)
Definition record_success (sc : AgentScorecard) : AgentScorecard :=
  {| agent_name := agent_name sc; scores := scores sc;
     total_tasks := total_tasks sc + 1;
     successful_tasks := successful_tasks sc + 1;
     failed_tasks := failed_tasks sc;
     escalations := escalations sc; autonomy_level := autonomy_level sc |}.

(** [AgentScorecard.record_failure] *)
Definition record_failure (sc : AgentScorecard) : AgentScorecard :=
  {| agent_name := agent_name sc; scores := scores sc;
     total_tasks := total_tasks sc + 1;
     successful_tasks := successful_tasks sc;
     failed_tasks := failed_tasks sc + 1;
     escalations := escalations sc; autonomy_level := autonomy_level sc |}.

(** [AgentScorecard.record_escalation] *)
Definition record_escalation (sc : AgentScorecard) : AgentScorecard :=
  {| agent_name := agent_name sc; scores := scores sc;
     total_tasks := total_tasks sc;
     successful_tasks := successful_tasks sc;
     failed_tasks := failed_tasks sc;
     escalations := escalations sc + 1; autonomy_level := autonomy_level sc |}.

(** [AgentScorecard.adjust_autonomy]; the steps of 0.1 and 0.2 are exact
    here and rounded in the code. *)
Definition adjust_autonomy (now : datetime) (sc : AgentScorecard) : AgentScorecard :=
  let overall := get_overall_score now sc in
  let success_rate := get_success_rate sc in
  if Py.ge overall 80 && Py.ge success_rate (9 # 10) then
    set_autonomy_level sc (Py.min 1 (autonomy_level sc + (1 # 10)))
  else if Py.lt overall 50 || Py.lt success_rate (7 # 10) then
    set_autonomy_level sc (Py.max (2 # 10) (autonomy_level sc - (2 # 10)))
  else sc.

(** The [_scorecards] dictionary of [EvaluationSystem]. *)
Abbreviation EvaluationSystem := (gmap string AgentScorecard) (only parsing).

(** [EvaluationSystem.get_scorecard]: get or create. *)
Definition get_scorecard (es : gmap string AgentScorecard) (name : string)
    : AgentScorecard * gmap string AgentScorecard :=
  match es !! name with
  | Some sc => (sc, es)
  | None => let sc := new_scorecard name in (sc, <[name := sc]> es)
  end.

(** [EvaluationSystem.record_task_result]; [scores] is the dict argument in
    its iteration order. *)
Definition record_task_result (now : datetime) (es : gmap string AgentScorecard)
    (name : string) (success : bool) (scores : list (ScoreCategory * Q))
    (tid : option string) : gmap string AgentScorecard :=
  let '(scorecard, es) := get_scorecard es name in
  let scorecard :=
    if success then record_success scorecard else record_failure scorecard in
  let scorecard :=
    foldl (fun sc '(c, s) => add_score now sc c s tid "") scorecard scores in
  let scorecard := adjust_autonomy now scorecard in
  <[name := scorecard]> es.

(** The scorecard that one [record_task_result] call leaves for its agent. *)
Definition recorded (t : Z) (sc : AgentScorecard) (ok : bool)
    (l : list (ScoreCategory * Q)) (tid : option string) : AgentScorecard :=
  adjust_autonomy t
    (foldl (fun sc '(c, s) => add_score t sc c s tid "")
       (if ok then record_success sc else record_failure sc) l).

(** The arguments of one [record_task_result] call and the clock at the call. *)
Record Call := {
  call_now : datetime;
  call_agent : string;
  call_success : bool;
  call_scores : list (ScoreCategory * Q);
  call_task_id : option string
}.

(** A sequence of [record_task_result] calls on one evaluation system. *)
Definition record_all (calls : list Call) (es : gmap string AgentScorecard)
    : gmap string AgentScorecard :=
  foldl (fun es c =>
           record_task_result (call_now c) es (call_agent c) (call_success c)
             (call_scores c) (call_task_id c))
        es calls.

(** A result that reports success with every category score at least 95. *)
Definition high_scoring (name : string) (c : Call) : Prop :=
  call_agent c = name /\ call_success c = true
  /\ Forall (fun cs => (95 <= cs.2)%Q) (call_scores c).

(** Every entry of the scorecard scores at least [m]. *)
Definition entries_at_least (m : Q) (sc : AgentScorecard) : Prop :=
  forall k l, scores sc !! k = Some l -> Forall (fun e => (m <= score e)%Q) l.

(** A scorecard at the cap whose tasks all succeeded and scored 50 or more. *)
Definition steady (sc : AgentScorecard) : Prop :=
  autonomy_level sc = 1%Q /\ entries_at_least 50 sc
  /\ successful_tasks sc = total_tasks sc.

(** The bounds of the autonomy level. *)
Definition autonomy_in_bounds (sc : AgentScorecard) : Prop :=
  (2 # 10 <= autonomy_level sc)%Q /\ (autonomy_level sc <= 1)%Q.

(** [EvaluationSystem.record_build_result] *)
Definition record_build_result (now : Z) (es : gmap string AgentScorecard)
    (name : string) (build_success : bool) (test_coverage : Q)
    (test_passed test_failed : Z) : gmap string AgentScorecard :=
  let '(scorecard, es) := get_scorecard es name in
  let correctness := if build_success then 100%Q else 0%Q in
  let correctness :=
    if (0 <? test_passed + test_failed)%Z then
      ((correctness
        + (inject_Z test_passed / inject_Z (test_passed + test_failed)) * 100) / 2)%Q
    else correctness in
  let scorecard := add_score now scorecard CORRECTNESS correctness None "" in
  let scorecard :=
    if Py.ge test_coverage 0 then
      add_score now scorecard COMPLIANCE (Py.min 100 test_coverage) None ""
    else scorecard in
  let scorecard :=
    if build_success && (test_failed =? 0)%Z then record_success scorecard
    else record_failure scorecard in
  let scorecard := adjust_autonomy now scorecard in
  <[name := scorecard]> es.

(** [EvaluationSystem.record_review_result] *)
Definition record_review_result (now : Z) (es : gmap string AgentScorecard)
    (reviewer_name reviewed_agent : string) (violations : Z) (severity_score : Q)
    : gmap string AgentScorecard :=
  let '(impl_scorecard, es) := get_scorecard es reviewed_agent in
  let compliance_score :=
    Py.max 0 (100 - inject_Z violations * 10 - severity_score)%Q in
  let es :=
    <[reviewed_agent :=
        add_score now impl_scorecard COMPLIANCE compliance_score None ""]> es in
  let '(reviewer_scorecard, es) := get_scorecard es reviewer_name in
  <[reviewer_name := add_score now reviewer_scorecard CORRECTNESS 100 None ""]> es.

Record ExecutionFeedback := {
  build_success : bool;
  test_success : bool;
  test_passed : Z;
  test_failed : Z;
  test_skipped : Z;
  coverage_percent : Q;
  execution_time_ms : Z;
  memory_usage_mb : Q;
  security_issues : list Py.value;
  performance_metrics : Py.value
}.

(** [ExecutionFeedback.to_scores], in the insertion order of the result. *)
Definition to_scores (fb : ExecutionFeedback) : list (ScoreCategory * Q) :=
  let total_tests := (test_passed fb + test_failed fb)%Z in
  let correctness :=
    if (0 <? total_tests)%Z then
      ((inject_Z (test_passed fb) / inject_Z total_tests) * 100)%Q
    else if build_success fb then 70%Q else 0%Q in
  let compliance := coverage_percent fb in
  let compliance :=
    match security_issues fb with
    | [] => compliance
    | _ => (compliance - inject_Z (Z.of_nat (length (security_issues fb))) * 10)%Q
    end in
  let efficiency :=
    if (execution_time_ms fb <? 5000)%Z then 90%Q
    else if (execution_time_ms fb <? 30000)%Z then 70%Q else 50%Q in
  [ (CORRECTNESS, correctness);
    (COMPLIANCE, Py.max 0 (Py.min 100 compliance));
    (EFFICIENCY, efficiency) ].

(** The float format specifications [.1f] and [.0%] of the recommendation
    messages. *)
Class Formats := {
  format_1f : Q -> string;
  format_percent : Q -> string
}.

(** [EvaluationSystem.get_recommendations]: the messages, and the scorecards
    (the call creates the agent's scorecard when there is none). *)
Definition get_recommendations `{Formats} (now : Z)
    (es : gmap string AgentScorecard) (name : string)
    : list string * gmap string AgentScorecard :=
  let '(scorecard, es) := get_scorecard es name in
  let recommendations :=
    flat_map
      (fun c =>
         let avg := get_average now scorecard c 30 in
         if Py.lt avg 60 then
           [ "Improve " +:+ value c +:+ ": Current average "
               +:+ format_1f avg +:+ "%" ]
         else [])
      [ CORRECTNESS; EFFICIENCY; COMPLIANCE; COST; STABILITY ] in
  let recommendations :=
    if Py.lt (get_success_rate scorecard) (8 # 10) then
      (recommendations
         ++ [ "Low success rate (" +:+ format_percent (get_success_rate scorecard)
                +:+ "): Consider additional validation" ])%list
    else recommendations in
  let recommendations :=
    if (5 <? escalations scorecard)%nat then
      (recommendations
         ++ [ "High escalation count (" +:+ pretty (escalations scorecard)
                +:+ "): Review authority scope" ])%list
    else recommendations in
  (recommendations, es).

(** [FeedbackProcessor.process_feedback]: the returned dictionary and the
    scorecards after the call. *)
Definition process_feedback `{Formats} (now : Z)
    (es : gmap string AgentScorecard) (name : string) (fb : ExecutionFeedback)
    (tid : option string) : Py.value * gmap string AgentScorecard :=
  let scores := to_scores fb in
  let success := build_success fb && test_success fb in
  let es := record_task_result now es name success scores tid in
  let '(recommendations, es) := get_recommendations now es name in
  (Py.VDict
     [ ("agent", Py.VStr name);
       ("success", Py.VBool success);
       ("scores", Py.VDict (List.map (fun cs => (value cs.1, Py.VFloat cs.2)) scores));
       ("recommendations", Py.VList (List.map Py.VStr recommendations)) ],
   es).

(** The task counters add up. *)
Definition balanced (sc : AgentScorecard) : Prop :=
  total_tasks sc = (successful_tasks sc + failed_tasks sc)%nat.

(** Every score entry of the scorecard lies in [[lo, hi]]. *)
Definition entries_within (lo hi : Q) (sc : AgentScorecard) : Prop :=
  forall k l, scores sc !! k = Some l ->
    Forall (fun e => (lo <= score e)%Q /\ (score e <= hi)%Q) l.

(** What [add_score] leaves alone: autonomy, task counters, escalations. *)
Definition same_standing (sc sc' : AgentScorecard) : Prop :=
  autonomy_level sc' = autonomy_level sc
  /\ total_tasks sc' = total_tasks sc
  /\ successful_tasks sc' = successful_tasks sc
  /\ failed_tasks sc' = failed_tasks sc
  /\ escalations sc' = escalations sc.

End Evaluation.

(** ** Contracts (src/macds/core/contracts.py) *)

Module Contracts.

Record Violation := {
  rule_id : string;
  severity : string;
  message : string;
  location : option string;
  suggested_fix : option string
}.

(** A contract envelope, input or output.  [type_name] is the name of the
    dataclass, [payload] its stage-specific fields, and [validate] the list
    that the envelope's [validate()] method returns (a pure function of the
    fields, [[]] for the base classes). *)
Record Envelope := {
  request_id : string;
  timestamp : datetime;
  agent : option string;
  type_name : string;
  payload : Py.value;
  validate : list Violation
}.

Abbreviation ContractInput := Envelope (only parsing).
Abbreviation ContractOutput := Envelope (only parsing).

(** [any(v.severity == "error" for v in violations)] *)
Definition any_error (violations : list Violation) : bool :=
  existsb (fun v => String.eqb (severity v) "error") violations.

(** [f"{[v.message for v in violations]}"]: the printed list of messages,
    each in single quotes, as Python prints a string that holds no quote,
    backslash or control character (the messages of the contract classes
    hold none). *)
Definition messages_repr (violations : list Violation) : string :=
  "[" +:+ String.concat ", " (List.map (fun v => "'" +:+ message v +:+ "'") violations)
      +:+ "]".

Record ConflictRecord := {
  conflict_id : string;
  topic : string;
  agents_involved : list string;
  evidence : list Py.value;
  decision_owner : string;
  resolution : option Py.value;
  created_at : datetime;
  resolved_at : option datetime
}.

(** [ConflictRecord.to_dict]; a timestamp is printed as its integer value. *)
Definition to_dict (c : ConflictRecord) : Py.value :=
  Py.VDict
    [ ("conflict_id", Py.VStr (conflict_id c));
      ("topic", Py.VStr (topic c));
      ("agents_involved", Py.VList (List.map Py.VStr (agents_involved c)));
      ("evidence", Py.VList (evidence c));
      ("decision_owner", Py.VStr (decision_owner c));
      ("resolution", default Py.VNone (resolution c));
      ("created_at", Py.VInt (created_at c));
      ("resolved_at", from_option Py.VInt Py.VNone (resolved_at c)) ].

(** [Violation(rule_id=..., severity=..., message=...)] *)
Definition violation (rule_id severity message : string) : Violation :=
  {| rule_id := rule_id; severity := severity; message := message;
     location := None; suggested_fix := None |}.

(** [key in d] for a dictionary with string keys. *)
Definition has_key (key : string) (d : list (string * Py.value)) : bool :=
  existsb (fun kv => String.eqb kv.1 key) d.

Inductive Verdict := PASS | FAIL | NEEDS_REVISION | ESCALATE.

(** The output dataclasses, each with the fields it adds to
    [ContractOutput] and the [validate] it defines or inherits. *)
Module RequirementsOutput.
Record t := {
  requirements : list (list (string * Py.value));
  acceptance_criteria : list string;
  constraints : list string;
  risks : list string
}.

Definition validate (self : t) : list Violation :=
  let violations :=
    match requirements self with
    | [] => [ violation "REQ-001" "error" "Requirements cannot be empty" ]
    | _ => []
    end in
  (violations
     ++ flat_map
          (fun req =>
             if negb (has_key "id" req) || negb (has_key "description" req) then
               [ violation "REQ-002" "error"
                   "Each requirement must have id and description" ]
             else [])
          (requirements self))%list.
End RequirementsOutput.

Module ArchitectureOutput.
Record t := {
  components : list (list (string * Py.value));
  invariants : list string;
  design_decisions : list (list (string * Py.value));
  api_contracts : list (list (string * Py.value));
  risks : list string
}.

Definition validate (self : t) : list Violation :=
  let violations :=
    match components self with
    | [] => [ violation "ARCH-001" "error"
                "Architecture must define at least one component" ]
    | _ => []
    end in
  match invariants self with
  | [] => (violations
             ++ [ violation "ARCH-002" "warning"
                    "Architecture should define invariants" ])%list
  | _ => violations
  end.
End ArchitectureOutput.

Module ImplementationOutput.
Record t := {
  files_created : list (list (string * Py.value));
  files_modified : list (list (string * Py.value));
  files_deleted : list string;
  implementation_notes : string;
  api_compliance : bool
}.

Definition validate (self : t) : list Violation :=
  match files_created self, files_modified self with
  | [], [] => [ violation "IMPL-001" "warning"
                  "Implementation produced no file changes" ]
  | _, _ => []
  end.
End ImplementationOutput.

Module CodeReviewOutput.
Record t := {
  verdict : Verdict;
  violations : list Violation;
  suggested_patches : list (list (string * Py.value));
  security_concerns : list string;
  quality_score : Q;
  comments : string
}.

(** Inherited from [ContractOutput]. *)
Definition validate (self : t) : list Violation := [].
End CodeReviewOutput.

Module BuildTestOutput.
Record t := {
  build_success : bool;
  test_success : bool;
  test_results : list (string * Py.value);
  build_logs : string;
  test_logs : string;
  metrics : list (string * Py.value);
  security_scan : option (list (string * Py.value))
}.

Definition validate (self : t) : list Violation :=
  let violations :=
    if negb (build_success self) then
      [ violation "BUILD-001" "error" "Build failed" ]
    else [] in
  if negb (test_success self) then
    (violations ++ [ violation "TEST-001" "error" "Tests failed" ])%list
  else violations.
End BuildTestOutput.

Module IntegrationOutput.
Record t := {
  success : bool;
  merged_files : list string;
  conflicts : list (list (string * Py.value));
  commit_sha : option string;
  integration_notes : string
}.

(** Inherited from [ContractOutput]. *)
Definition validate (self : t) : list Violation := [].
End IntegrationOutput.

(** A stage output of any of the six contract types. *)
Inductive StageOutput :=
| Requirements (o : RequirementsOutput.t)
| Architecture (o : ArchitectureOutput.t)
| Implementation (o : ImplementationOutput.t)
| CodeReview (o : CodeReviewOutput.t)
| BuildTest (o : BuildTestOutput.t)
| Integration (o : IntegrationOutput.t).

(** [type(output).__name__] *)
Definition class_name (o : StageOutput) : string :=
  match o with
  | Requirements _ => "RequirementsOutput"
  | Architecture _ => "ArchitectureOutput"
  | Implementation _ => "ImplementationOutput"
  | CodeReview _ => "CodeReviewOutput"
  | BuildTest _ => "BuildTestOutput"
  | Integration _ => "IntegrationOutput"
  end.

(** [output.validate()], dispatched on the class of [output]. *)
Definition output_validate (o : StageOutput) : list Violation :=
  match o with
  | Requirements o => RequirementsOutput.validate o
  | Architecture o => ArchitectureOutput.validate o
  | Implementation o => ImplementationOutput.validate o
  | CodeReview o => CodeReviewOutput.validate o
  | BuildTest o => BuildTestOutput.validate o
  | Integration o => IntegrationOutput.validate o
  end.

(** The fields a stage output adds to [ContractOutput], as a dictionary. *)
Definition dicts (l : list (list (string * Py.value))) : Py.value :=
  Py.VList (List.map Py.VDict l).

Definition strs (l : list string) : Py.value := Py.VList (List.map Py.VStr l).

Definition fields (o : StageOutput) : Py.value :=
  match o with
  | Requirements o =>
      Py.VDict [ ("requirements", dicts (RequirementsOutput.requirements o));
                 ("acceptance_criteria",
                  strs (RequirementsOutput.acceptance_criteria o));
                 ("constraints", strs (RequirementsOutput.constraints o));
                 ("risks", strs (RequirementsOutput.risks o)) ]
  | Architecture o =>
      Py.VDict [ ("components", dicts (ArchitectureOutput.components o));
                 ("invariants", strs (ArchitectureOutput.invariants o));
                 ("design_decisions",
                  dicts (ArchitectureOutput.design_decisions o));
                 ("api_contracts", dicts (ArchitectureOutput.api_contracts o));
                 ("risks", strs (ArchitectureOutput.risks o)) ]
  | Implementation o =>
      Py.VDict [ ("files_created", dicts (ImplementationOutput.files_created o));
                 ("files_modified", dicts (ImplementationOutput.files_modified o));
                 ("files_deleted", strs (ImplementationOutput.files_deleted o));
                 ("implementation_notes",
                  Py.VStr (ImplementationOutput.implementation_notes o));
                 ("api_compliance",
                  Py.VBool (ImplementationOutput.api_compliance o)) ]
  | CodeReview o =>
      Py.VDict [ ("verdict",
                  Py.VStr match CodeReviewOutput.verdict o with
                          | PASS => "pass" | FAIL => "fail"
                          | NEEDS_REVISION => "needs_revision"
                          | ESCALATE => "escalate"
                          end);
                 ("violations",
                  Py.VList (List.map (fun v => Py.VStr (rule_id v))
                              (CodeReviewOutput.violations o)));
                 ("suggested_patches",
                  dicts (CodeReviewOutput.suggested_patches o));
                 ("security_concerns",
                  strs (CodeReviewOutput.security_concerns o));
                 ("quality_score", Py.VFloat (CodeReviewOutput.quality_score o));
                 ("comments", Py.VStr (CodeReviewOutput.comments o)) ]
  | BuildTest o =>
      Py.VDict [ ("build_success", Py.VBool (BuildTestOutput.build_success o));
                 ("test_success", Py.VBool (BuildTestOutput.test_success o));
                 ("test_results", Py.VDict (BuildTestOutput.test_results o));
                 ("build_logs", Py.VStr (BuildTestOutput.build_logs o));
                 ("test_logs", Py.VStr (BuildTestOutput.test_logs o));
                 ("metrics", Py.VDict (BuildTestOutput.metrics o));
                 ("security_scan",
                  from_option Py.VDict Py.VNone (BuildTestOutput.security_scan o)) ]
  | Integration o =>
      Py.VDict [ ("success", Py.VBool (IntegrationOutput.success o));
                 ("merged_files", strs (IntegrationOutput.merged_files o));
                 ("conflicts", dicts (IntegrationOutput.conflicts o));
                 ("commit_sha",
                  from_option Py.VStr Py.VNone (IntegrationOutput.commit_sha o));
                 ("integration_notes",
                  Py.VStr (IntegrationOutput.integration_notes o)) ]
  end.

(** A stage output seen as the envelope the wrapper handles. *)
Definition envelope (request_id : string) (timestamp : datetime)
    (processing_agent : option string) (o : StageOutput) : Envelope :=
  {| request_id := request_id; timestamp := timestamp;
     agent := processing_agent; type_name := class_name o;
     payload := fields o; validate := output_validate o |}.

(** [d.get(key)] for a dictionary with string keys. *)
Definition get (key : string) (d : list (string * Py.value)) : option Py.value :=
  snd <$> List.find (fun kv => String.eqb kv.1 key) d.

(** [data.name] for a stage-specific field [name]: [None] when the class of
    [data] has no such field, where Python raises [AttributeError]. *)
Definition getattr (data : Envelope) (name : string) : option Py.value :=
  match payload data with
  | Py.VDict d => get name d
  | _ => None
  end.

(** The [AttributeError] of a failed [data.name]. *)
Definition attribute_error (data : Envelope) (name : string) : Py.exn :=
  Py.AttributeError
    ("'" +:+ type_name data +:+ "' object has no attribute '" +:+ name +:+ "'").

End Contracts.

(** ** The execution wrapper (src/macds/agents/base.py) *)

Module Agents.
Import Contracts.

(** The two stores every worker and the orchestrator share, and the clock.
    Time passes only while worker-specific logic runs (the one suspension
    point), so [_execute_impl] may move [now]; every other step reads it. *)
Record World := {
  memory_store : gmap string Memory.MemoryEntry;
  evaluation : gmap string Evaluation.AgentScorecard;
  now : datetime
}.

Definition set_memory (w : World) (m : gmap string Memory.MemoryEntry) : World :=
  {| memory_store := m; evaluation := evaluation w; now := now w |}.

Definition set_evaluation (w : World) (es : gmap string Evaluation.AgentScorecard)
    : World :=
  {| memory_store := memory_store w; evaluation := es; now := now w |}.

(** What a call yields: a value, or a raised exception. *)
Inductive outcome (A : Type) : Type :=
| Returned (a : A)
| Raised (e : Py.exn).
Arguments Returned {A} a.
Arguments Raised {A} e.

Record AgentConfig := {
  name : string;
  authority_level : Z;
  model : string;
  temperature : Q;
  max_tokens : Z;
  requires_approval_above : Z;
  owned_artifacts : list string
}.

(** An agent object: its configuration, the task it tracks, and the
    worker-specific logic [_execute_impl] its subclass supplies. *)
Record BaseAgent := {
  config : AgentConfig;
  _current_task_id : option string;
  _task_start_time : option datetime;
  _execute_impl : Envelope -> World -> outcome Envelope * World
}.

Definition begin_task (a : BaseAgent) (tid : string) (t : datetime) : BaseAgent :=
  {| config := config a; _current_task_id := Some tid;
     _task_start_time := Some t; _execute_impl := _execute_impl a |}.

(** [BaseAgent.validate_input] / [validate_output] (logging aside). *)
Definition validate_input (input_data : Envelope) : list Violation :=
  validate input_data.
Definition validate_output (output_data : Envelope) : list Violation :=
  validate output_data.

Definition opt_str (o : option string) : Py.value :=
  from_option Py.VStr Py.VNone o.

(** The same agent object with other worker-specific logic. *)
Definition with_impl (a : BaseAgent)
    (impl : Envelope -> World -> outcome Envelope * World) : BaseAgent :=
  {| config := config a; _current_task_id := _current_task_id a;
     _task_start_time := _task_start_time a; _execute_impl := impl |}.

(** Worker-specific logic that fails its contract on every dispatch: it
    returns an output with an error-severity violation, or raises
    [ContractViolationError] itself. *)
Definition violates_contract (a : BaseAgent) : Prop :=
  forall inp w,
    match _execute_impl a inp w with
    | (Returned out, _) => any_error (validate out) = true
    | (Raised e, _) => Py.is_contract_violation e = true
    end.

(** The scorecard that [w] holds for [who] (a fresh one if none yet). *)
Definition scorecard_of (w : World) (who : string) : Evaluation.AgentScorecard :=
  default (Evaluation.new_scorecard who) (evaluation w !! who).

(** Between [before] and [after], [n] failed tasks were recorded for [who]. *)
Definition failures_recorded (n : nat) (who : string) (before after : World)
    : Prop :=
  is_Some (evaluation after !! who)
  /\ Evaluation.total_tasks (scorecard_of after who)
     = (Evaluation.total_tasks (scorecard_of before who) + n)%nat
  /\ Evaluation.failed_tasks (scorecard_of after who)
     = (Evaluation.failed_tasks (scorecard_of before who) + n)%nat
  /\ Evaluation.successful_tasks (scorecard_of after who)
     = Evaluation.successful_tasks (scorecard_of before who).

Section Wrapper.
Context `{Memory.Fingerprint}.

(** [BaseAgent._record_success] *)
Definition _record_success (a : BaseAgent) (w : World) : World :=
  match _task_start_time a with
  | Some start =>
      let duration := (inject_Z (now w - start) / 1000000)%Q in
      set_evaluation w
        (Evaluation.record_task_result (now w) (evaluation w) (name (config a)) true
           [ (Evaluation.CORRECTNESS, 100%Q);
             (Evaluation.EFFICIENCY, Py.min 100 (100 - (duration / 60) * 10)%Q) ]
           (_current_task_id a))
  | None => w
  end.

(** The dictionary that [_record_failure] hands to [learn_from_failure]. *)
Definition failure_info (a : BaseAgent) (reason : string) (t : datetime)
    : Py.value :=
  Py.VDict [ ("task_id", opt_str (_current_task_id a));
             ("reason", Py.VStr reason);
             ("timestamp", Py.VInt t) ].

(** [BaseAgent._record_failure] *)
Definition _record_failure (a : BaseAgent) (reason : string) (w : World) : World :=
  let w :=
    set_evaluation w
      (Evaluation.record_task_result (now w) (evaluation w) (name (config a)) false
         [ (Evaluation.CORRECTNESS, 0%Q) ] (_current_task_id a)) in
  set_memory w
    (Memory.learn_from_failure (name (config a)) (now w) (memory_store w)
       (failure_info a reason (now w))).2.

(** The memory entry that [_record_failure] stores at clock value [t]. *)
Definition failure_entry (a : BaseAgent) (reason : string) (t : datetime)
    : Memory.MemoryEntry :=
  {| Memory.id := Memory._generate_id (failure_info a reason t);
     Memory.content := failure_info a reason t;
     Memory.scope := Memory.FAILURE; Memory.source := name (config a);
     Memory.confidence := 1; Memory.decay_policy := Memory.MEDIUM;
     Memory.created_at := t; Memory.last_accessed := t;
     Memory.access_count := 0; Memory.tags := [ "failure"; "learning" ];
     Memory.related_entries := [] |}.

(** The [self._memory.remember(...)] call that precedes the [try] block. *)
Definition remember_task (a : BaseAgent) (input_data : Envelope) (w : World)
    : World :=
  set_memory w
    (Memory.remember (name (config a)) (now w) (memory_store w)
       (Py.VDict [ ("task_id", Py.VStr (request_id input_data));
                   ("input_type", Py.VStr (type_name input_data)) ])
       Memory.WORKING 1 (Some ["task"; "current"])).2.

(** The body of the [try] block of [execute]. *)
Definition execute_try (a : BaseAgent) (input_data : Envelope) (w : World)
    : outcome Envelope * World :=
  let '(r, w) := _execute_impl a input_data w in
  match r with
  | Raised e => (Raised e, w)
  | Returned output =>
      let output_violations := validate_output output in
      if any_error output_violations then
        let w := _record_failure a "output_validation_failed" w in
        (Raised (Py.ContractViolationError
                   ("Output contract violation: "
                      +:+ messages_repr output_violations)), w)
      else
        let w := _record_success a w in
        (Returned output, w)
  end.

(** [BaseAgent.execute]: the outcome, the agent object after the call and
    the stores after the call. *)
Definition execute (a : BaseAgent) (input_data : Envelope) (w : World)
    : outcome Envelope * BaseAgent * World :=
  let a := begin_task a (request_id input_data) (now w) in
  let input_violations := validate_input input_data in
  if any_error input_violations then
    (Raised (Py.ContractViolationError
               ("Input contract violation: "
                  +:+ messages_repr input_violations)), a, w)
  else
    let w := remember_task a input_data w in
    match execute_try a input_data w with
    | (Returned output, w) => (Returned output, a, w)
    | (Raised e, w) =>
        (* except Exception as e: record, then re-raise *)
        let w := _record_failure a (Py.str e) w in
        (Raised e, a, w)
    end.

(** [BaseAgent.escalate]: the worker-level escalation.  [uuid] is the
    identifier drawn for the conflict. *)
Definition escalate (uuid : string) (a : BaseAgent) (issue : string)
    (target_authority : Z) (evidence : list Py.value) (w : World)
    : Py.value * World :=
  let conflict :=
    {| conflict_id := uuid; topic := issue;
       agents_involved := [name (config a)]; evidence := evidence;
       decision_owner := "authority_" +:+ pretty target_authority;
       resolution := None; created_at := now w; resolved_at := None |} in
  let w :=
    set_memory w
      (Memory.remember (name (config a)) (now w) (memory_store w)
         (to_dict conflict) Memory.PROJECT 1 (Some ["escalation"; "conflict"])).2 in
  let '(scorecard, es) := Evaluation.get_scorecard (evaluation w) (name (config a)) in
  let w :=
    set_evaluation w
      (<[name (config a) := Evaluation.record_escalation scorecard]> es) in
  (to_dict conflict, w).

End Wrapper.

(** [BaseAgent.can_override] *)
Definition can_override (a : BaseAgent) (other_authority : Z) : bool :=
  (other_authority <? authority_level (config a))%Z.

(** [BaseAgent.requires_approval_from] *)
Definition requires_approval_from (a : BaseAgent) (decision_authority : Z) : bool :=
  (authority_level (config a) <? decision_authority)%Z.

End Agents.

(** ** Orchestrator (src/macds/core/orchestrator.py) *)

Module Orchestrator.
Import Contracts Agents.

Inductive WorkflowStage :=
| REQUIREMENTS | ARCHITECTURE | IMPLEMENTATION | REVIEW
| BUILD_TEST | INTEGRATION | FINAL_APPROVAL.

(** [WorkflowStage.value] *)
Definition value (s : WorkflowStage) : string :=
  match s with
  | REQUIREMENTS => "requirements"
  | ARCHITECTURE => "architecture"
  | IMPLEMENTATION => "implementation"
  | REVIEW => "review"
  | BUILD_TEST => "build_test"
  | INTEGRATION => "integration"
  | FINAL_APPROVAL => "final_approval"
  end.

#[global] Instance WorkflowStage_eq_dec : EqDecision WorkflowStage.
Proof. solve_decision. Defined.

Definition stage_index (s : WorkflowStage) : nat :=
  match s with
  | REQUIREMENTS => 0 | ARCHITECTURE => 1 | IMPLEMENTATION => 2 | REVIEW => 3
  | BUILD_TEST => 4 | INTEGRATION => 5 | FINAL_APPROVAL => 6
  end%nat.

Definition stage_of_index (n : nat) : WorkflowStage :=
  match n with
  | 0 => REQUIREMENTS | 1 => ARCHITECTURE | 2 => IMPLEMENTATION | 3 => REVIEW
  | 4 => BUILD_TEST | 5 => INTEGRATION | _ => FINAL_APPROVAL
  end%nat.

#[global] Instance WorkflowStage_countable : Countable WorkflowStage.
Proof.
  apply (inj_countable' stage_index stage_of_index).
  intros []; reflexivity.
Defined.

Inductive TaskStatus := PENDING | RUNNING | COMPLETED | FAILED | BLOCKED | ESCALATED.

#[global] Instance TaskStatus_eq_dec : EqDecision TaskStatus.
Proof. solve_decision. Defined.

Record WorkflowTask := {
  id : string;
  stage : WorkflowStage;
  agent_name : string;
  input_data : option Envelope;
  output_data : option Envelope;
  status : TaskStatus;
  dependencies : list string;
  created_at : datetime;
  started_at : option datetime;
  completed_at : option datetime;
  error : option string;
  retry_count : nat;
  max_retries : nat
}.

Record WorkflowResult := {
  workflow_id : string;
  success : bool;
  stages_completed : list WorkflowStage;
  stages_failed : list WorkflowStage;
  outputs : gmap string Envelope;
  duration_seconds : Q;
  escalations : list Py.value
}.

(** One line of a workflow definition: [(stage, agent_name, deps)]. *)
Abbreviation StageDef := (WorkflowStage * string * list WorkflowStage)%type
  (only parsing).

Definition DEFAULT_WORKFLOW : list StageDef :=
  [ (REQUIREMENTS, "ProductAgent", []);
    (ARCHITECTURE, "ArchitectAgent", [REQUIREMENTS]);
    (IMPLEMENTATION, "ImplementationAgent", [ARCHITECTURE]);
    (REVIEW, "ReviewerAgent", [IMPLEMENTATION]);
    (BUILD_TEST, "BuildTestAgent", [REVIEW]);
    (INTEGRATION, "IntegratorAgent", [BUILD_TEST]);
    (FINAL_APPROVAL, "ArchitectAgent", [INTEGRATION]) ].

(** [FAILURE_ROUTING.get(stage)] *)
Definition FAILURE_ROUTING (s : WorkflowStage) : option WorkflowStage :=
  match s with
  | REVIEW => Some IMPLEMENTATION
  | BUILD_TEST => Some IMPLEMENTATION
  | INTEGRATION => Some IMPLEMENTATION
  | FINAL_APPROVAL => Some ARCHITECTURE
  | _ => None
  end.

(** The orchestrator object.  [_active_workflows] keeps, per workflow id, the
    task objects of that run; they are the values of the run's [tasks]
    dictionary, which is what is stored here. *)
Record Orchestrator := {
  world : World;
  _agents : gmap string BaseAgent;
  _active_workflows : gmap string (gmap WorkflowStage WorkflowTask);
  _escalations : list ConflictRecord
}.

(** [_prepare_input]: the input object it returns for a stage, given the run
    context and the earlier outputs (the request id it draws included).  The
    loop calls it before the [try] block, so an exception of it (it reads
    from the earlier outputs the fields of their contract classes) would
    leave [run_workflow] itself, without a report: the run functions below
    describe the runs in which every call of it returns.  What it builds is
    the workers' business; it is a parameter of the loop, and every property
    of the loop below holds whatever it builds. *)
Class Envelopes := {
  _prepare_input :
    WorkflowStage -> gmap string Py.value -> gmap WorkflowStage Envelope -> Envelope
}.

(** [Orchestrator._update_context]: the exception it raises, if any, and the
    [context] dictionary after the call (a first assignment stays when the
    second one raises). *)
Definition _update_context (s : WorkflowStage) (output : Envelope)
    (context : gmap string Py.value) : option Py.exn * gmap string Py.value :=
  match s with
  | REQUIREMENTS =>
      match getattr output "requirements" with
      | None => (Some (attribute_error output "requirements"), context)
      | Some requirements =>
          let context := <["requirements" := requirements]> context in
          match getattr output "constraints" with
          | None => (Some (attribute_error output "constraints"), context)
          | Some constraints => (None, <["constraints" := constraints]> context)
          end
      end
  | ARCHITECTURE =>
      match getattr output "components" with
      | None => (Some (attribute_error output "components"), context)
      | Some components =>
          let context := <["architecture" := components]> context in
          match getattr output "invariants" with
          | None => (Some (attribute_error output "invariants"), context)
          | Some invariants => (None, <["invariants" := invariants]> context)
          end
      end
  | _ => (None, context)
  end.

(** [f"{workflow_id}-{stage.value}"] *)
Definition task_id (workflow_id : string) (s : WorkflowStage) : string :=
  workflow_id +:+ "-" +:+ value s.

(** Field updates on a task object. *)
Definition set_status (t : WorkflowTask) (st : TaskStatus) : WorkflowTask :=
  {| id := id t; stage := stage t; agent_name := agent_name t;
     input_data := input_data t; output_data := output_data t; status := st;
     dependencies := dependencies t; created_at := created_at t;
     started_at := started_at t; completed_at := completed_at t;
     error := error t; retry_count := retry_count t;
     max_retries := max_retries t |}.

(** [task.input_data = inp; task.status = RUNNING; task.started_at = now] *)
Definition start_task (t : WorkflowTask) (inp : Envelope) (t0 : datetime)
    : WorkflowTask :=
  {| id := id t; stage := stage t; agent_name := agent_name t;
     input_data := Some inp; output_data := output_data t; status := RUNNING;
     dependencies := dependencies t; created_at := created_at t;
     started_at := Some t0; completed_at := completed_at t;
     error := error t; retry_count := retry_count t;
     max_retries := max_retries t |}.

(** [task.output_data = out; task.status = COMPLETED; task.completed_at = now] *)
Definition complete_task (t : WorkflowTask) (out : Envelope) (t1 : datetime)
    : WorkflowTask :=
  {| id := id t; stage := stage t; agent_name := agent_name t;
     input_data := input_data t; output_data := Some out; status := COMPLETED;
     dependencies := dependencies t; created_at := created_at t;
     started_at := started_at t; completed_at := Some t1;
     error := error t; retry_count := retry_count t;
     max_retries := max_retries t |}.

(** [task.status = FAILED; task.error = str(e); task.completed_at = now] *)
Definition fail_task (t : WorkflowTask) (e : Py.exn) (t1 : datetime)
    : WorkflowTask :=
  {| id := id t; stage := stage t; agent_name := agent_name t;
     input_data := input_data t; output_data := output_data t; status := FAILED;
     dependencies := dependencies t; created_at := created_at t;
     started_at := started_at t; completed_at := Some t1;
     error := Some (Py.str e); retry_count := retry_count t;
     max_retries := max_retries t |}.

(** [target_task.status = PENDING; target_task.retry_count += 1] *)
Definition reset_task (t : WorkflowTask) : WorkflowTask :=
  {| id := id t; stage := stage t; agent_name := agent_name t;
     input_data := input_data t; output_data := output_data t; status := PENDING;
     dependencies := dependencies t; created_at := created_at t;
     started_at := started_at t; completed_at := completed_at t;
     error := error t; retry_count := retry_count t + 1;
     max_retries := max_retries t |}.

(** The [failure_context] dictionary injected by [_handle_failure]. *)
Definition failure_context (s : WorkflowStage) (task target_task : WorkflowTask)
    : Py.value :=
  Py.VDict [ ("failed_stage", Py.VStr (value s));
             ("error", opt_str (error task));
             ("retry_count", Py.VInt (Z.of_nat (retry_count target_task))) ].

(** [Orchestrator._handle_failure]: the returned flag, the [tasks] dictionary
    and the [context] dictionary after the call.  [task] is the failing
    stage's task object. *)
Definition _handle_failure (s : WorkflowStage) (task : WorkflowTask)
    (tasks : gmap WorkflowStage WorkflowTask) (context : gmap string Py.value)
    : bool * gmap WorkflowStage WorkflowTask * gmap string Py.value :=
  if (max_retries task <=? retry_count task)%nat then (false, tasks, context)
  else
    match FAILURE_ROUTING s with
    | None => (false, tasks, context)
    | Some target_stage =>
        match tasks !! target_stage with
        | Some target_task =>
            let target_task := reset_task target_task in
            (true,
             <[target_stage := target_task]> tasks,
             <["failure_context" := failure_context s task target_task]> context)
        | None => (false, tasks, context)
        end
    end.

(** The local variables of [run_workflow] that the stage loop updates,
    together with the agent objects and the shared stores. *)
Record RunState := {
  tasks : gmap WorkflowStage WorkflowTask;
  completed_stages : list WorkflowStage;
  failed_stages : list WorkflowStage;
  stage_outputs : gmap WorkflowStage Envelope;
  context : gmap string Py.value;
  agents : gmap string BaseAgent;
  stores : World
}.

(** How one iteration of the stage loop ends. *)
Inductive flow := Continue | Break.

(** The [WorkflowTask(...)] that [run_workflow] creates for a definition line. *)
Definition new_task (workflow_id : string) (t0 : datetime) (s : WorkflowStage)
    (agent_name : string) (deps : list WorkflowStage) : WorkflowTask :=
  {| id := task_id workflow_id s; stage := s; agent_name := agent_name;
     input_data := None; output_data := None; status := PENDING;
     dependencies := List.map (task_id workflow_id) deps;
     created_at := t0; started_at := None; completed_at := None;
     error := None; retry_count := 0; max_retries := 3 |}.

(** Task creation at the top of [run_workflow]. *)
Definition make_tasks (workflow_id : string) (t0 : datetime)
    (workflow_def : list StageDef) : gmap WorkflowStage WorkflowTask :=
  foldl (fun tasks '(s, agent_name, deps) =>
           <[s := new_task workflow_id t0 s agent_name deps]> tasks)
        ∅ workflow_def.

(** The [deps_met] test of the loop. *)
Definition deps_met (workflow_id : string) (workflow_def : list StageDef)
    (tasks : gmap WorkflowStage WorkflowTask) (task : WorkflowTask) : bool :=
  forallb
    (fun '(s, _, _) =>
       match tasks !! s with
       | Some t => bool_decide (status t = COMPLETED)
       | None => false
       end)
    (List.filter
       (fun '(s, _, _) => bool_decide (task_id workflow_id s ∈ dependencies task))
       workflow_def).

(** The stage of a definition line, and the status a stage's task has. *)
Definition stage_of (line : StageDef) : WorkflowStage := line.1.1.

Definition status_of (tasks : gmap WorkflowStage WorkflowTask)
    (s : WorkflowStage) : option TaskStatus :=
  status <$> tasks !! s.

(** [t'] is [t] with other run-time fields: what is fixed at creation, and the
    retry count, are the same. *)
Definition same_plan (t t' : WorkflowTask) : Prop :=
  dependencies t' = dependencies t /\ retry_count t' = retry_count t
  /\ max_retries t' = max_retries t.

(** Every line of the definition has its task, created from that line, with
    the default three retries; a stage that has a routing target has used no
    retry (retries are spent on routing targets only). *)
Definition planned (wid : string)
    (def : list (WorkflowStage * string * list WorkflowStage))
    (tasks : gmap WorkflowStage WorkflowTask) : Prop :=
  forall s ag deps, (s, ag, deps) ∈ def ->
    exists t, tasks !! s = Some t
              /\ dependencies t = List.map (task_id wid) deps
              /\ max_retries t = 3%nat
              /\ (FAILURE_ROUTING s <> None -> retry_count t = 0%nat).

(** Only stages of the definition have a task. *)
Definition only_planned (def : list (WorkflowStage * string * list WorkflowStage))
    (tasks : gmap WorkflowStage WorkflowTask) : Prop :=
  forall x t, tasks !! x = Some t -> x ∈ stage_of <$> def.


Section Run.
Context `{Memory.Fingerprint} `{Envelopes}.

(** The [except Exception as e] branch of the loop body. *)
Definition on_exception (s : WorkflowStage) (task : WorkflowTask) (e : Py.exn)
    (st : RunState) : flow * RunState :=
  let task := fail_task task e (now (stores st)) in
  let tasks := <[s := task]> (tasks st) in
  let '(handled, tasks, context) := _handle_failure s task tasks (context st) in
  if handled then
    (Continue,
     {| tasks := tasks; completed_stages := completed_stages st;
        failed_stages := failed_stages st; stage_outputs := stage_outputs st;
        context := context; agents := agents st; stores := stores st |})
  else
    (Break,
     {| tasks := tasks; completed_stages := completed_stages st;
        failed_stages := (failed_stages st ++ [s])%list;
        stage_outputs := stage_outputs st;
        context := context; agents := agents st; stores := stores st |}).

(** One iteration of [for stage, agent_name, _ in workflow_def]. *)
Definition run_stage (workflow_id : string) (workflow_def : list StageDef)
    (s : WorkflowStage) (agent_name : string) (st : RunState)
    : flow * RunState :=
  match tasks st !! s with
  | None => (Break, st)   (* KeyError: every listed stage has a task *)
  | Some task =>
      if negb (deps_met workflow_id workflow_def (tasks st) task) then
        (Continue,
         {| tasks := <[s := set_status task BLOCKED]> (tasks st);
            completed_stages := completed_stages st;
            failed_stages := (failed_stages st ++ [s])%list;
            stage_outputs := stage_outputs st;
            context := context st; agents := agents st; stores := stores st |})
      else
        let inp := _prepare_input s (context st) (stage_outputs st) in
        let task := start_task task inp (now (stores st)) in
        let st :=
          {| tasks := <[s := task]> (tasks st);
             completed_stages := completed_stages st;
             failed_stages := failed_stages st;
             stage_outputs := stage_outputs st;
             context := context st; agents := agents st; stores := stores st |} in
        match agents st !! agent_name with
        | None =>
            on_exception s task
              (Py.ValueError ("Agent not found: " +:+ agent_name)) st
        | Some agent =>
            let '(r, agent, w) := execute agent inp (stores st) in
            let st :=
              {| tasks := tasks st; completed_stages := completed_stages st;
                 failed_stages := failed_stages st;
                 stage_outputs := stage_outputs st; context := context st;
                 agents := <[agent_name := agent]> (agents st); stores := w |} in
            match r with
            | Returned output =>
                let task := complete_task task output (now w) in
                let '(raised, context) :=
                  _update_context s output (context st) in
                let st :=
                  {| tasks := <[s := task]> (tasks st);
                     completed_stages := (completed_stages st ++ [s])%list;
                     failed_stages := failed_stages st;
                     stage_outputs := <[s := output]> (stage_outputs st);
                     context := context; agents := agents st; stores := w |} in
                match raised with
                | None => (Continue, st)
                | Some e => on_exception s task e st
                end
            | Raised e => on_exception s task e st
            end
        end
  end.

(** The five ways one iteration of the stage loop can go, for a stage [s]
    assigned to [agent_name] whose task is [t]: blocked, completed, failed
    and routed, failed and halted, or completed and then failed by the
    context update. *)
Inductive iteration (wid : string) (def : list (WorkflowStage * string * list WorkflowStage))
    (s : WorkflowStage) (agent_name : string) (st : RunState) (t : WorkflowTask)
    : flow -> RunState -> Prop :=
| it_blocked st' :
    deps_met wid def (tasks st) t = false ->
    tasks st' = <[s := set_status t BLOCKED]> (tasks st) ->
    failed_stages st' = (failed_stages st ++ [s])%list ->
    completed_stages st' = completed_stages st ->
    iteration wid def s agent_name st t Continue st'
| it_completed st' t' a out :
    deps_met wid def (tasks st) t = true ->
    agents st !! agent_name = Some a ->
    (execute a (_prepare_input s (context st) (stage_outputs st)) (stores st)).1.1
    = Returned out ->
    status t' = COMPLETED -> same_plan t t' ->
    tasks st' = <[s := t']> (tasks st) ->
    failed_stages st' = failed_stages st ->
    completed_stages st' = (completed_stages st ++ [s])%list ->
    iteration wid def s agent_name st t Continue st'
| it_routed st' t' target tt :
    deps_met wid def (tasks st) t = true ->
    status t' = FAILED -> same_plan t t' ->
    (retry_count t < max_retries t)%nat ->
    FAILURE_ROUTING s = Some target ->
    tasks st !! target = Some tt ->
    tasks st' = <[target := reset_task tt]> (<[s := t']> (tasks st)) ->
    failed_stages st' = failed_stages st ->
    completed_stages st' = completed_stages st ->
    iteration wid def s agent_name st t Continue st'
| it_halted st' t' :
    deps_met wid def (tasks st) t = true ->
    status t' = FAILED -> same_plan t t' ->
    ((max_retries t <= retry_count t)%nat
     \/ FAILURE_ROUTING s = None
     \/ exists target, FAILURE_ROUTING s = Some target /\ tasks st !! target = None) ->
    tasks st' = <[s := t']> (tasks st) ->
    failed_stages st' = (failed_stages st ++ [s])%list ->
    completed_stages st' = completed_stages st ->
    iteration wid def s agent_name st t Break st'
| it_update_failed st' t' a out e context' :
    deps_met wid def (tasks st) t = true ->
    agents st !! agent_name = Some a ->
    (execute a (_prepare_input s (context st) (stage_outputs st)) (stores st)).1.1
    = Returned out ->
    _update_context s out (context st) = (Some e, context') ->
    status t' = FAILED -> same_plan t t' ->
    tasks st' = <[s := t']> (tasks st) ->
    failed_stages st' = (failed_stages st ++ [s])%list ->
    completed_stages st' = (completed_stages st ++ [s])%list ->
    iteration wid def s agent_name st t Break st'.

(** The stage loop, over the part of the definition still to visit; the flag
    tells whether the loop ran to its end or left through [break]. *)
Fixpoint run_stages (workflow_id : string) (workflow_def rest : list StageDef)
    (st : RunState) : flow * RunState :=
  match rest with
  | [] => (Continue, st)
  | (s, agent_name, _) :: rest =>
      match run_stage workflow_id workflow_def s agent_name st with
      | (Continue, st) => run_stages workflow_id workflow_def rest st
      | (Break, st) => (Break, st)
      end
  end.

(** [workflow or DEFAULT_WORKFLOW]: [None] and the empty list are falsy. *)
Definition workflow_or_default (workflow : option (list StageDef))
    : list StageDef :=
  match workflow with
  | None | Some [] => DEFAULT_WORKFLOW
  | Some w => w
  end.

(** The local variables of [run_workflow] when the stage loop starts. *)
Definition initial_state (workflow_id : string) (user_request : string)
    (workflow_def : list StageDef) (o : Orchestrator) : RunState :=
  {| tasks := make_tasks workflow_id (now (world o)) workflow_def;
     completed_stages := []; failed_stages := [];
     stage_outputs := ∅;
     context := {[ "user_request" := Py.VStr user_request ]};
     agents := _agents o; stores := world o |}.

(** The run up to the end of the stage loop. *)
Definition run_loop (workflow_id : string) (user_request : string)
    (workflow : option (list StageDef)) (o : Orchestrator) : RunState :=
  let workflow_def := workflow_or_default workflow in
  (run_stages workflow_id workflow_def workflow_def
     (initial_state workflow_id user_request workflow_def o)).2.

(** [Orchestrator.run_workflow]; [workflow_id] is the identifier drawn for
    the run.  Returns the result and the orchestrator after the run. *)
Definition run_workflow (workflow_id : string) (user_request : string)
    (workflow : option (list StageDef)) (o : Orchestrator)
    : WorkflowResult * Orchestrator :=
  let start_time := now (world o) in
  let st := run_loop workflow_id user_request workflow o in
  let w := stores st in
  let duration := (inject_Z (now w - start_time) / 1000000)%Q in
  let ok := bool_decide (length (failed_stages st) = 0%nat) in
  let summary :=
    Py.VDict
      [ ("workflow_id", Py.VStr workflow_id);
        ("success", Py.VBool ok);
        ("completed", Py.VList (List.map (fun s => Py.VStr (value s))
                                  (completed_stages st)));
        ("failed", Py.VList (List.map (fun s => Py.VStr (value s))
                               (failed_stages st))) ] in
  let w :=
    set_memory w
      (Memory.store (now w) (memory_store w) summary Memory.PROJECT
         "Orchestrator" 1 None (Some ["workflow"; "execution"])).2 in
  ({| workflow_id := workflow_id;
      success := ok;
      stages_completed := completed_stages st;
      stages_failed := failed_stages st;
      outputs := kmap value (stage_outputs st);
      duration_seconds := duration;
      escalations := List.map to_dict (_escalations o) |},
   {| world := w; _agents := agents st;
      _active_workflows := <[workflow_id := tasks st]> (_active_workflows o);
      _escalations := _escalations o |}).

End Run.

(** Assignment to [self._escalations] (or in-place change of its records). *)
Definition set_escalations (o : Orchestrator) (cs : list ConflictRecord)
    : Orchestrator :=
  {| world := world o; _agents := _agents o;
     _active_workflows := _active_workflows o; _escalations := cs |}.

(** [Orchestrator.escalate_conflict]; [uuid] is the identifier drawn for the
    conflict.  Returns the record and the orchestrator after the call. *)
Definition escalate_conflict (uuid : string) (o : Orchestrator) (topic : string)
    (agents_involved : list string) (evidence : list Py.value)
    : ConflictRecord * Orchestrator :=
  let max_authority :=
    foldl (fun max_authority agent_name =>
             match _agents o !! agent_name with
             | Some agent =>
                 if (max_authority <? authority_level (config agent))%Z
                 then authority_level (config agent) else max_authority
             | None => max_authority
             end) 0%Z agents_involved in
  let decision_owner := "ArchitectAgent" in
  let decision_owner :=
    if (max_authority <? 10)%Z then "ArchitectAgent" else decision_owner in
  let conflict :=
    {| conflict_id := uuid; topic := topic; agents_involved := agents_involved;
       evidence := evidence; decision_owner := decision_owner;
       resolution := None; Contracts.created_at := now (world o);
       resolved_at := None |} in
  (conflict, set_escalations o (_escalations o ++ [conflict])%list).

(** [conflict.resolution = resolution; conflict.resolved_at = datetime.now()] *)
Definition resolve_record (c : ConflictRecord) (res : Py.value) (t : datetime)
    : ConflictRecord :=
  {| conflict_id := conflict_id c; topic := topic c;
     agents_involved := agents_involved c; evidence := evidence c;
     decision_owner := decision_owner c;
     resolution := Some res;
     Contracts.created_at := Contracts.created_at c;
     resolved_at := Some t |}.

(** The loop of [resolve_conflict] over the escalation list: the first
    record carrying the id is resolved, whatever its state. *)
Fixpoint resolve_in (cs : list ConflictRecord) (cid : string)
    (res : Py.value) (t : datetime) : bool * list ConflictRecord :=
  match cs with
  | [] => (false, [])
  | c :: cs =>
      if String.eqb (conflict_id c) cid then (true, resolve_record c res t :: cs)
      else
        let '(found, cs) := resolve_in cs cid res t in (found, c :: cs)
  end.

(** [Orchestrator.resolve_conflict] *)
Definition resolve_conflict (o : Orchestrator) (cid : string) (res : Py.value)
    : bool * Orchestrator :=
  let '(found, cs) := resolve_in (_escalations o) cid res (now (world o)) in
  (found, set_escalations o cs).

(** A created file that [_prepare_input] can read: it has a path, and a
    content that can be sliced. *)
Definition readable_file (f : list (string * Py.value)) : bool :=
  has_key "path" f
  && match get "content" f with
     | Some (Py.VStr _) | Some (Py.VList _) => true
     | _ => false
     end.

(** [o] is of the contract class whose fields the orchestrator reads from
    the output of stage [s], in [_update_context] and in the [_prepare_input]
    of later stages; it reads nothing from the outputs of the last two
    stages. *)
Definition output_of_stage (s : WorkflowStage) (o : StageOutput) : bool :=
  match s, o with
  | REQUIREMENTS, Requirements _ => true
  | ARCHITECTURE, Architecture _ => true
  | IMPLEMENTATION, Implementation o =>
      forallb readable_file (ImplementationOutput.files_created o)
  | REVIEW, CodeReview _ => true
  | BUILD_TEST, BuildTest _ => true
  | INTEGRATION, _ => true
  | FINAL_APPROVAL, _ => true
  | _, _ => false
  end.

(** The worker-specific logic of [a] returns, on every input prepared for
    stage [s], an output of the stage's contract class without
    error-severity violation. *)
Definition succeeds_at `{Envelopes} (s : WorkflowStage) (a : BaseAgent) : Prop :=
  forall ctx outs w, exists request_id timestamp processing_agent o w',
    _execute_impl a (_prepare_input s ctx outs) w
    = (Returned (envelope request_id timestamp processing_agent o), w')
    /\ output_of_stage s o = true
    /\ any_error (output_validate o) = false.

(** The worker-specific logic of [a] raises on every input prepared for
    stage [s]. *)
Definition raises_at `{Envelopes} (s : WorkflowStage) (a : BaseAgent) : Prop :=
  forall ctx outs w, exists e w',
    _execute_impl a (_prepare_input s ctx outs) w = (Raised e, w').

(** No prepared input carries an error-severity violation (the input
    classes all inherit the base [validate], which returns the empty list). *)
Definition inputs_valid `{Envelopes} : Prop :=
  forall s ctx outs, any_error (validate (_prepare_input s ctx outs)) = false.

(** Every dependency that names a stage of the definition names a stage of
    an earlier line; [seen] are the stages of the lines already passed. *)
Fixpoint ordered_from (stages seen : list WorkflowStage)
    (rest : list (WorkflowStage * string * list WorkflowStage)) : bool :=
  match rest with
  | [] => true
  | (s, _, deps) :: rest =>
      forallb (fun d => bool_decide (d ∈ seen) || negb (bool_decide (d ∈ stages)))
        deps
      && ordered_from stages (seen ++ [s]) rest
  end.

Definition dependencies_first
    (def : list (WorkflowStage * string * list WorkflowStage)) : Prop :=
  ordered_from (stage_of <$> def) [] def = true.

(** The same agent names, each with the same configuration and
    worker-specific logic. *)
Definition same_logic (m m' : gmap string BaseAgent) : Prop :=
  forall ag,
    match m !! ag, m' !! ag with
    | Some a, Some a' => _execute_impl a' = _execute_impl a /\ config a' = config a
    | None, None => True
    | _, _ => False
    end.

End Orchestrator.


(** ** Sample data used by the examples below *)

Module Samples.
Import Memory.

(** An entry as [MemoryEntry(id, content, scope, source, confidence, policy)]
    builds it at clock value [t]. *)
Definition entry (c : Q) (p : DecayPolicy) (t : datetime) : MemoryEntry :=
  {| id := "test"; content := Py.VStr "test"; scope := WORKING; source := "test";
     confidence := c; decay_policy := p; created_at := t; last_accessed := t;
     access_count := 0; tags := []; related_entries := [] |}.

(** Five calls like those of [test_autonomy_adjustment], one second apart. *)
Definition good_call (t : datetime) : Evaluation.Call :=
  {| Evaluation.call_now := t; Evaluation.call_agent := "GoodAgent";
     Evaluation.call_success := true;
     Evaluation.call_scores :=
       [ (Evaluation.CORRECTNESS, 100%Q); (Evaluation.COMPLIANCE, 100%Q) ];
     Evaluation.call_task_id := None |}.

Definition five_good_calls : list Evaluation.Call :=
  List.map good_call [ 1000000; 2000000; 3000000; 4000000; 5000000 ]%Z.

(** A failed task, as [_record_failure] reports it. *)
Definition bad_call (t : datetime) : Evaluation.Call :=
  {| Evaluation.call_now := t; Evaluation.call_agent := "GoodAgent";
     Evaluation.call_success := false;
     Evaluation.call_scores := [ (Evaluation.CORRECTNESS, 0%Q) ];
     Evaluation.call_task_id := Some "t1" |}.

(** The seven agents of [_init_agents], with their authority levels; the
    worker-specific logic is a parameter. *)
Definition agent (n : string) (level : Z)
    (impl : Contracts.Envelope -> Agents.World
            -> Agents.outcome Contracts.Envelope * Agents.World)
    : Agents.BaseAgent :=
  {| Agents.config :=
       {| Agents.name := n; Agents.authority_level := level;
          Agents.model := "anthropic/claude-3.5-sonnet";
          Agents.temperature := 7 # 10; Agents.max_tokens := 4096;
          Agents.requires_approval_above := 0; Agents.owned_artifacts := [] |};
     Agents._current_task_id := None; Agents._task_start_time := None;
     Agents._execute_impl := impl |}.

Definition empty_world : Agents.World :=
  {| Agents.memory_store := ∅; Agents.evaluation := ∅; Agents.now := 0 |}.

(** An input envelope, valid or carrying one error-severity violation. *)
Definition input (rid : string) (valid : bool) : Contracts.Envelope :=
  {| Contracts.request_id := rid; Contracts.timestamp := 0;
     Contracts.agent := None; Contracts.type_name := "ContractInput";
     Contracts.payload := Py.VNone;
     Contracts.validate :=
       if valid then []
       else [ {| Contracts.rule_id := "IN-001"; Contracts.severity := "error";
                 Contracts.message := "Missing field";
                 Contracts.location := None; Contracts.suggested_fix := None |} ] |}.

(** An output envelope, valid or carrying one error-severity violation. *)
Definition output (rid : string) (valid : bool) : Contracts.Envelope :=
  {| Contracts.request_id := rid; Contracts.timestamp := 0;
     Contracts.agent := None; Contracts.type_name := "ContractOutput";
     Contracts.payload := Py.VNone;
     Contracts.validate :=
       if valid then []
       else [ {| Contracts.rule_id := "BUILD-001"; Contracts.severity := "error";
                 Contracts.message := "Build failed";
                 Contracts.location := None; Contracts.suggested_fix := None |} ] |}.

(** A valid output of each contract class. *)
Definition requirements_output : Contracts.RequirementsOutput.t :=
  {| Contracts.RequirementsOutput.requirements :=
       [ [ ("id", Py.VStr "REQ-1"); ("description", Py.VStr "Add a login form") ] ];
     Contracts.RequirementsOutput.acceptance_criteria := [ "A user can log in" ];
     Contracts.RequirementsOutput.constraints := [ "No new dependency" ];
     Contracts.RequirementsOutput.risks := [] |}.

Definition architecture_output : Contracts.ArchitectureOutput.t :=
  {| Contracts.ArchitectureOutput.components :=
       [ [ ("name", Py.VStr "auth"); ("responsibility", Py.VStr "login") ] ];
     Contracts.ArchitectureOutput.invariants := [ "Passwords are never logged" ];
     Contracts.ArchitectureOutput.design_decisions := [];
     Contracts.ArchitectureOutput.api_contracts := [];
     Contracts.ArchitectureOutput.risks := [] |}.

Definition implementation_output : Contracts.ImplementationOutput.t :=
  {| Contracts.ImplementationOutput.files_created :=
       [ [ ("path", Py.VStr "auth/login.py");
           ("content", Py.VStr "def login(): ...");
           ("language", Py.VStr "python") ] ];
     Contracts.ImplementationOutput.files_modified := [];
     Contracts.ImplementationOutput.files_deleted := [];
     Contracts.ImplementationOutput.implementation_notes := "";
     Contracts.ImplementationOutput.api_compliance := true |}.

Definition review_output : Contracts.CodeReviewOutput.t :=
  {| Contracts.CodeReviewOutput.verdict := Contracts.PASS;
     Contracts.CodeReviewOutput.violations := [];
     Contracts.CodeReviewOutput.suggested_patches := [];
     Contracts.CodeReviewOutput.security_concerns := [];
     Contracts.CodeReviewOutput.quality_score := 90;
     Contracts.CodeReviewOutput.comments := "" |}.

Definition green_build : Contracts.BuildTestOutput.t :=
  {| Contracts.BuildTestOutput.build_success := true;
     Contracts.BuildTestOutput.test_success := true;
     Contracts.BuildTestOutput.test_results :=
       [ ("passed", Py.VInt 10); ("failed", Py.VInt 0) ];
     Contracts.BuildTestOutput.build_logs := "make: ok";
     Contracts.BuildTestOutput.test_logs := "10 passed";
     Contracts.BuildTestOutput.metrics := [];
     Contracts.BuildTestOutput.security_scan := None |}.

Definition integration_output : Contracts.IntegrationOutput.t :=
  {| Contracts.IntegrationOutput.success := true;
     Contracts.IntegrationOutput.merged_files := [ "auth/login.py" ];
     Contracts.IntegrationOutput.conflicts := [];
     Contracts.IntegrationOutput.commit_sha := None;
     Contracts.IntegrationOutput.integration_notes := "" |}.

(** The output a worker builds for a request: the sample inputs below carry
    the name of their stage as request id, and a request of a stage gets the
    valid output of that stage's contract class. *)
Definition output_for (request_id : string) : option Contracts.StageOutput :=
  if String.eqb request_id "requirements" then
    Some (Contracts.Requirements requirements_output)
  else if String.eqb request_id "architecture" then
    Some (Contracts.Architecture architecture_output)
  else if String.eqb request_id "implementation" then
    Some (Contracts.Implementation implementation_output)
  else if String.eqb request_id "review" then
    Some (Contracts.CodeReview review_output)
  else if String.eqb request_id "build_test" then
    Some (Contracts.BuildTest green_build)
  else if String.eqb request_id "integration" then
    Some (Contracts.Integration integration_output)
  else if String.eqb request_id "final_approval" then
    Some (Contracts.Architecture architecture_output)
  else None.

(** Worker logic that returns a valid output (of the stage's contract class
    for a stage request, a plain [ContractOutput] otherwise), a valid plain
    [ContractOutput] whatever the request, an invalid output, or raises. *)
Definition succeeds : Contracts.Envelope -> Agents.World
    -> Agents.outcome Contracts.Envelope * Agents.World :=
  fun inp w =>
    match output_for (Contracts.request_id inp) with
    | Some o =>
        (Agents.Returned
           (Contracts.envelope (Contracts.request_id inp) (Agents.now w) None o),
         w)
    | None => (Agents.Returned (output (Contracts.request_id inp) true), w)
    end.

Definition untyped : Contracts.Envelope -> Agents.World
    -> Agents.outcome Contracts.Envelope * Agents.World :=
  fun inp w => (Agents.Returned (output (Contracts.request_id inp) true), w).

Definition violates : Contracts.Envelope -> Agents.World
    -> Agents.outcome Contracts.Envelope * Agents.World :=
  fun inp w => (Agents.Returned (output (Contracts.request_id inp) false), w).

Definition crashes : Contracts.Envelope -> Agents.World
    -> Agents.outcome Contracts.Envelope * Agents.World :=
  fun inp w => (Agents.Raised (Py.WorkerError "boom"), w).

(** An orchestrator over empty stores whose seven agents all run [impl],
    but for the agent named [bad], which runs [violates]. *)
Definition orchestrator_but (bad : string)
    (impl : Contracts.Envelope -> Agents.World
            -> Agents.outcome Contracts.Envelope * Agents.World)
    : Orchestrator.Orchestrator :=
  {| Orchestrator.world := empty_world;
     Orchestrator._agents :=
       list_to_map
         (List.map
            (fun '(n, level) =>
               (n, agent n level (if String.eqb n bad then violates else impl)))
            [ ("ArchitectAgent", 10%Z); ("ProductAgent", 9%Z);
              ("ImplementationAgent", 5%Z); ("ReviewerAgent", 7%Z);
              ("BuildTestAgent", 8%Z); ("IntegratorAgent", 8%Z);
              ("InfraAgent", 6%Z) ]);
     Orchestrator._active_workflows := ∅;
     Orchestrator._escalations := [] |}.

(** Input preparation that hands every stage a valid input, with the name
    of the stage as request id. *)
Definition envelopes : Orchestrator.Envelopes :=
  {| Orchestrator._prepare_input :=
       fun s _ _ => input (Orchestrator.value s) true |}.


(** An orchestrator over empty stores whose seven agents all run [impl]. *)
Definition orchestrator
    (impl : Contracts.Envelope -> Agents.World
            -> Agents.outcome Contracts.Envelope * Agents.World)
    : Orchestrator.Orchestrator :=
  {| Orchestrator.world := empty_world;
     Orchestrator._agents :=
       list_to_map
         [ ("ArchitectAgent", agent "ArchitectAgent" 10 impl);
           ("ProductAgent", agent "ProductAgent" 9 impl);
           ("ImplementationAgent", agent "ImplementationAgent" 5 impl);
           ("ReviewerAgent", agent "ReviewerAgent" 7 impl);
           ("BuildTestAgent", agent "BuildTestAgent" 8 impl);
           ("IntegratorAgent", agent "IntegratorAgent" 8 impl);
           ("InfraAgent", agent "InfraAgent" 6 impl) ];
     Orchestrator._active_workflows := ∅;
     Orchestrator._escalations := [] |}.

(** A conflict that has already been resolved at clock value 5. *)
Definition resolved_conflict : Contracts.ConflictRecord :=
  {| Contracts.conflict_id := "c1"; Contracts.topic := "Design disagreement";
     Contracts.agents_involved := [ "ProductAgent"; "ImplementationAgent" ];
     Contracts.evidence := [ Py.VStr "Test" ];
     Contracts.decision_owner := "ArchitectAgent";
     Contracts.resolution := Some (Py.VStr "first");
     Contracts.created_at := 1; Contracts.resolved_at := Some 5%Z |}.

(** A printer standing in for the SHA-256 fingerprint of [_generate_id]. *)
Fixpoint dumps (v : Py.value) : string :=
  match v with
  | Py.VNone => "null"
  | Py.VBool true => "true"
  | Py.VBool false => "false"
  | Py.VInt z => pretty z
  | Py.VFloat q => pretty (Qnum q) +:+ "/" +:+ pretty (Zpos (Qden q))
  | Py.VStr s => "'" +:+ s +:+ "'"
  | Py.VList l => "[" +:+ String.concat "," (List.map dumps l) +:+ "]"
  | Py.VDict l =>
      "{" +:+ String.concat ","
                (List.map (fun kv => kv.1 +:+ ":" +:+ dumps kv.2) l) +:+ "}"
  end.

Definition fingerprint : Memory.Fingerprint := dumps.





(** The default workflow split around its review stage, and the state in
    which the loop reaches that stage when only the reviewer fails. *)
Definition review_pre : list (Orchestrator.WorkflowStage * string
                              * list Orchestrator.WorkflowStage) :=
  [ (Orchestrator.REQUIREMENTS, "ProductAgent", []);
    (Orchestrator.ARCHITECTURE, "ArchitectAgent", [ Orchestrator.REQUIREMENTS ]);
    (Orchestrator.IMPLEMENTATION, "ImplementationAgent",
     [ Orchestrator.ARCHITECTURE ]) ].




Definition review_run : Orchestrator.WorkflowResult * Orchestrator.Orchestrator :=
  @Orchestrator.run_workflow fingerprint envelopes "w1" "req"
    (Some Orchestrator.DEFAULT_WORKFLOW) (orchestrator_but "ReviewerAgent" succeeds).

(** The run of the default workflow in which every worker returns a valid
    plain [ContractOutput], which has none of the fields of the stages'
    contract classes. *)
Definition untyped_run : Orchestrator.WorkflowResult * Orchestrator.Orchestrator :=
  @Orchestrator.run_workflow fingerprint envelopes "w1" "req"
    (Some Orchestrator.DEFAULT_WORKFLOW) (orchestrator untyped).

(** A scorecard with one recorded score. *)
Definition scored : Evaluation.AgentScorecard :=
  Evaluation.add_score 0 (Evaluation.new_scorecard "GoodAgent")
    Evaluation.CORRECTNESS 90 None "".

(** A scorecard with one success in two tasks. *)
Definition struggling : Evaluation.AgentScorecard :=
  Evaluation.record_failure
    (Evaluation.record_success (Evaluation.new_scorecard "GoodAgent")).

(** Feedback of a run with nine passed tests, one failed and one security
    finding. *)
Definition feedback : Evaluation.ExecutionFeedback :=
  {| Evaluation.build_success := true; Evaluation.test_success := false;
     Evaluation.test_passed := 9; Evaluation.test_failed := 1;
     Evaluation.test_skipped := 0; Evaluation.coverage_percent := 85;
     Evaluation.execution_time_ms := 1200; Evaluation.memory_usage_mb := 64;
     Evaluation.security_issues := [ Py.VDict [ ("rule", Py.VStr "B101") ] ];
     Evaluation.performance_metrics := Py.VDict [] |}.

(** Float formatting by rounding down to an integer, standing in for the
    format specifications of the recommendation messages. *)
Definition formats : Evaluation.Formats :=
  {| Evaluation.format_1f :=
       fun q => pretty (Qnum q / Z.pos (Qden q))%Z +:+ ".0";
     Evaluation.format_percent :=
       fun q => pretty (Qnum (q * 100) / Z.pos (Qden (q * 100)))%Z +:+ "%" |}.

(** Worker logic that rejects the input prepared for final approval and
    succeeds on every other input. *)
Definition rejects_final : Contracts.Envelope -> Agents.World
    -> Agents.outcome Contracts.Envelope * Agents.World :=
  fun inp w =>
    if String.eqb (Contracts.request_id inp) "final_approval" then
      (Agents.Raised (Py.WorkerError "rejected"), w)
    else succeeds inp w.

(** A build whose tests failed, and worker logic that reports it. *)
Definition red_build : Contracts.BuildTestOutput.t :=
  {| Contracts.BuildTestOutput.build_success := true;
     Contracts.BuildTestOutput.test_success := false;
     Contracts.BuildTestOutput.test_results :=
       [ ("passed", Py.VInt 9); ("failed", Py.VInt 1) ];
     Contracts.BuildTestOutput.build_logs := "make: ok";
     Contracts.BuildTestOutput.test_logs := "1 failed";
     Contracts.BuildTestOutput.metrics := [];
     Contracts.BuildTestOutput.security_scan := None |}.

Definition reports_red_build : Contracts.Envelope -> Agents.World
    -> Agents.outcome Contracts.Envelope * Agents.World :=
  fun inp w =>
    (Agents.Returned
       (Contracts.envelope (Contracts.request_id inp) (Agents.now w)
          (Some "BuildTestAgent") (Contracts.BuildTest red_build)), w).

End Samples.


(** * Properties *)

(** ** The decay law *)

Section DecayLaw.
Import Memory.
Local Open Scope R_scope.

Lemma ln_half_neg : ln (1 / 2) < 0.
Proof.
  rewrite <- ln_1. apply ln_increasing; lra.
Qed.

Lemma exp_le_mono (x y : R) : x <= y -> exp x <= exp y.
Proof.
  intros [Hlt | ->]; [left; now apply exp_increasing | right; reflexivity].
Qed.

(** [0.5 ** y] does not grow with [y]. *)
Lemma half_power_antitone (y1 y2 : R) :
  y1 <= y2 -> Rpower (1 / 2) y2 <= Rpower (1 / 2) y1.
Proof.
  intros Hy. unfold Rpower. apply exp_le_mono.
  pose proof ln_half_neg as Hln. nra.
Qed.

Lemma half_power_zero : Rpower (1 / 2) 0 = 1.
Proof. apply Rpower_O; lra. Qed.

Lemma elapsed_mono (t1 t2 t0 : Z) :
  (t1 <= t2)%Z -> total_seconds (t1 - t0) <= total_seconds (t2 - t0).
Proof.
  intros Ht. unfold total_seconds.
  assert (IZR (t1 - t0) <= IZR (t2 - t0)) by (apply IZR_le; lia).
  lra.
Qed.

Lemma access_boost_pos (n : nat) : 0 < Rmin 2 (1 + INR n * (1 / 10)).
Proof.
  apply Rmin_glb_lt; [lra |].
  pose proof (pos_INR n). lra.
Qed.

(** For a half-life [h > 0], the decayed product shrinks as the clock moves. *)
Lemma decayed_product_antitone (c b : R) (h t0 t1 t2 : Z) :
  0 <= c -> 0 < b -> (0 < h)%Z -> (t1 <= t2)%Z ->
  c * Rpower (1 / 2) (total_seconds (t2 - t0) / IZR h) * b
  <= c * Rpower (1 / 2) (total_seconds (t1 - t0) / IZR h) * b.
Proof.
  intros Hc Hb Hh Ht.
  assert (Hh' : 0 < IZR h) by (apply IZR_lt; lia).
  assert (Hp : Rpower (1 / 2) (total_seconds (t2 - t0) / IZR h)
               <= Rpower (1 / 2) (total_seconds (t1 - t0) / IZR h)).
  { apply half_power_antitone. pose proof (elapsed_mono t1 t2 t0 Ht) as He.
    unfold Rdiv. apply Rmult_le_compat_r; [| exact He].
    left. now apply Rinv_0_lt_compat. }
  apply Rmult_le_compat_r; [lra |].
  apply Rmult_le_compat_l; [exact Hc | exact Hp].
Qed.

Lemma Q2R_nonneg (q : Q) : (0 <= q)%Q -> 0 <= Q2R q.
Proof. intros Hq. apply Qle_Rle in Hq. now rewrite RMicromega.Q2R_0 in Hq. Qed.

Lemma Q2R_le_one (q : Q) : (q <= 1)%Q -> Q2R q <= 1.
Proof. intros Hq. apply Qle_Rle in Hq. now rewrite RMicromega.Q2R_1 in Hq. Qed.

(** Between two accesses (the entry itself unchanged) strength never grows. *)
Lemma strength_antitone (e : MemoryEntry) (t1 t2 : Z) :
  (0 <= confidence e)%Q -> (t1 <= t2)%Z ->
  get_current_strength t2 e <= get_current_strength t1 e.
Proof.
  intros Hc Ht. apply Q2R_nonneg in Hc.
  pose proof (access_boost_pos (access_count e)) as Hb.
  unfold get_current_strength.
  destruct (decay_policy e); simpl DECAY_RATES; cbv iota beta;
    try (apply Rle_min_compat_l; apply decayed_product_antitone; auto; lia).
  right; reflexivity.
Qed.

(** A never-read entry, read at the instant of its last access. *)
Lemma strength_fresh (e : MemoryEntry) :
  access_count e = 0%nat ->
  decay_policy e <> PERMANENT ->
  get_current_strength (last_accessed e) e = Rmin 1 (Q2R (confidence e)).
Proof.
  intros Hn Hp. unfold get_current_strength, total_seconds.
  rewrite Hn, Z.sub_diag. simpl INR.
  replace (Rmin 2 (1 + 0 * (1 / 10))) with 1
    by (symmetry; rewrite Rmin_right; lra).
  destruct (decay_policy e); try congruence; simpl DECAY_RATES; cbv iota beta;
    replace (0 / 1000000 / _) with 0 by (unfold Rdiv; ring);
    rewrite half_power_zero; f_equal; ring.
Qed.

End DecayLaw.


Section DecayClaims.
Import Memory.
Local Open Scope R_scope.

(** C5, as amended: for every memory entry whose confidence lies in [0, 1],
    the computed strength does not increase as the time since the last access
    grows (the entry, hence its access count, being fixed), and with
    [access_count = 0] and zero elapsed time the strength is exactly the
    entry's confidence; it is 1.0 for the default confidence 1.0 only. *)
Theorem strength_decay_law (e : MemoryEntry) (t1 t2 : Z) :
  (0 <= confidence e)%Q -> (confidence e <= 1)%Q -> (t1 <= t2)%Z ->
  get_current_strength t2 e <= get_current_strength t1 e
  /\ (access_count e = 0%nat ->
      get_current_strength (last_accessed e) e = Q2R (confidence e)).
Proof.
  intros H0 H1 Ht. split; [now apply strength_antitone |].
  intros Hn. destruct (decide (decay_policy e = PERMANENT)) as [Hp | Hp].
  - unfold get_current_strength. now rewrite Hp.
  - rewrite strength_fresh by assumption.
    apply Rmin_right. now apply Q2R_le_one.
Qed.

Lemma strength_decay_law_witness :
  get_current_strength 7200000000 (Samples.entry 1 FAST 0)
  <= get_current_strength 0 (Samples.entry 1 FAST 0)
  /\ get_current_strength 0 (Samples.entry 1 FAST 0) = Q2R 1.
Proof.
  destruct (strength_decay_law (Samples.entry 1 FAST 0) 0 7200000000)
    as [Hmono Hfresh].
  - simpl. unfold Qle. simpl. lia.
  - simpl. unfold Qle. simpl. lia.
  - lia.
  - split; [exact Hmono | apply Hfresh; reflexivity].
Defined.

(** C5 as stated fails: a never-read entry of confidence 0.5, read with zero
    elapsed time, has strength 0.5 and not 1.0. *)
Lemma strength_fresh_half_not_one :
  access_count (Samples.entry (1 # 2) FAST 0) = 0%nat
  /\ get_current_strength (last_accessed (Samples.entry (1 # 2) FAST 0))
       (Samples.entry (1 # 2) FAST 0) <> 1.
Proof.
  split; [reflexivity |]. simpl last_accessed.
  change 0%Z with (last_accessed (Samples.entry (1 # 2) FAST 0)) at 1.
  rewrite strength_fresh by (simpl; congruence).
  simpl. unfold Q2R. simpl. rewrite Rmin_right by lra. lra.
Qed.

(** C6: an entry whose decay policy is permanent reports exactly its
    confidence as strength, whatever the clock and the access count. *)
Theorem permanent_strength_is_confidence (e : MemoryEntry) (t : Z) :
  decay_policy e = PERMANENT ->
  get_current_strength t e = Q2R (confidence e).
Proof.
  intros Hp. unfold get_current_strength. now rewrite Hp.
Qed.

Lemma permanent_strength_is_confidence_witness :
  get_current_strength 86400000000 (Samples.entry (3 # 4) PERMANENT 0)
  = Q2R (3 # 4).
Proof.
  apply (permanent_strength_is_confidence (Samples.entry (3 # 4) PERMANENT 0)).
  reflexivity.
Defined.

End DecayClaims.


(** ** The autonomy rule *)

Section Autonomy.
Import Evaluation.
Local Open Scope Q_scope.

Lemma py_min_cap (a : Q) : 2 # 10 <= a -> 2 # 10 <= Py.min 1 a /\ Py.min 1 a <= 1.
Proof.
  intros Ha. unfold Py.min. destruct (Qlt_le_dec a 1); split; lra.
Qed.

Lemma py_max_floor (a : Q) : a <= 1 -> 2 # 10 <= Py.max (2 # 10) a /\ Py.max (2 # 10) a <= 1.
Proof.
  intros Ha. unfold Py.max. destruct (Qlt_le_dec (2 # 10) a); split; lra.
Qed.

(** [adjust_autonomy] keeps the level inside its bounds. *)
Lemma adjust_autonomy_in_bounds (t : Z) (sc : AgentScorecard) :
  autonomy_in_bounds sc -> autonomy_in_bounds (adjust_autonomy t sc).
Proof.
  intros [Hlo Hhi]. unfold adjust_autonomy, autonomy_in_bounds.
  destruct (_ && _); [| destruct (_ || _)]; simpl.
  - apply py_min_cap. lra.
  - apply py_max_floor. lra.
  - now split.
Qed.

Lemma add_score_autonomy (t : Z) sc c s tid n :
  autonomy_level (add_score t sc c s tid n) = autonomy_level sc.
Proof. reflexivity. Qed.

Lemma add_scores_autonomy (t : Z) (l : list (ScoreCategory * Q)) tid sc :
  autonomy_level
    (foldl (fun sc '(c, s) => add_score t sc c s tid "") sc l)
  = autonomy_level sc.
Proof.
  revert sc. induction l as [| [c s] l IH]; intros sc; simpl; [reflexivity |].
  now rewrite IH.
Qed.

Lemma record_task_result_unfold (t : Z) (es : gmap string AgentScorecard)
    name ok l tid :
  record_task_result t es name ok l tid
  = <[name := recorded t (default (new_scorecard name) (es !! name)) ok l tid]> es.
Proof.
  unfold record_task_result, get_scorecard, recorded.
  destruct (es !! name) as [sc |] eqn:Hsc; simpl; [reflexivity |].
  now rewrite insert_insert_eq.
Qed.

Lemma recorded_in_bounds (t : Z) sc ok l tid :
  autonomy_in_bounds sc -> autonomy_in_bounds (recorded t sc ok l tid).
Proof.
  intros Hb. apply adjust_autonomy_in_bounds.
  unfold autonomy_in_bounds. rewrite add_scores_autonomy.
  destruct ok; exact Hb.
Qed.

Lemma record_task_result_in_bounds (t : Z) (es : gmap string AgentScorecard)
    name ok l tid who sc :
  es !! who = Some sc -> autonomy_in_bounds sc ->
  exists sc', record_task_result t es name ok l tid !! who = Some sc'
              /\ autonomy_in_bounds sc'.
Proof.
  intros Hsc Hb. rewrite record_task_result_unfold.
  destruct (decide (name = who)) as [-> | Hne].
  - rewrite lookup_insert_eq, Hsc. simpl.
    eexists; split; [reflexivity | now apply recorded_in_bounds].
  - rewrite lookup_insert_ne by assumption. eauto.
Qed.

(** C3: a scorecard whose autonomy level starts in [0.2, 1.0] still has its
    level in [0.2, 1.0] after any finite sequence of [record_task_result]
    calls (for this or any other worker), each of which applies the
    [adjust_autonomy] rule. *)
Theorem autonomy_stays_in_bounds (calls : list Call)
    (es : gmap string AgentScorecard) (who : string) (sc : AgentScorecard) :
  es !! who = Some sc -> autonomy_in_bounds sc ->
  exists sc', record_all calls es !! who = Some sc' /\ autonomy_in_bounds sc'.
Proof.
  revert es sc. induction calls as [| c calls IH]; intros es sc Hsc Hb.
  - exists sc. now split.
  - simpl.
    destruct (record_task_result_in_bounds (call_now c) es (call_agent c)
                (call_success c) (call_scores c) (call_task_id c) who sc Hsc Hb)
      as (sc1 & Hsc1 & Hb1).
    exact (IH _ sc1 Hsc1 Hb1).
Qed.

End Autonomy.


(** ** A run of good results on a fresh scorecard *)

Section GoodResults.
Import Evaluation.
Local Open Scope Q_scope.

Lemma inject_Z_succ (n : nat) :
  inject_Z (Z.of_nat (S n)) == inject_Z (Z.of_nat n) + 1.
Proof.
  rewrite Nat2Z.inj_succ. unfold Z.succ. now rewrite inject_Z_plus.
Qed.

Lemma sum_lower_bound (m : Q) (xs : list Q) (a : Q) :
  Forall (Qle m) xs ->
  a + m * inject_Z (Z.of_nat (length xs)) <= foldl Qplus a xs.
Proof.
  intros Hxs. revert a. induction Hxs as [| x xs Hx _ IH]; intros a.
  - change (a + m * 0 <= a). lra.
  - simpl foldl. eapply Qle_trans; [| apply IH].
    change (length (x :: xs)) with (S (length xs)).
    rewrite inject_Z_succ. lra.
Qed.

(** The mean of a non-empty list is at least any lower bound of its items. *)
Lemma mean_lower_bound (m : Q) (xs : list Q) :
  xs <> [] -> Forall (Qle m) xs ->
  m <= Py.sum xs / inject_Z (Z.of_nat (length xs)).
Proof.
  intros Hne Hxs. apply Qle_shift_div_l.
  - destruct xs as [| x xs]; [congruence |].
    change (inject_Z 0 < inject_Z (Z.of_nat (S (length xs)))).
    rewrite <- Zlt_Qlt. lia.
  - pose proof (sum_lower_bound m xs 0 Hxs) as Hs. unfold Py.sum. lra.
Qed.

Lemma get_average_lower_bound (m : Q) (t : Z) sc c days :
  m <= 50 -> entries_at_least m sc -> m <= get_average t sc c days.
Proof.
  intros Hm Hsc. unfold get_average.
  destruct (scores sc !! value c) as [entries |] eqn:He; [| exact Hm].
  set (recent := List.filter _ entries).
  assert (Hrec : Forall (fun e => m <= score e) recent).
  { apply Forall_forall. intros e Hin%list_elem_of_In.
    apply filter_In in Hin as [Hin _].
    pose proof (Hsc _ _ He) as Hall. rewrite Forall_forall in Hall.
    apply Hall. now apply list_elem_of_In. }
  destruct recent as [| e recent'] eqn:Hr; [exact Hm |].
  rewrite <- (length_map score). apply mean_lower_bound; [discriminate |].
  apply Forall_forall. intros q Hq%list_elem_of_In.
  apply in_map_iff in Hq as (e' & <- & Hin).
  rewrite Forall_forall in Hrec. apply Hrec. now apply list_elem_of_In.
Qed.

Lemma get_overall_score_lower_bound (t : Z) sc :
  entries_at_least 50 sc -> 50 <= get_overall_score t sc.
Proof.
  intros Hsc.
  pose proof (fun c => get_average_lower_bound 50 t sc c 30 (Qle_refl 50) Hsc) as Ha.
  pose proof (Ha CORRECTNESS) as H1. pose proof (Ha EFFICIENCY) as H2.
  pose proof (Ha COMPLIANCE) as H3. pose proof (Ha COST) as H4.
  pose proof (Ha STABILITY) as H5. clear Ha.
  unfold get_overall_score, weights. simpl foldl. cbv beta iota zeta.
  destruct (Py.lt 0 _); [| lra].
  apply Qle_shift_div_l; lra.
Qed.

Lemma success_rate_all_successful sc :
  successful_tasks sc = total_tasks sc -> 7 # 10 <= get_success_rate sc.
Proof.
  intros Heq. unfold get_success_rate. rewrite Heq.
  destruct (total_tasks sc) as [| n]; [lra |].
  apply Qle_shift_div_l.
  - change (inject_Z 0 < inject_Z (Z.of_nat (S n))). rewrite <- Zlt_Qlt. lia.
  - assert (0 <= inject_Z (Z.of_nat (S n)))
      by (change (inject_Z 0 <= inject_Z (Z.of_nat (S n)));
          rewrite <- Zle_Qle; lia).
    lra.
Qed.

(** At the cap, with no poor aggregate, the rule leaves the level at 1.0. *)
Lemma adjust_autonomy_at_cap (t : Z) sc :
  autonomy_level sc = 1 -> entries_at_least 50 sc ->
  successful_tasks sc = total_tasks sc ->
  autonomy_level (adjust_autonomy t sc) = 1.
Proof.
  intros Ha He Hs. unfold adjust_autonomy.
  destruct (_ && _).
  - simpl. rewrite Ha. reflexivity.
  - pose proof (get_overall_score_lower_bound t sc He) as Ho.
    pose proof (success_rate_all_successful sc Hs) as Hr.
    unfold Py.lt. apply Qle_bool_iff in Ho, Hr. rewrite Ho, Hr. simpl. exact Ha.
Qed.

Lemma add_score_entries (m : Q) (t : Z) sc c s tid n :
  m <= s -> entries_at_least m sc -> entries_at_least m (add_score t sc c s tid n).
Proof.
  intros Hs Hsc k l. unfold add_score. simpl.
  destruct (decide (value c = k)) as [<- | Hne].
  - rewrite lookup_insert_eq. intros [= <-].
    apply Forall_app. split.
    + destruct (scores sc !! value c) as [old |] eqn:Ho; simpl; [eauto | constructor].
    + repeat constructor. exact Hs.
  - rewrite lookup_insert_ne by assumption. apply Hsc.
Qed.

Lemma add_scores_steady (m : Q) (t : Z) (l : list (ScoreCategory * Q)) tid sc :
  Forall (fun cs => m <= cs.2) l -> entries_at_least m sc ->
  let sc' := foldl (fun sc '(c, s) => add_score t sc c s tid "") sc l in
  entries_at_least m sc'
  /\ successful_tasks sc' = successful_tasks sc
  /\ total_tasks sc' = total_tasks sc.
Proof.
  intros Hl. revert sc. induction Hl as [| [c s] l Hs _ IH]; intros sc Hsc; simpl.
  - auto.
  - destruct (IH (add_score t sc c s tid "")) as (He & Hsucc & Htot).
    + now apply add_score_entries.
    + auto.
Qed.

Lemma new_scorecard_steady name : steady (new_scorecard name).
Proof.
  repeat split. intros k l Hk. simpl in Hk. now rewrite lookup_empty in Hk.
Qed.

Lemma recorded_steady (t : Z) sc l tid :
  Forall (fun cs => 95 <= cs.2) l -> steady sc -> steady (recorded t sc true l tid).
Proof.
  intros Hl (Ha & He & Hs). unfold recorded.
  assert (Hl' : Forall (fun cs : ScoreCategory * Q => 50 <= cs.2) l).
  { eapply Forall_impl; [exact Hl |]. intros cs Hcs. simpl in *. lra. }
  destruct (add_scores_steady 50 t l tid (record_success sc) Hl')
    as (He' & Hsucc & Htot); [exact He |].
  set (sc1 := foldl _ _ l) in *.
  assert (Hbal : successful_tasks sc1 = total_tasks sc1)
    by (rewrite Hsucc, Htot; simpl; lia).
  assert (Ha1 : autonomy_level sc1 = 1)
    by (unfold sc1; rewrite add_scores_autonomy; exact Ha).
  split; [now apply adjust_autonomy_at_cap |].
  unfold adjust_autonomy.
  destruct (_ && _); [| destruct (_ || _)]; simpl; auto.
Qed.

Lemma record_all_steady name (calls : list Call) (es : gmap string AgentScorecard) :
  Forall (high_scoring name) calls ->
  steady (default (new_scorecard name) (es !! name)) ->
  steady (default (new_scorecard name) (record_all calls es !! name)).
Proof.
  intros Hcalls. revert es.
  induction Hcalls as [| c calls (Hn & Hok & Hl) _ IH]; intros es Hes; [exact Hes |].
  simpl. apply IH. rewrite record_task_result_unfold, Hn, Hok, lookup_insert_eq.
  simpl. now apply recorded_steady.
Qed.

Lemma record_all_present name c (calls : list Call) (es : gmap string AgentScorecard) :
  Forall (high_scoring name) (c :: calls) ->
  is_Some (record_all (c :: calls) es !! name).
Proof.
  intros Hall. inversion Hall as [| ? ? (Hn & _) Hrest]; subst. simpl.
  assert (Hp : is_Some (record_task_result (call_now c) es (call_agent c)
                          (call_success c) (call_scores c) (call_task_id c)
                          !! call_agent c))
    by (rewrite record_task_result_unfold, lookup_insert_eq; eauto).
  revert Hp. generalize (record_task_result (call_now c) es (call_agent c)
                           (call_success c) (call_scores c) (call_task_id c)).
  clear Hall. induction Hrest as [| c' calls' (Hn' & _) _ IH]; intros es' Hp;
    [exact Hp |].
  simpl. apply IH. rewrite record_task_result_unfold.
  destruct (decide (call_agent c' = call_agent c)) as [-> | Hne].
  - rewrite lookup_insert_eq; eauto.
  - now rewrite lookup_insert_ne.
Qed.

(** C4, as amended: starting from a freshly created scorecard, after five
    consecutive [record_task_result] calls each with [success = True] and
    category scores of at least 95, the autonomy level equals its initial
    value 1.0: the initial value is the cap, so it cannot strictly increase. *)
Theorem five_good_results_keep_initial_autonomy (name : string)
    (calls : list Call) (es : gmap string AgentScorecard) :
  es !! name = None -> length calls = 5%nat ->
  Forall (high_scoring name) calls ->
  exists sc, record_all calls es !! name = Some sc
             /\ autonomy_level sc = autonomy_level (new_scorecard name)
             /\ autonomy_level sc = 1.
Proof.
  intros Hfresh Hlen Hcalls.
  destruct calls as [| c calls]; [discriminate |].
  destruct (record_all_present name c calls es Hcalls) as [sc Hsc].
  pose proof (record_all_steady name (c :: calls) es Hcalls) as Hst.
  rewrite Hfresh, Hsc in Hst. simpl in Hst.
  destruct (Hst (new_scorecard_steady name)) as (Ha & _).
  exists sc. simpl. auto.
Qed.

Lemma five_good_results_keep_initial_autonomy_witness :
  exists sc, record_all Samples.five_good_calls ∅ !! "GoodAgent" = Some sc
             /\ autonomy_level sc = autonomy_level (new_scorecard "GoodAgent")
             /\ autonomy_level sc = 1.
Proof.
  apply (five_good_results_keep_initial_autonomy "GoodAgent"
           Samples.five_good_calls ∅).
  - reflexivity.
  - reflexivity.
  - unfold Samples.five_good_calls. simpl.
    repeat constructor; simpl; unfold Qle; simpl; lia.
Defined.

(** C4 as stated fails: after five successful results scoring 100 on
    correctness and compliance, a fresh scorecard's autonomy level is not
    strictly greater than its initial value. *)
Lemma five_good_results_no_strict_increase :
  exists sc, record_all Samples.five_good_calls ∅ !! "GoodAgent" = Some sc
             /\ ~ (autonomy_level (new_scorecard "GoodAgent") < autonomy_level sc).
Proof.
  eexists. split; [vm_compute; reflexivity |].
  vm_compute. discriminate.
Qed.

Lemma autonomy_stays_in_bounds_witness :
  exists sc, record_all (List.map Samples.bad_call [ 1; 2; 3; 4; 5; 6 ]%Z)
               {[ "GoodAgent" := new_scorecard "GoodAgent" ]} !! "GoodAgent" = Some sc
             /\ autonomy_in_bounds sc.
Proof.
  apply (autonomy_stays_in_bounds _ _ "GoodAgent" (new_scorecard "GoodAgent")).
  - reflexivity.
  - split; simpl; unfold Qle; simpl; lia.
Defined.

End GoodResults.


(** ** Escalation and resolution *)

Section Escalation.
Import Contracts Agents Orchestrator.

(** C7, as amended: for every escalation (any topic, participant list and
    evidence) the orchestrator's [escalate_conflict] creates an unresolved
    [ConflictRecord] owned by the top authority and appends it to the
    orchestrator's escalation list; it leaves the memory store (and the
    evaluation system, the agents and the active workflows) untouched.
    Persisting a conflict under project scope is what the worker-level
    [BaseAgent.escalate] does. *)
Theorem escalate_conflict_appends_only (uuid : string) (o : Orchestrator)
    (topic : string) (agents_involved : list string) (evidence : list Py.value) :
  let '(c, o') := escalate_conflict uuid o topic agents_involved evidence in
  c = {| conflict_id := uuid; topic := topic; agents_involved := agents_involved;
         evidence := evidence; decision_owner := "ArchitectAgent";
         resolution := None; Contracts.created_at := now (world o);
         resolved_at := None |}
  /\ _escalations o' = (_escalations o ++ [c])%list
  /\ memory_store (world o') = memory_store (world o)
  /\ world o' = world o
  /\ _agents o' = _agents o
  /\ _active_workflows o' = _active_workflows o.
Proof.
  unfold escalate_conflict. simpl.
  destruct (_ <? 10)%Z; repeat split.
Qed.

(** C7 as stated fails: after an escalation on an orchestrator whose memory
    store is empty, the store is still empty, so no record was persisted
    under project scope (or any other). *)
Lemma escalate_conflict_persists_nothing :
  let '(c, o') :=
    escalate_conflict "c1" (Samples.orchestrator Samples.succeeds)
      "Design disagreement" [ "ProductAgent"; "ImplementationAgent" ]
      [ Py.VStr "Test" ] in
  _escalations o' = [ c ]
  /\ memory_store (world o') = ∅
  /\ ~ (exists k e, memory_store (world o') !! k = Some e
                    /\ Memory.scope e = Memory.PROJECT).
Proof.
  simpl. repeat split.
  intros (k & e & Hk & _). now rewrite lookup_empty in Hk.
Qed.

Lemma resolve_in_unknown (cs : list ConflictRecord) cid res (t : Z) :
  Forall (fun c => conflict_id c <> cid) cs ->
  resolve_in cs cid res t = (false, cs).
Proof.
  induction 1 as [| c cs Hc _ IH]; simpl; [reflexivity |].
  apply String.eqb_neq in Hc. now rewrite Hc, IH.
Qed.

Lemma resolve_in_first (pre post : list ConflictRecord) c cid res (t : Z) :
  Forall (fun c => conflict_id c <> cid) pre -> conflict_id c = cid ->
  resolve_in (pre ++ c :: post) cid res t
  = (true, (pre ++ resolve_record c res t :: post)%list).
Proof.
  intros Hpre Hc. induction Hpre as [| p pre Hp _ IH]; simpl.
  - apply String.eqb_eq in Hc. now rewrite Hc.
  - apply String.eqb_neq in Hp. now rewrite Hp, IH.
Qed.

(** C8, as amended: [resolve_conflict(conflict_id, resolution)] sets
    [resolution] and [resolved_at] on the first record of the escalation list
    whose id matches, whether or not that record is already resolved, changes
    no other record and returns True; called with an unknown conflict id it
    changes no record and returns False (the not-found outcome). *)
Theorem resolve_conflict_first_match (o : Orchestrator) (cid : string)
    (res : Py.value) :
  (Forall (fun c => conflict_id c <> cid) (_escalations o) ->
   resolve_conflict o cid res = (false, o))
  /\ (forall pre c post,
        _escalations o = (pre ++ c :: post)%list ->
        Forall (fun c => conflict_id c <> cid) pre -> conflict_id c = cid ->
        resolve_conflict o cid res
        = (true,
           set_escalations o
             (pre ++ resolve_record c res (now (world o)) :: post)%list)).
Proof.
  split.
  - intros Hnone. unfold resolve_conflict.
    rewrite resolve_in_unknown by assumption. now destruct o.
  - intros pre c post Hsplit Hpre Hc. unfold resolve_conflict.
    rewrite Hsplit, resolve_in_first by assumption. reflexivity.
Qed.

Lemma resolve_conflict_first_match_witness :
  resolve_conflict
    (set_escalations (Samples.orchestrator Samples.succeeds)
       [ Samples.resolved_conflict ]) "c2" (Py.VStr "second")
  = (false,
     set_escalations (Samples.orchestrator Samples.succeeds)
       [ Samples.resolved_conflict ])
  /\ resolve_conflict
       (set_escalations (Samples.orchestrator Samples.succeeds)
          [ Samples.resolved_conflict ]) "c1" (Py.VStr "second")
     = (true,
        set_escalations (Samples.orchestrator Samples.succeeds)
          [ resolve_record Samples.resolved_conflict (Py.VStr "second") 0 ]).
Proof.
  destruct (resolve_conflict_first_match
              (set_escalations (Samples.orchestrator Samples.succeeds)
                 [ Samples.resolved_conflict ]) "c2" (Py.VStr "second"))
    as [Hunknown _].
  destruct (resolve_conflict_first_match
              (set_escalations (Samples.orchestrator Samples.succeeds)
                 [ Samples.resolved_conflict ]) "c1" (Py.VStr "second"))
    as [_ Hknown].
  split.
  - apply Hunknown. simpl. repeat constructor. discriminate.
  - apply (Hknown [] Samples.resolved_conflict []);
      [reflexivity | constructor | reflexivity].
Defined.

(** C8 as stated fails: resolving again a conflict that is already resolved
    overwrites its resolution and its resolution time and returns True. *)
Lemma resolve_conflict_overwrites_resolved :
  resolution Samples.resolved_conflict = Some (Py.VStr "first")
  /\ resolved_at Samples.resolved_conflict = Some 5%Z
  /\ let '(found, o') :=
       resolve_conflict
         (set_escalations (Samples.orchestrator Samples.succeeds)
            [ Samples.resolved_conflict ]) "c1" (Py.VStr "second") in
     found = true
     /\ _escalations o' <> [ Samples.resolved_conflict ]
     /\ (resolution <$> _escalations o') = [ Some (Py.VStr "second") ]
     /\ (resolved_at <$> _escalations o') = [ Some 0%Z ].
Proof.
  repeat split. simpl. discriminate.
Qed.

End Escalation.


(** ** The execution wrapper *)

Section WrapperFacts.
Import Contracts Agents.
Context `{Memory.Fingerprint}.

Lemma adjust_autonomy_counters (t : Z) sc :
  Evaluation.total_tasks (Evaluation.adjust_autonomy t sc) = Evaluation.total_tasks sc
  /\ Evaluation.failed_tasks (Evaluation.adjust_autonomy t sc)
     = Evaluation.failed_tasks sc
  /\ Evaluation.successful_tasks (Evaluation.adjust_autonomy t sc)
     = Evaluation.successful_tasks sc.
Proof.
  unfold Evaluation.adjust_autonomy.
  destruct (_ && _); [| destruct (_ || _)]; simpl; auto.
Qed.

Lemma add_scores_counters (t : Z) (l : list (Evaluation.ScoreCategory * Q)) tid sc :
  let sc' := foldl (fun sc '(c, s) => Evaluation.add_score t sc c s tid "") sc l in
  Evaluation.total_tasks sc' = Evaluation.total_tasks sc
  /\ Evaluation.failed_tasks sc' = Evaluation.failed_tasks sc
  /\ Evaluation.successful_tasks sc' = Evaluation.successful_tasks sc.
Proof.
  revert sc. induction l as [| [c s] l IH]; intros sc; simpl; [auto |].
  apply (IH (Evaluation.add_score t sc c s tid "")).
Qed.

(** One failed result moves [total_tasks] and [failed_tasks] up by one. *)
Lemma recorded_failure_counters (t : Z) sc l tid :
  let sc' := Evaluation.recorded t sc false l tid in
  Evaluation.total_tasks sc' = (Evaluation.total_tasks sc + 1)%nat
  /\ Evaluation.failed_tasks sc' = (Evaluation.failed_tasks sc + 1)%nat
  /\ Evaluation.successful_tasks sc' = Evaluation.successful_tasks sc.
Proof.
  unfold Evaluation.recorded.
  destruct (adjust_autonomy_counters t
              (foldl (fun sc '(c, s) => Evaluation.add_score t sc c s tid "")
                 (Evaluation.record_failure sc) l)) as (-> & -> & ->).
  destruct (add_scores_counters t l tid (Evaluation.record_failure sc))
    as (-> & -> & ->).
  simpl. auto.
Qed.

Lemma record_failure_evaluation (a : BaseAgent) reason (w : World) :
  evaluation (_record_failure a reason w)
  = <[name (config a) :=
        Evaluation.recorded (now w) (scorecard_of w (name (config a))) false
          [ (Evaluation.CORRECTNESS, 0%Q) ] (_current_task_id a)]> (evaluation w).
Proof.
  unfold _record_failure. simpl. apply record_task_result_unfold.
Qed.

Lemma record_failure_memory (a : BaseAgent) reason (w : World) :
  memory_store (_record_failure a reason w)
  = <[Memory.id (failure_entry a reason (now w)) :=
        failure_entry a reason (now w)]> (memory_store w).
Proof. reflexivity. Qed.

Lemma record_failure_now (a : BaseAgent) reason (w : World) :
  now (_record_failure a reason w) = now w.
Proof. reflexivity. Qed.

(** One [_record_failure] call is one failed task on the agent's scorecard. *)
Lemma record_failure_once (a : BaseAgent) reason (w : World) :
  failures_recorded 1 (name (config a)) w (_record_failure a reason w).
Proof.
  unfold failures_recorded, scorecard_of at 1 3 5.
  rewrite record_failure_evaluation, lookup_insert_eq. simpl.
  split; [eauto |]. apply recorded_failure_counters.
Qed.

Lemma failures_recorded_trans (n m : nat) who (w1 w2 w3 : World) :
  failures_recorded n who w1 w2 -> failures_recorded m who w2 w3 ->
  failures_recorded (n + m) who w1 w3.
Proof.
  intros (_ & Ht1 & Hf1 & Hs1) (Hp & Ht2 & Hf2 & Hs2).
  unfold failures_recorded. rewrite Ht2, Hf2, Hs2, Ht1, Hf1, Hs1.
  repeat split; [exact Hp | lia | lia].
Qed.

(** C9: when the input envelope's [validate()] result holds a violation of
    error severity, [execute] raises [ContractViolationError] before it
    dispatches to the worker-specific logic (the outcome is the same whatever
    that logic is) and leaves both stores unchanged: no memory entry is added
    and no task result (counter, score entry, autonomy adjustment) is
    recorded in the evaluation system. *)
Theorem input_violation_aborts_before_dispatch (a : BaseAgent)
    (input_data : Envelope) (w : World) :
  any_error (validate input_data) = true ->
  (execute a input_data w).1.1
  = Raised (Py.ContractViolationError
              ("Input contract violation: " +:+ messages_repr (validate input_data)))
  /\ memory_store (execute a input_data w).2 = memory_store w
  /\ evaluation (execute a input_data w).2 = evaluation w
  /\ (execute a input_data w).2 = w
  /\ (forall impl,
        (execute (with_impl a impl) input_data w).1.1 = (execute a input_data w).1.1
        /\ (execute (with_impl a impl) input_data w).2 = w).
Proof.
  intros Herr. unfold execute, validate_input. rewrite Herr. simpl.
  repeat split.
Qed.

(** C10: when the worker-specific logic returns an output whose [validate()]
    result holds a violation of error severity, the wrapper records the
    failure twice, once before raising [ContractViolationError] and once more
    in the generic handler that re-raises it: [total_tasks] and
    [failed_tasks] each grow by exactly 2 and two failure memories are stored
    for that single execution.  The two records differ in their reason, so
    their contents differ; the store files them under the fingerprints of
    their contents, and when the fingerprint tells the two apart both are in
    the store afterwards, two entries more than before when neither
    fingerprint was in use.  When the worker-specific logic itself raises,
    the counters grow by exactly 1 and one failure memory is stored. *)
Theorem output_violation_recorded_twice (a : BaseAgent) (input_data : Envelope)
    (w : World) :
  any_error (validate input_data) = false ->
  let a' := begin_task a (request_id input_data) (now w) in
  let who := name (config a) in
  (forall output w1,
      _execute_impl a input_data (remember_task a' input_data w)
      = (Returned output, w1) ->
      any_error (validate output) = true ->
      let msg := "Output contract violation: " +:+ messages_repr (validate output) in
      let e1 := failure_entry a' "output_validation_failed" (now w1) in
      let e2 := failure_entry a' msg (now w1) in
      (execute a input_data w).1.1 = Raised (Py.ContractViolationError msg)
      /\ failures_recorded 2 who w1 (execute a input_data w).2
      /\ memory_store (execute a input_data w).2
         = <[Memory.id e2 := e2]> (<[Memory.id e1 := e1]> (memory_store w1))
      /\ Memory.scope e1 = Memory.FAILURE /\ Memory.scope e2 = Memory.FAILURE
      /\ Memory.content e1 <> Memory.content e2
      /\ memory_store (execute a input_data w).2 !! Memory.id e2 = Some e2
      /\ (Memory.id e1 <> Memory.id e2 ->
          memory_store (execute a input_data w).2 !! Memory.id e1 = Some e1
          /\ (memory_store w1 !! Memory.id e1 = None ->
              memory_store w1 !! Memory.id e2 = None ->
              size (memory_store (execute a input_data w).2)
              = S (S (size (memory_store w1))))))
  /\ (forall e w1,
        _execute_impl a input_data (remember_task a' input_data w)
        = (Raised e, w1) ->
        let e1 := failure_entry a' (Py.str e) (now w1) in
        (execute a input_data w).1.1 = Raised e
        /\ failures_recorded 1 who w1 (execute a input_data w).2
        /\ memory_store (execute a input_data w).2
           = <[Memory.id e1 := e1]> (memory_store w1)
        /\ memory_store (execute a input_data w).2 !! Memory.id e1 = Some e1
        /\ (memory_store w1 !! Memory.id e1 = None ->
            size (memory_store (execute a input_data w).2)
            = S (size (memory_store w1)))).
Proof.
  intros Hin a' who. split.
  - intros output w1 Himpl Hout msg e1 e2.
    assert (Hstore : memory_store (execute a input_data w).2
                     = <[Memory.id e2 := e2]>
                         (<[Memory.id e1 := e1]> (memory_store w1))).
    { unfold execute, validate_input. rewrite Hin. fold a'.
      unfold execute_try, validate_output.
      change (_execute_impl a') with (_execute_impl a). rewrite Himpl, Hout.
      reflexivity. }
    split.
    { unfold execute, validate_input. rewrite Hin. fold a'.
      unfold execute_try, validate_output.
      change (_execute_impl a') with (_execute_impl a). rewrite Himpl, Hout.
      reflexivity. }
    split.
    { unfold execute, validate_input. rewrite Hin. fold a'.
      unfold execute_try, validate_output.
      change (_execute_impl a') with (_execute_impl a). rewrite Himpl, Hout.
      simpl.
      apply (failures_recorded_trans 1 1 _ w1
               (_record_failure a' "output_validation_failed" w1)).
      + apply (record_failure_once a').
      + apply (record_failure_once a'). }
    split; [exact Hstore |]. split; [reflexivity |]. split; [reflexivity |].
    split.
    { unfold e1, e2, msg, failure_entry, failure_info. simpl.
      intros Heq. injection Heq as Heq. discriminate Heq. }
    rewrite Hstore. split; [apply lookup_insert_eq |].
    intros Hids. split.
    + rewrite lookup_insert_ne by congruence. apply lookup_insert_eq.
    + intros Hfresh1 Hfresh2.
      rewrite map_size_insert_None
        by (rewrite lookup_insert_ne by assumption; exact Hfresh2).
      now rewrite map_size_insert_None.
  - intros e w1 Himpl e1.
    assert (Hstore : memory_store (execute a input_data w).2
                     = <[Memory.id e1 := e1]> (memory_store w1)).
    { unfold execute, validate_input. rewrite Hin. fold a'.
      unfold execute_try.
      change (_execute_impl a') with (_execute_impl a). rewrite Himpl.
      reflexivity. }
    split.
    { unfold execute, validate_input. rewrite Hin. fold a'.
      unfold execute_try.
      change (_execute_impl a') with (_execute_impl a). rewrite Himpl.
      reflexivity. }
    split.
    { unfold execute, validate_input. rewrite Hin. fold a'.
      unfold execute_try.
      change (_execute_impl a') with (_execute_impl a). rewrite Himpl.
      simpl. apply (record_failure_once a'). }
    split; [exact Hstore |]. rewrite Hstore.
    split; [apply lookup_insert_eq |].
    intros Hfresh. now rewrite map_size_insert_None.
Qed.

End WrapperFacts.

Section WrapperExamples.
Import Contracts Agents.

Lemma input_violation_aborts_before_dispatch_witness :
  (@execute Samples.fingerprint (Samples.agent "BuildTestAgent" 8 Samples.succeeds)
     (Samples.input "r1" false) Samples.empty_world).1.1
  = Raised (Py.ContractViolationError
              "Input contract violation: ['Missing field']")
  /\ (@execute Samples.fingerprint
        (Samples.agent "BuildTestAgent" 8 Samples.succeeds)
        (Samples.input "r1" false) Samples.empty_world).2 = Samples.empty_world.
Proof.
  destruct (@input_violation_aborts_before_dispatch Samples.fingerprint
              (Samples.agent "BuildTestAgent" 8 Samples.succeeds)
              (Samples.input "r1" false) Samples.empty_world)
    as (Hout & _ & _ & Hw & _).
  - reflexivity.
  - split; [exact Hout | exact Hw].
Defined.

Lemma output_violation_recorded_twice_witness :
  (failures_recorded 2 "BuildTestAgent" Samples.empty_world
     (@execute Samples.fingerprint
        (Samples.agent "BuildTestAgent" 8 Samples.violates)
        (Samples.input "r1" true) Samples.empty_world).2
   /\ size (memory_store
              (@execute Samples.fingerprint
                 (Samples.agent "BuildTestAgent" 8 Samples.violates)
                 (Samples.input "r1" true) Samples.empty_world).2)
      = 3%nat)
  /\ failures_recorded 1 "BuildTestAgent" Samples.empty_world
       (@execute Samples.fingerprint
          (Samples.agent "BuildTestAgent" 8 Samples.crashes)
          (Samples.input "r1" true) Samples.empty_world).2.
Proof.
  split.
  - destruct (@output_violation_recorded_twice Samples.fingerprint
                (Samples.agent "BuildTestAgent" 8 Samples.violates)
                (Samples.input "r1" true) Samples.empty_world eq_refl)
      as [Htwice _].
    destruct (Htwice (Samples.output "r1" false) _ eq_refl eq_refl)
      as (_ & Hrec & _ & _ & _ & _ & _ & Hboth).
    split; [exact Hrec |].
    destruct Hboth as [_ Hsize]; [vm_compute; discriminate |].
    rewrite Hsize; [reflexivity | reflexivity | reflexivity].
  - destruct (@output_violation_recorded_twice Samples.fingerprint
                (Samples.agent "BuildTestAgent" 8 Samples.crashes)
                (Samples.input "r1" true) Samples.empty_world eq_refl)
      as [_ Honce].
    destruct (Honce (Py.WorkerError "boom") _ eq_refl) as (_ & Hrec & _).
    exact Hrec.
Defined.

End WrapperExamples.


(** ** Failure routing *)

Section FailureRouting.
Import Contracts Agents Orchestrator.


End FailureRouting.


(** ** The stage loop *)

Section Workflow.
Import Contracts Agents Orchestrator.
Context `{Memory.Fingerprint} `{Envelopes}.
Local Open Scope list_scope.

Lemma failure_routing_irreflexive s : FAILURE_ROUTING s <> Some s.
Proof. destruct s; discriminate. Qed.

Lemma routing_source_never_target s x :
  FAILURE_ROUTING x <> None -> FAILURE_ROUTING s <> Some x.
Proof. destruct s, x; simpl; congruence. Qed.

Ltac plan_side :=
  first [ reflexivity
        | assumption
        | solve [unfold same_plan in *; simpl; intuition congruence]
        | solve [simpl; congruence]
        | solve [eauto] ].

(** The exception branch either routes the failure or halts the run. *)
Lemma on_exception_iteration wid def s ag (st0 st : RunState) t0 t e fl st' :
  tasks st0 !! s = Some t0 ->
  deps_met wid def (tasks st0) t0 = true ->
  same_plan t0 t ->
  tasks st = <[s := t]> (tasks st0) ->
  failed_stages st = failed_stages st0 ->
  completed_stages st = completed_stages st0 ->
  on_exception s t e st = (fl, st') ->
  iteration wid def s ag st0 t0 fl st'.
Proof.
  intros Ht0 Hdeps Hplan Htasks Hfailed Hcompleted Hex.
  pose proof Hplan as (Hd & Hr & Hm).
  unfold on_exception, _handle_failure in Hex. simpl in Hex.
  rewrite Hr, Hm, Htasks, insert_insert_eq in Hex.
  destruct (max_retries t0 <=? retry_count t0)%nat eqn:Hretry.
  { apply Nat.leb_le in Hretry. simplify_eq.
    eapply (it_halted _ _ _ _ _ _ _ (fail_task t e (now (stores st))));
      simpl; plan_side. }
  apply Nat.leb_gt in Hretry.
  destruct (FAILURE_ROUTING s) as [target |] eqn:Hroute.
  2: { simplify_eq.
       eapply (it_halted _ _ _ _ _ _ _ (fail_task t e (now (stores st))));
         simpl; plan_side. }
  assert (Hts : target <> s)
    by (intros ->; now apply (failure_routing_irreflexive s)).
  rewrite lookup_insert_ne in Hex by congruence.
  destruct (tasks st0 !! target) as [tt |] eqn:Htarget.
  - simplify_eq.
    eapply (it_routed _ _ _ _ _ _ _ (fail_task t e (now (stores st))) target tt);
      simpl; plan_side.
  - simplify_eq.
    eapply (it_halted _ _ _ _ _ _ _ (fail_task t e (now (stores st))));
      simpl; plan_side.
Qed.

(** The context update raises on the outputs of the first two stages only,
    and these have no routing target. *)
Lemma update_context_raises s out ctx e ctx' :
  _update_context s out ctx = (Some e, ctx') ->
  (s = REQUIREMENTS \/ s = ARCHITECTURE) /\ FAILURE_ROUTING s = None.
Proof. destruct s; simpl; intros Hu; auto; discriminate. Qed.

(** The exception branch of a stage without routing target halts the run. *)
Lemma on_exception_unrouted s (task : WorkflowTask) e (st : RunState) :
  FAILURE_ROUTING s = None ->
  on_exception s task e st
  = (Break,
     {| tasks := <[s := fail_task task e (now (stores st))]> (tasks st);
        completed_stages := completed_stages st;
        failed_stages := failed_stages st ++ [s];
        stage_outputs := stage_outputs st; context := context st;
        agents := agents st; stores := stores st |}).
Proof.
  intros Hroute. unfold on_exception, _handle_failure. rewrite Hroute.
  now destruct (_ <=? _)%nat.
Qed.

(** Every iteration of the loop goes one of the five ways. *)
Lemma run_stage_iteration wid def s ag st t fl st' :
  tasks st !! s = Some t ->
  run_stage wid def s ag st = (fl, st') ->
  iteration wid def s ag st t fl st'.
Proof.
  intros Ht Hrun. unfold run_stage in Hrun. rewrite Ht in Hrun.
  destruct (deps_met wid def (tasks st) t) eqn:Hdeps; simpl in Hrun.
  2: { simplify_eq. apply it_blocked; auto. }
  set (inp := _prepare_input s (context st) (stage_outputs st)) in *.
  set (t1 := start_task t inp (now (stores st))) in *.
  assert (Hplan : same_plan t t1) by (repeat split).
  destruct (agents st !! ag) as [a |] eqn:Hag.
  2: { eapply (on_exception_iteration wid def s ag st _ t t1);
         [exact Ht | exact Hdeps | exact Hplan | | | | exact Hrun];
         reflexivity. }
  destruct (execute a inp (stores st)) as [[r a'] w'] eqn:Hex.
  destruct r as [out | e].
  - destruct (_update_context s out (context st)) as [[e |] context'] eqn:Hupd.
    + destruct (update_context_raises _ _ _ _ _ Hupd) as [_ Hroute].
      rewrite (on_exception_unrouted _ _ _ _ Hroute) in Hrun. simplify_eq.
      eapply (it_update_failed _ _ _ _ _ _ _
                (fail_task (complete_task t1 out (now w')) e (now w'))
                a out e context');
        simpl; try plan_side.
      * unfold inp in Hex. now rewrite Hex.
      * now rewrite !insert_insert_eq.
    + simplify_eq.
      eapply (it_completed _ _ _ _ _ _ _
                (complete_task t1 out (now w')) a out);
        simpl; try plan_side.
      * unfold inp in Hex. now rewrite Hex.
      * now rewrite insert_insert_eq.
  - eapply (on_exception_iteration wid def s ag st _ t t1);
      [exact Ht | exact Hdeps | exact Hplan | | | | exact Hrun];
      reflexivity.
Qed.

Lemma routing_target_unrouted s x :
  FAILURE_ROUTING s = Some x -> FAILURE_ROUTING x = None.
Proof. destruct s; simpl; intros [= <-]; reflexivity. Qed.

Lemma iteration_planned wid def s ag st t fl st' :
  tasks st !! s = Some t ->
  iteration wid def s ag st t fl st' ->
  planned wid def (tasks st) -> planned wid def (tasks st').
Proof.
  intros Ht Hit Hpl x agx depsx Hx.
  destruct (Hpl x agx depsx Hx) as (tx & Htx & Hd & Hm & Hr).
  assert (Hupd : forall t', same_plan t t' ->
            exists t1, <[s := t']> (tasks st) !! x = Some t1
                       /\ dependencies t1 = List.map (task_id wid) depsx
                       /\ max_retries t1 = 3%nat
                       /\ (FAILURE_ROUTING x <> None -> retry_count t1 = 0%nat)).
  { intros t' (Hd' & Hr' & Hm'). destruct (decide (s = x)) as [-> | Hne].
    - rewrite lookup_insert_eq. exists t'. simplify_eq.
      repeat split; try congruence. intros Hroute. rewrite Hr'. auto.
    - rewrite lookup_insert_ne by assumption. eauto 10. }
  inversion Hit as [st1 Hdeps Htasks | st1 t' a out Hdeps Ha Hex Hst Hplan Htasks
                   | st1 t' target tt Hdeps Hst Hplan Hretry Hroute Htt Htasks
                   | st1 t' Hdeps Hst Hplan Hwhy Htasks
                   | st1 t' a out e context' Hdeps Ha Hex Hraised Hst Hplan Htasks]; subst; rewrite Htasks.
  - apply Hupd. repeat split.
  - now apply Hupd.
  - destruct (decide (target = x)) as [-> | Hne].
    + rewrite lookup_insert_eq. eexists. split; [reflexivity |].
      assert (x <> s) by (intros ->; now apply (failure_routing_irreflexive s)).
      simplify_eq. simpl. repeat split; try congruence.
      intros Hx'. now rewrite (routing_target_unrouted _ _ Hroute) in Hx'.
    + rewrite lookup_insert_ne by assumption. now apply Hupd.
  - now apply Hupd.
  - now apply Hupd.
Qed.

Lemma iteration_only_planned wid def s ag st t fl st' :
  tasks st !! s = Some t ->
  iteration wid def s ag st t fl st' ->
  only_planned def (tasks st) -> only_planned def (tasks st').
Proof.
  intros Ht Hit Honly x tx.
  assert (Hs : s ∈ stage_of <$> def) by (eapply Honly; eauto).
  inversion Hit as [st1 Hdeps Htasks | st1 t' a out Hdeps Ha Hex Hst Hplan Htasks
                   | st1 t' target tt Hdeps Hst Hplan Hretry Hroute Htt Htasks
                   | st1 t' Hdeps Hst Hplan Hwhy Htasks
                   | st1 t' a out e context' Hdeps Ha Hex Hraised Hst Hplan Htasks]; subst; rewrite Htasks;
    try (destruct (decide (target = x)) as [<- | Hne];
         [intros _; eapply Honly; eauto | rewrite lookup_insert_ne by assumption]);
    (destruct (decide (s = x)) as [<- | Hne'];
     [intros _; exact Hs | rewrite lookup_insert_ne by assumption; apply Honly]).
Qed.



Lemma run_stages_app wid def (l1 l2 : list (WorkflowStage * string * list WorkflowStage)) st :
  run_stages wid def (l1 ++ l2) st
  = match run_stages wid def l1 st with
    | (Continue, st1) => run_stages wid def l2 st1
    | (Break, st1) => (Break, st1)
    end.
Proof.
  revert st. induction l1 as [| [[s ag] deps] l1 IH]; intros st; simpl.
  - reflexivity.
  - destruct (run_stage wid def s ag st) as [[|] st1]; [apply IH | reflexivity].
Qed.

(** A property that every iteration over the lines of [l] maintains holds
    when the loop over [l] is left, however it is left. *)
Lemma run_stages_maintains wid def (P : RunState -> Prop)
    (l : list (WorkflowStage * string * list WorkflowStage)) :
  l ⊆ def ->
  (forall s ag deps st t fl st',
      (s, ag, deps) ∈ l -> tasks st !! s = Some t ->
      iteration wid def s ag st t fl st' -> P st -> P st') ->
  forall st fl st',
    planned wid def (tasks st) -> P st ->
    run_stages wid def l st = (fl, st') ->
    planned wid def (tasks st') /\ P st'.
Proof.
  intros Hsub Hstep. induction l as [| [[s ag] deps] l IH]; intros st fl st' Hpl HP Hrun.
  - simpl in Hrun. simplify_eq. auto.
  - simpl in Hrun.
    assert (Hin : (s, ag, deps) ∈ def) by (apply Hsub; left).
    destruct (Hpl s ag deps Hin) as (t & Ht & _).
    destruct (run_stage wid def s ag st) as [fl1 st1] eqn:Hrs.
    pose proof (run_stage_iteration wid def s ag st t fl1 st1 Ht Hrs) as Hit.
    assert (Hpl1 : planned wid def (tasks st1))
      by (eapply iteration_planned; eauto).
    assert (HP1 : P st1) by (apply (Hstep s ag deps st t fl1 st1); auto; left).
    destruct fl1.
    + apply (IH ltac:(intros y Hy; apply Hsub; now right)) with (st := st1) (fl := fl);
        auto.
      intros s2 ag2 deps2 st2 t2 fl2 st2' Hin2. apply (Hstep s2 ag2 deps2). now right.
    + simplify_eq. auto.
Qed.



Lemma make_tasks_other wid (t0 : Z) (l : list (WorkflowStage * string * list WorkflowStage))
    (acc : gmap WorkflowStage WorkflowTask) s :
  s ∉ stage_of <$> l ->
  foldl (fun tasks '(s, agent_name, deps) =>
           <[s := new_task wid t0 s agent_name deps]> tasks) acc l !! s
  = acc !! s.
Proof.
  revert acc. induction l as [| [[s' ag] deps] l IH]; intros acc Hs; simpl.
  - reflexivity.
  - rewrite fmap_cons in Hs. apply not_elem_of_cons in Hs as [Hne Hs].
    rewrite IH by assumption. unfold stage_of in Hne. simpl in Hne.
    now rewrite lookup_insert_ne.
Qed.

Lemma make_tasks_lookup wid (t0 : Z) (def : list (WorkflowStage * string * list WorkflowStage)) s ag deps :
  NoDup (stage_of <$> def) -> (s, ag, deps) ∈ def ->
  make_tasks wid t0 def !! s = Some (new_task wid t0 s ag deps).
Proof.
  unfold make_tasks. generalize (∅ : gmap WorkflowStage WorkflowTask).
  induction def as [| [[s' ag'] deps'] def IH]; intros acc Hnd Hin.
  - inversion Hin.
  - rewrite fmap_cons in Hnd. apply NoDup_cons in Hnd as [Hfresh Hnd]. simpl.
    apply elem_of_cons in Hin as [Heq | Hin].
    + simplify_eq. rewrite make_tasks_other by assumption.
      apply lookup_insert_eq.
    + now apply IH.
Qed.

Lemma make_tasks_planned wid (t0 : Z) def :
  NoDup (stage_of <$> def) -> planned wid def (make_tasks wid t0 def).
Proof.
  intros Hnd s ag deps Hin. exists (new_task wid t0 s ag deps).
  split; [now apply make_tasks_lookup |]. repeat split.
Qed.

Lemma make_tasks_only_planned wid (t0 : Z) def :
  only_planned def (make_tasks wid t0 def).
Proof.
  intros x t Hx. destruct (decide (x ∈ stage_of <$> def)) as [Hin | Hout];
    [exact Hin |].
  unfold make_tasks in Hx. rewrite make_tasks_other in Hx by assumption.
  now rewrite lookup_empty in Hx.
Qed.




















End Workflow.

Section WorkflowExamples.
Import Contracts Agents Orchestrator.





End WorkflowExamples.


(** ** Memory strength, expiry and clean-up *)

Section MemoryFacts.
Import Memory.
Local Open Scope R_scope.

Lemma half_power_pos (y : R) : 0 < Rpower (1 / 2) y.
Proof. unfold Rpower. apply exp_pos. Qed.

Lemma half_power_le_one (y : R) : 0 <= y -> Rpower (1 / 2) y <= 1.
Proof.
  intros Hy. pose proof (half_power_antitone 0 y Hy) as Hle.
  now rewrite half_power_zero in Hle.
Qed.

(** The decay factor of a policy with a half-life, at clock value [t]. *)
Lemma strength_unfold (e : MemoryEntry) (t : Z) (h : Z) :
  DECAY_RATES (decay_policy e) = Some h ->
  get_current_strength t e
  = Rmin 1 (Q2R (confidence e)
            * Rpower (1 / 2) (total_seconds (t - last_accessed e) / IZR h)
            * Rmin 2 (1 + INR (access_count e) * (1 / 10))).
Proof.
  intros Hh. unfold get_current_strength.
  destruct (decay_policy e); simpl in Hh; try discriminate;
    injection Hh as <-; reflexivity.
Qed.

Lemma decay_rate_pos (p : DecayPolicy) (h : Z) :
  DECAY_RATES p = Some h -> (0 < h)%Z.
Proof. destruct p; intros [= <-]; lia. Qed.

Lemma decay_rate_some (p : DecayPolicy) :
  p <> PERMANENT -> exists h, DECAY_RATES p = Some h.
Proof. destruct p; intros Hp; try congruence; eauto. Qed.

(** X1: read any time [d] (in microseconds) after the last access, the
    strength of an entry that decays never exceeds 1, and with a confidence
    between 0 and 1 every entry's strength lies between 0 and 1, for any
    access count. *)
Theorem strength_within_unit (e : MemoryEntry) (d : N) :
  let t := (last_accessed e + Z.of_N d)%Z in
  (decay_policy e <> PERMANENT -> get_current_strength t e <= 1)
  /\ ((0 <= confidence e)%Q -> (confidence e <= 1)%Q ->
      0 <= get_current_strength t e <= 1).
Proof.
  intros t. split.
  - intros Hp. destruct (decay_rate_some _ Hp) as (h & Hh).
    rewrite (strength_unfold e t h Hh). apply Rmin_l.
  - intros H0 H1. apply Q2R_nonneg in H0. apply Q2R_le_one in H1.
    destruct (decide (decay_policy e = PERMANENT)) as [Hp | Hp].
    + unfold get_current_strength. rewrite Hp. lra.
    + destruct (decay_rate_some _ Hp) as (h & Hh).
      rewrite (strength_unfold e t h Hh). split; [| apply Rmin_l].
      apply Rmin_glb; [lra |].
      pose proof (half_power_pos (total_seconds (t - last_accessed e) / IZR h)).
      pose proof (access_boost_pos (access_count e)).
      apply Rmult_le_pos; [apply Rmult_le_pos |]; lra.
Qed.

Lemma elapsed_nonneg (t t0 h : Z) :
  (t0 <= t)%Z -> (0 < h)%Z -> 0 <= total_seconds (t - t0) / IZR h.
Proof.
  intros Ht Hh. unfold total_seconds.
  assert (0 <= IZR (t - t0)) by (apply IZR_le; lia).
  assert (0 < IZR h) by (apply IZR_lt; lia).
  apply Rmult_le_pos; [lra |]. left. now apply Rinv_0_lt_compat.
Qed.

(** X2: reading an entry never weakens it: at the moment of the access the
    strength of the accessed entry is at least the strength it had, the access
    count grows by one and the last access becomes the clock value. *)
Theorem access_never_weakens (e : MemoryEntry) (t : Z) :
  (0 <= confidence e)%Q -> (last_accessed e <= t)%Z ->
  get_current_strength t e <= get_current_strength t (access t e)
  /\ access_count (access t e) = S (access_count e)
  /\ last_accessed (access t e) = t.
Proof.
  intros Hc Ht. split; [| split; reflexivity]. apply Q2R_nonneg in Hc.
  destruct (decide (decay_policy e = PERMANENT)) as [Hp | Hp].
  - unfold get_current_strength. simpl. rewrite Hp. lra.
  - destruct (decay_rate_some _ Hp) as (h & Hh).
    rewrite (strength_unfold e t h Hh).
    rewrite (strength_unfold (access t e) t h) by exact Hh.
    apply Rle_min_compat_l. simpl.
    unfold total_seconds at 2. rewrite Z.sub_diag.
    replace (0 / 1000000 / IZR h) with 0 by (unfold Rdiv; ring).
    rewrite half_power_zero.
    pose proof (half_power_pos (total_seconds (t - last_accessed e) / IZR h)) as Hpos.
    pose proof (half_power_le_one _
                  (elapsed_nonneg t (last_accessed e) h Ht (decay_rate_pos _ _ Hh)))
      as Hle.
    pose proof (access_boost_pos (access_count e)) as Hb.
    assert (Hbb : Rmin 2 (1 + INR (access_count e) * (1 / 10))
                  <= Rmin 2 (1 + INR (S (access_count e)) * (1 / 10))).
    { apply Rle_min_compat_l. rewrite S_INR. lra. }
    apply Rmult_le_compat; [| lra | | exact Hbb].
    + apply Rmult_le_pos; lra.
    + apply Rmult_le_compat_l; lra.
Qed.

Lemma strength_half_life (e : MemoryEntry) (h : Z) :
  DECAY_RATES (decay_policy e) = Some h ->
  access_count e = 0%nat ->
  (confidence e <= 1)%Q ->
  get_current_strength (last_accessed e + h * 1000000) e = Q2R (confidence e) / 2.
Proof.
  intros Hh Hn Hc. apply Q2R_le_one in Hc.
  pose proof (decay_rate_pos _ _ Hh) as Hpos. apply IZR_lt in Hpos.
  rewrite (strength_unfold e _ h Hh), Hn. simpl INR.
  replace (Rmin 2 (1 + 0 * (1 / 10))) with 1
    by (symmetry; rewrite Rmin_right; lra).
  replace (total_seconds (last_accessed e + h * 1000000 - last_accessed e) / IZR h)
    with 1.
  - rewrite Rpower_1 by lra. rewrite Rmin_right; lra.
  - unfold total_seconds.
    replace (last_accessed e + h * 1000000 - last_accessed e)%Z
      with (h * 1000000)%Z by lia.
    rewrite mult_IZR. field. lra.
Qed.

(** X3: the rates of [DECAY_RATES] are half-lives: a never-read entry of
    confidence at most 1, read exactly one half-life of its policy after its
    last access, has half its confidence as strength. *)
Theorem strength_after_half_life (e : MemoryEntry) (h : Z) :
  DECAY_RATES (decay_policy e) = Some h ->
  access_count e = 0%nat ->
  (confidence e <= 1)%Q ->
  get_current_strength (last_accessed e + h * 1000000) e = Q2R (confidence e) / 2.
Proof. apply strength_half_life. Qed.

Lemma half_pow_bound (n : nat) : (1 / 2) ^ n * (INR n + 1) <= 1.
Proof.
  induction n as [| n IH].
  - simpl. lra.
  - rewrite S_INR. simpl pow.
    assert (0 < (1 / 2) ^ n) by (apply pow_lt; lra).
    pose proof (pos_INR n). nra.
Qed.

(** Past [n] half-lives the decay factor is below [1 / (n + 1)]. *)
Lemma decay_below (n : nat) (y : R) :
  INR n <= y -> Rpower (1 / 2) y * (INR n + 1) <= 1.
Proof.
  intros Hy. pose proof (half_power_antitone _ _ Hy) as Hle.
  rewrite Rpower_pow in Hle by lra.
  pose proof (half_pow_bound n) as Hb. pose proof (pos_INR n).
  pose proof (half_power_pos y). nra.
Qed.

Lemma is_expired_true (t : Z) (e : MemoryEntry) (q : Q) :
  is_expired t e q = true <-> get_current_strength t e < Q2R q.
Proof.
  unfold is_expired. destruct (Rlt_dec _ _); split; auto; discriminate.
Qed.

Lemma is_expired_false (t : Z) (e : MemoryEntry) (q : Q) :
  is_expired t e q = false <-> Q2R q <= get_current_strength t e.
Proof.
  unfold is_expired. destruct (Rlt_dec _ _); split; auto; try discriminate; lra.
Qed.

Lemma entry_expires_from (e : MemoryEntry) (threshold : Q) :
  decay_policy e <> PERMANENT -> (0 < threshold)%Q ->
  exists t0, forall t, (t0 <= t)%Z -> is_expired t e threshold = true.
Proof.
  intros Hp Hq. destruct (decay_rate_some _ Hp) as (h & Hh).
  pose proof (decay_rate_pos _ _ Hh) as Hhpos.
  assert (Hθ : 0 < Q2R threshold).
  { apply Qlt_Rlt in Hq. now rewrite RMicromega.Q2R_0 in Hq. }
  set (b := Rmin 2 (1 + INR (access_count e) * (1 / 10))).
  set (K := Rmax 0 (Q2R (confidence e)) * b).
  assert (Hb : 0 < b) by apply access_boost_pos.
  assert (HK : 0 <= K) by (apply Rmult_le_pos; [apply Rmax_l | lra]).
  set (n := Z.to_nat (up (K / Q2R threshold))).
  assert (Hn : K < Q2R threshold * INR n).
  { destruct (archimed (K / Q2R threshold)) as [Hup _].
    assert (0 <= K / Q2R threshold)
      by (apply Rmult_le_pos; [lra | left; now apply Rinv_0_lt_compat]).
    assert (0 <= up (K / Q2R threshold))%Z by (apply le_IZR; lra).
    unfold n. rewrite INR_IZR_INZ, Z2Nat.id by assumption.
    apply (Rmult_lt_compat_l (Q2R threshold)) in Hup; [| lra].
    replace (Q2R threshold * (K / Q2R threshold)) with K in Hup by (field; lra).
    lra. }
  exists (last_accessed e + Z.of_nat n * h * 1000000)%Z. intros t Ht.
  apply is_expired_true. rewrite (strength_unfold e t h Hh). fold b.
  set (y := total_seconds (t - last_accessed e) / IZR h).
  assert (Hy : INR n <= y).
  { unfold y, total_seconds.
    assert (Hh' : 0 < IZR h) by (apply IZR_lt; lia).
    assert (IZR (Z.of_nat n * h * 1000000) <= IZR (t - last_accessed e))
      by (apply IZR_le; lia).
    rewrite !mult_IZR, <- INR_IZR_INZ in H.
    apply (Rmult_le_reg_r (IZR h)); [lra |].
    replace (IZR (t - last_accessed e) / 1000000 / IZR h * IZR h)
      with (IZR (t - last_accessed e) / 1000000) by (field; lra).
    lra. }
  pose proof (decay_below n y Hy) as Hd.
  pose proof (half_power_pos y) as Hpos. pose proof (pos_INR n) as Hnn.
  eapply Rle_lt_trans; [apply Rmin_r |].
  assert (Hc : Q2R (confidence e) * Rpower (1 / 2) y * b <= K * Rpower (1 / 2) y).
  { unfold K. pose proof (Rmax_r 0 (Q2R (confidence e))).
    assert (Q2R (confidence e) * (Rpower (1 / 2) y * b)
            <= Rmax 0 (Q2R (confidence e)) * (Rpower (1 / 2) y * b))
      by (apply Rmult_le_compat_r; [apply Rmult_le_pos; lra | assumption]).
    lra. }
  eapply Rle_lt_trans; [exact Hc |].
  assert (K * Rpower (1 / 2) y * (INR n + 1) <= K).
  { rewrite Rmult_assoc. rewrite <- (Rmult_1_r K) at 2.
    apply Rmult_le_compat_l; assumption. }
  assert (Q2R threshold * (INR n + 1) > K) by nra.
  apply (Rmult_lt_reg_r (INR n + 1)); [lra |]. lra.
Qed.

(** X4: an entry that is not permanent and is no longer read expires for
    every positive threshold: from some clock value on [is_expired] is true,
    whatever confidence and access count the entry has. *)
Theorem decaying_entry_expires (e : MemoryEntry) (threshold : Q) :
  decay_policy e <> PERMANENT -> (0 < threshold)%Q ->
  exists t0, forall t, (t0 <= t)%Z -> is_expired t e threshold = true.
Proof. apply entry_expires_from. Qed.


Lemma cleanup_lookup (t : Z) (m : gmap string MemoryEntry) (q : Q) k e :
  (cleanup t m q).2 !! k = Some e
  <-> m !! k = Some e /\ is_expired t e q = false.
Proof.
  unfold cleanup. simpl. rewrite lookup_difference_Some, map_lookup_filter_None.
  split.
  - intros (Hk & [Hnone | Hnot]); [congruence |].
    split; [exact Hk |]. specialize (Hnot e Hk). simpl in Hnot.
    now destruct (is_expired t e q).
  - intros (Hk & Hexp). split; [exact Hk |]. right. intros e' Hk'.
    simpl. assert (e' = e) by congruence. subst e'. congruence.
Qed.

(** X5: [cleanup] removes exactly the expired entries: an entry is in the
    store afterwards iff it was there and is not expired, the returned count
    is the number of entries removed, and a second clean-up at the same clock
    value removes nothing. *)
Theorem cleanup_removes_expired_only (t : Z) (m : gmap string MemoryEntry)
    (threshold : Q) :
  (forall k e, (cleanup t m threshold).2 !! k = Some e
               <-> m !! k = Some e /\ is_expired t e threshold = false)
  /\ size m = ((cleanup t m threshold).1 + size (cleanup t m threshold).2)%nat
  /\ cleanup t (cleanup t m threshold).2 threshold
     = (0%nat, (cleanup t m threshold).2).
Proof.
  split; [intros k e; apply cleanup_lookup |]. split.
  - unfold cleanup. simpl.
    set (expired := filter (fun kv => is_expired t kv.2 threshold = true) m).
    assert (Hsub : expired ⊆ m) by apply map_filter_subseteq.
    rewrite <- (map_difference_union expired m Hsub) at 1.
    apply map_size_disj_union. now apply map_disjoint_difference_r1.
  - set (m' := (cleanup t m threshold).2).
    assert (Hnone : filter (fun kv => is_expired t kv.2 threshold = true) m' = ∅).
    { apply map_empty. intros k. apply map_lookup_filter_None.
      destruct (m' !! k) as [e |] eqn:Hk; [right | now left].
      intros e' [= <-]. simpl. apply cleanup_lookup in Hk as (_ & Hk). congruence. }
    unfold cleanup. rewrite Hnone, map_size_empty. f_equal.
    apply map_eq. intros k. rewrite lookup_difference, lookup_empty. reflexivity.
Qed.

Section WithFingerprint.
Context `{Fingerprint}.

(** X6: [store] files the entry under the fingerprint of its content, with
    the given fields, a zero access count and the scope's default policy when
    none is given; other entries are untouched, storing the same content again
    overwrites instead of adding, and a following [forget] of the returned id
    returns True and restores a store that did not hold that id. *)
Theorem store_then_forget (t : Z) (m : gmap string MemoryEntry)
    (c : Py.value) (s : MemoryScope) (src : string) (conf : Q)
    (pol : option DecayPolicy) (tgs : option (list string)) :
  let id' := (store t m c s src conf pol tgs).1 in
  let m' := (store t m c s src conf pol tgs).2 in
  id' = _generate_id c
  /\ (exists e, m' !! id' = Some e
                /\ content e = c /\ scope e = s /\ source e = src
                /\ confidence e = conf /\ access_count e = 0%nat
                /\ last_accessed e = t
                /\ decay_policy e = default (SCOPE_DECAY_DEFAULTS s) pol)
  /\ (forall k, k <> id' -> m' !! k = m !! k)
  /\ size m' = match m !! id' with Some _ => size m | None => S (size m) end
  /\ forget m' id' = (true, delete id' m)
  /\ (m !! id' = None -> (forget m' id').2 = m).
Proof.
  intros id' m'. unfold id', m', store. simpl.
  split; [reflexivity |]. split.
  { eexists. rewrite lookup_insert_eq. split; [reflexivity |]. simpl.
    destruct pol; repeat split. }
  split; [intros k Hk; now rewrite lookup_insert_ne |]. split.
  { destruct (m !! _generate_id c) eqn:Hl.
    - now rewrite map_size_insert_Some.
    - now rewrite map_size_insert_None. }
  unfold forget. rewrite lookup_insert_eq, delete_insert_eq.
  split; [reflexivity |]. intros Hnone. simpl. now apply delete_id.
Qed.

Lemma default_policy_decays (s : MemoryScope) : SCOPE_DECAY_DEFAULTS s <> PERMANENT.
Proof. destruct s; discriminate. Qed.

(** X7: whatever is stored without an explicit decay policy is eventually
    cleaned up: for every positive threshold there is a clock value from which
    [cleanup] removes the entry, since no scope defaults to the permanent
    policy. *)
Theorem default_store_is_cleaned_up (t : Z) (m : gmap string MemoryEntry)
    (c : Py.value) (s : MemoryScope) (src : string) (conf : Q)
    (tgs : option (list string)) (threshold : Q) :
  (0 < threshold)%Q ->
  exists t0, forall t', (t0 <= t')%Z ->
    (cleanup t' (store t m c s src conf None tgs).2 threshold).2
      !! (store t m c s src conf None tgs).1 = None.
Proof.
  intros Hq. unfold store. simpl.
  set (e := {| id := _generate_id c; content := c; scope := s; source := src;
               confidence := conf; decay_policy := SCOPE_DECAY_DEFAULTS s;
               created_at := t; last_accessed := t; access_count := 0;
               tags := default [] tgs; related_entries := [] |}).
  destruct (entry_expires_from e threshold (default_policy_decays s) Hq)
    as (t0 & Ht0).
  exists t0. intros t' Ht'.
  destruct (_ !! _generate_id c) as [e' |] eqn:Hl; [| reflexivity].
  apply cleanup_lookup in Hl as (Hl & Hexp).
  rewrite lookup_insert_eq in Hl. injection Hl as <-.
  rewrite (Ht0 t' Ht') in Hexp. discriminate.
Qed.

(** X8: a learned skill is kept under the worker's name in the skill scope
    with the very slow policy: it has full strength when stored and exactly
    half of it thirty days later, while a failure learned at the same moment
    is down to a half after one day. *)
Theorem learned_entries_half_life (agent_name : string) (t : Z)
    (m : gmap string MemoryEntry) (info : Py.value) :
  (exists e, (learn_skill agent_name t m info).2
               !! (learn_skill agent_name t m info).1 = Some e
             /\ source e = agent_name /\ scope e = SKILL
             /\ tags e = ["skill"; "pattern"]
             /\ get_current_strength t e = 1
             /\ get_current_strength (t + 2592000 * 1000000) e = 1 / 2)
  /\ (exists e, (learn_from_failure agent_name t m info).2
                  !! (learn_from_failure agent_name t m info).1 = Some e
                /\ source e = agent_name /\ scope e = FAILURE
                /\ get_current_strength t e = 1
                /\ get_current_strength (t + 86400 * 1000000) e = 1 / 2).
Proof.
  assert (Hone : Q2R 1 = 1) by (unfold Q2R; simpl; field).
  split.
  - unfold learn_skill, remember, store. simpl. eexists.
    rewrite lookup_insert_eq. split; [reflexivity |].
    repeat split.
    + match goal with |- get_current_strength _ ?e = _ =>
        change t with (last_accessed e) at 1;
        rewrite (strength_fresh e) by (simpl; congruence) end.
      simpl. rewrite Hone. apply Rmin_left. lra.
    + match goal with |- get_current_strength _ ?e = _ =>
        change t with (last_accessed e) at 1;
        rewrite (strength_half_life e 2592000) by
          (try reflexivity; simpl; unfold Qle; simpl; lia) end.
      simpl. rewrite Hone. reflexivity.
  - unfold learn_from_failure, remember, store. simpl. eexists.
    rewrite lookup_insert_eq. split; [reflexivity |].
    repeat split.
    + match goal with |- get_current_strength _ ?e = _ =>
        change t with (last_accessed e) at 1;
        rewrite (strength_fresh e) by (simpl; congruence) end.
      simpl. rewrite Hone. apply Rmin_left. lra.
    + match goal with |- get_current_strength _ ?e = _ =>
        change t with (last_accessed e) at 1;
        rewrite (strength_half_life e 86400) by
          (try reflexivity; simpl; unfold Qle; simpl; lia) end.
      simpl. rewrite Hone. reflexivity.
Qed.

End WithFingerprint.

End MemoryFacts.

Section MemoryExamples.
Import Memory.
Local Open Scope R_scope.

Lemma access_never_weakens_witness :
  get_current_strength 7200000000 (Samples.entry (1 # 2) MEDIUM 0)
  <= get_current_strength 7200000000
       (access 7200000000 (Samples.entry (1 # 2) MEDIUM 0))
  /\ access_count (access 7200000000 (Samples.entry (1 # 2) MEDIUM 0))
     = S (access_count (Samples.entry (1 # 2) MEDIUM 0))
  /\ last_accessed (access 7200000000 (Samples.entry (1 # 2) MEDIUM 0))
     = 7200000000%Z.
Proof.
  apply (access_never_weakens (Samples.entry (1 # 2) MEDIUM 0) 7200000000).
  - simpl. unfold Qle. simpl. lia.
  - simpl. lia.
Defined.

Lemma strength_after_half_life_witness :
  get_current_strength (0 + 3600 * 1000000) (Samples.entry (1 # 2) FAST 0)
  = Q2R (1 # 2) / 2.
Proof.
  apply (strength_after_half_life (Samples.entry (1 # 2) FAST 0) 3600).
  - reflexivity.
  - reflexivity.
  - simpl. unfold Qle. simpl. lia.
Defined.

Lemma decaying_entry_expires_witness :
  exists t0, forall t, (t0 <= t)%Z ->
    is_expired t (Samples.entry 1 SLOW 0) (1 # 10) = true.
Proof.
  apply (decaying_entry_expires (Samples.entry 1 SLOW 0) (1 # 10)).
  - simpl. discriminate.
  - reflexivity.
Defined.

Lemma default_store_is_cleaned_up_witness :
  exists t0, forall t', (t0 <= t')%Z ->
    (cleanup t'
       (@store Samples.fingerprint 0 ∅ (Py.VStr "note") PROJECT "ArchitectAgent"
          1 None None).2 (1 # 10)).2
      !! (@store Samples.fingerprint 0 ∅ (Py.VStr "note") PROJECT "ArchitectAgent"
            1 None None).1 = None.
Proof.
  apply (@default_store_is_cleaned_up Samples.fingerprint 0 ∅ (Py.VStr "note")
           PROJECT "ArchitectAgent" 1 None (1 # 10)).
  reflexivity.
Defined.

End MemoryExamples.


(** ** Scorecards, build and review results, feedback *)

Section EvaluationFacts.
Import Evaluation.
Local Open Scope Q_scope.

Lemma adjust_autonomy_fields (t : Z) sc :
  scores (adjust_autonomy t sc) = scores sc
  /\ total_tasks (adjust_autonomy t sc) = total_tasks sc
  /\ successful_tasks (adjust_autonomy t sc) = successful_tasks sc
  /\ failed_tasks (adjust_autonomy t sc) = failed_tasks sc
  /\ escalations (adjust_autonomy t sc) = escalations sc.
Proof.
  unfold adjust_autonomy.
  destruct (_ && _); [| destruct (_ || _)]; simpl; auto.
Qed.

Lemma add_scores_fields (t : Z) (l : list (ScoreCategory * Q)) tid sc :
  let sc' := foldl (fun sc '(c, s) => add_score t sc c s tid "") sc l in
  total_tasks sc' = total_tasks sc
  /\ successful_tasks sc' = successful_tasks sc
  /\ failed_tasks sc' = failed_tasks sc
  /\ escalations sc' = escalations sc.
Proof.
  revert sc. induction l as [| [c s] l IH]; intros sc; simpl; [auto |].
  apply (IH (add_score t sc c s tid "")).
Qed.

Lemma recorded_balanced (t : Z) sc ok l tid :
  balanced sc -> balanced (recorded t sc ok l tid).
Proof.
  unfold balanced, recorded. intros Hb.
  destruct (adjust_autonomy_fields t
              (foldl (fun sc '(c, s) => add_score t sc c s tid "")
                 (if ok then record_success sc else record_failure sc) l))
    as (_ & -> & -> & -> & _).
  destruct (add_scores_fields t l tid
              (if ok then record_success sc else record_failure sc))
    as (-> & -> & -> & _).
  destruct ok; simpl; lia.
Qed.

(** X9: the task counters add up: if on every scorecard total_tasks is the
    sum of successful_tasks and failed_tasks, this still holds on every
    scorecard after any sequence of [record_task_result] calls. *)
Theorem task_counters_add_up (calls : list Call)
    (es : gmap string AgentScorecard) :
  (forall who sc, es !! who = Some sc -> balanced sc) ->
  forall who sc, record_all calls es !! who = Some sc -> balanced sc.
Proof.
  revert es. induction calls as [| c calls IH]; intros es Hes; [exact Hes |].
  simpl. apply IH. intros who sc. rewrite record_task_result_unfold.
  destruct (decide (call_agent c = who)) as [<- | Hne].
  - rewrite lookup_insert_eq. intros [= <-]. apply recorded_balanced.
    destruct (es !! call_agent c) as [sc0 |] eqn:Hsc0; simpl; [eauto |].
    reflexivity.
  - rewrite lookup_insert_ne by assumption. apply Hes.
Qed.

(** X10: results recorded for other workers leave a worker's scorecard as it
    is (and create none for it). *)
Theorem other_workers_untouched (calls : list Call)
    (es : gmap string AgentScorecard) (who : string) :
  Forall (fun c => call_agent c <> who) calls ->
  record_all calls es !! who = es !! who.
Proof.
  intros Hcalls. revert es. induction Hcalls as [| c calls Hc _ IH]; intros es;
    [reflexivity |].
  simpl. rewrite IH, record_task_result_unfold. now rewrite lookup_insert_ne.
Qed.

Lemma sum_upper_bound (m : Q) (xs : list Q) (a : Q) :
  Forall (fun x => x <= m) xs ->
  foldl Qplus a xs <= a + m * inject_Z (Z.of_nat (length xs)).
Proof.
  intros Hxs. revert a. induction Hxs as [| x xs Hx _ IH]; intros a.
  - change (a <= a + m * 0). lra.
  - simpl foldl. eapply Qle_trans; [apply IH |].
    change (length (x :: xs)) with (S (length xs)).
    rewrite inject_Z_succ. lra.
Qed.

Lemma mean_upper_bound (m : Q) (xs : list Q) :
  xs <> [] -> Forall (fun x => x <= m) xs ->
  Py.sum xs / inject_Z (Z.of_nat (length xs)) <= m.
Proof.
  intros Hne Hxs. apply Qle_shift_div_r.
  - destruct xs as [| x xs]; [congruence |].
    change (inject_Z 0 < inject_Z (Z.of_nat (S (length xs)))).
    rewrite <- Zlt_Qlt. lia.
  - pose proof (sum_upper_bound m xs 0 Hxs) as Hs. unfold Py.sum. lra.
Qed.

Lemma get_average_within (lo hi : Q) (t : Z) sc c days :
  lo <= 50 -> 50 <= hi -> entries_within lo hi sc ->
  lo <= get_average t sc c days /\ get_average t sc c days <= hi.
Proof.
  intros Hlo Hhi Hsc. unfold get_average.
  destruct (scores sc !! value c) as [entries |] eqn:He; [| auto].
  set (recent := List.filter _ entries).
  assert (Hrec : Forall (fun e => lo <= score e /\ score e <= hi) recent).
  { apply Forall_forall. intros e Hin%list_elem_of_In.
    apply filter_In in Hin as [Hin _].
    pose proof (Hsc _ _ He) as Hall. rewrite Forall_forall in Hall.
    apply Hall. now apply list_elem_of_In. }
  destruct recent as [| e recent'] eqn:Hr; [auto |].
  rewrite <- (length_map score). split.
  - apply mean_lower_bound; [discriminate |].
    apply Forall_forall. intros q Hq%list_elem_of_In.
    apply in_map_iff in Hq as (e' & <- & Hin).
    rewrite Forall_forall in Hrec. apply Hrec. now apply list_elem_of_In.
  - apply mean_upper_bound; [discriminate |].
    apply Forall_forall. intros q Hq%list_elem_of_In.
    apply in_map_iff in Hq as (e' & <- & Hin).
    rewrite Forall_forall in Hrec. apply Hrec. now apply list_elem_of_In.
Qed.

Lemma get_overall_score_within (lo hi : Q) (t : Z) (sc : AgentScorecard) :
  lo <= 50 -> 50 <= hi -> entries_within lo hi sc ->
  lo <= get_overall_score t sc /\ get_overall_score t sc <= hi.
Proof.
  intros Hlo Hhi Hsc.
  pose proof (fun c days => get_average_within lo hi t sc c days Hlo Hhi Hsc) as Ha.
  destruct (Ha CORRECTNESS 30%Z) as [H1 H1']. destruct (Ha EFFICIENCY 30%Z) as [H2 H2'].
  destruct (Ha COMPLIANCE 30%Z) as [H3 H3']. destruct (Ha COST 30%Z) as [H4 H4'].
  destruct (Ha STABILITY 30%Z) as [H5 H5'].
  unfold get_overall_score, weights. simpl foldl. cbv beta iota zeta.
  destruct (Py.lt 0 _); [| lra].
  split; [apply Qle_shift_div_l | apply Qle_shift_div_r]; lra.
Qed.

(** X11: when every recorded score lies between 0 and 100, so do the 30-day
    average of every category and the weighted overall score. *)
Theorem scores_stay_in_range (t : Z) (sc : AgentScorecard) :
  entries_within 0 100 sc ->
  (forall c, 0 <= get_average t sc c 30 /\ get_average t sc c 30 <= 100)
  /\ 0 <= get_overall_score t sc /\ get_overall_score t sc <= 100.
Proof.
  intros Hsc. split.
  - intros c. apply get_average_within; [lra | lra | exact Hsc].
  - apply get_overall_score_within; [lra | lra | exact Hsc].
Qed.

Lemma py_lt_true (a b : Q) : Py.lt a b = true <-> a < b.
Proof.
  unfold Py.lt. rewrite negb_true_iff. split.
  - intros Hb. apply Qnot_le_lt. intros Hle. apply Qle_bool_iff in Hle. congruence.
  - intros Hlt. destruct (Qle_bool b a) eqn:Hb; [| reflexivity].
    apply Qle_bool_iff in Hb. lra.
Qed.

Lemma py_ge_true (a b : Q) : Py.ge a b = true <-> b <= a.
Proof. apply Qle_bool_iff. Qed.

(** X12: which way one [adjust_autonomy] moves a level within its bounds.
    With an overall score of at least 80 and a success rate of at least 0.9
    the level does not fall, and it rises unless it is at the cap 1.0; with
    an overall score below 50 or a success rate below 0.7 the level does not
    rise, and it falls unless it is at the floor 0.2; in every other case the
    scorecard is left as it is.  Scores and counters are never touched. *)
Theorem adjust_autonomy_step (t : Z) (sc : AgentScorecard) :
  autonomy_in_bounds sc ->
  (80 <= get_overall_score t sc -> 9 # 10 <= get_success_rate sc ->
   autonomy_level sc <= autonomy_level (adjust_autonomy t sc)
   /\ (autonomy_level sc < 1 ->
       autonomy_level sc < autonomy_level (adjust_autonomy t sc)))
  /\ (get_overall_score t sc < 50 \/ get_success_rate sc < 7 # 10 ->
      autonomy_level (adjust_autonomy t sc) <= autonomy_level sc
      /\ (2 # 10 < autonomy_level sc ->
          autonomy_level (adjust_autonomy t sc) < autonomy_level sc))
  /\ (50 <= get_overall_score t sc -> 7 # 10 <= get_success_rate sc ->
      get_overall_score t sc < 80 \/ get_success_rate sc < 9 # 10 ->
      adjust_autonomy t sc = sc)
  /\ scores (adjust_autonomy t sc) = scores sc
  /\ total_tasks (adjust_autonomy t sc) = total_tasks sc
  /\ successful_tasks (adjust_autonomy t sc) = successful_tasks sc
  /\ failed_tasks (adjust_autonomy t sc) = failed_tasks sc
  /\ escalations (adjust_autonomy t sc) = escalations sc.
Proof.
  intros [Hlo Hhi].
  assert (Hge : forall a b, Py.ge a b = false -> a < b).
  { intros a b Hf. apply Qnot_le_lt. intros Hle. apply py_ge_true in Hle.
    congruence. }
  assert (Hlt : forall a b, Py.lt a b = false -> b <= a).
  { intros a b Hf. apply Qnot_lt_le. intros Hab. apply py_lt_true in Hab.
    congruence. }
  split; [| split; [| split; [| apply adjust_autonomy_fields]]].
  - intros Ho Hr. apply py_ge_true in Ho. apply py_ge_true in Hr.
    unfold adjust_autonomy. rewrite Ho, Hr. simpl.
    unfold Py.min. destruct (Qlt_le_dec _ _); split; intros; lra.
  - intros Hlow. unfold adjust_autonomy.
    destruct (Py.ge (get_overall_score t sc) 80
              && Py.ge (get_success_rate sc) (9 # 10)) eqn:Hup.
    { apply andb_true_iff in Hup as [Ho Hr].
      apply py_ge_true in Ho. apply py_ge_true in Hr. lra. }
    assert (Hdown : Py.lt (get_overall_score t sc) 50
                    || Py.lt (get_success_rate sc) (7 # 10) = true).
    { apply orb_true_iff. destruct Hlow as [H50 | H07];
        [left | right]; now apply py_lt_true. }
    rewrite Hdown. simpl.
    unfold Py.max. destruct (Qlt_le_dec _ _); split; intros; lra.
  - intros Ho Hr Hmid. unfold adjust_autonomy.
    destruct (Py.ge (get_overall_score t sc) 80
              && Py.ge (get_success_rate sc) (9 # 10)) eqn:Hup.
    { apply andb_true_iff in Hup as [Ho' Hr'].
      apply py_ge_true in Ho'. apply py_ge_true in Hr'. lra. }
    destruct (Py.lt (get_overall_score t sc) 50
              || Py.lt (get_success_rate sc) (7 # 10)) eqn:Hdown;
      [| reflexivity].
    apply orb_true_iff in Hdown as [H50 | H07];
      [apply py_lt_true in H50 | apply py_lt_true in H07]; lra.
Qed.

Lemma ratio_within_unit (p f : Z) :
  (0 <= p)%Z -> (0 <= f)%Z -> (0 < p + f)%Z ->
  0 <= inject_Z p / inject_Z (p + f) /\ inject_Z p / inject_Z (p + f) <= 1.
Proof.
  intros Hp Hf Ht.
  assert (Hpos : 0 < inject_Z (p + f))
    by (change 0 with (inject_Z 0); rewrite <- Zlt_Qlt; lia).
  assert (Hp' : 0 <= inject_Z p)
    by (change 0 with (inject_Z 0); rewrite <- Zle_Qle; lia).
  assert (Hle : inject_Z p <= inject_Z (p + f)) by (rewrite <- Zle_Qle; lia).
  split; [apply Qle_shift_div_l | apply Qle_shift_div_r]; lra.
Qed.

Lemma py_clamp (x : Q) : 0 <= Py.max 0 (Py.min 100 x) /\ Py.max 0 (Py.min 100 x) <= 100.
Proof.
  unfold Py.max, Py.min.
  destruct (Qlt_le_dec x 100); destruct (Qlt_le_dec 0 _); split; lra.
Qed.

Lemma to_scores_bounds (fb : ExecutionFeedback) :
  (0 <= test_passed fb)%Z -> (0 <= test_failed fb)%Z ->
  Forall (fun cs => 0 <= cs.2 /\ cs.2 <= 100) (to_scores fb).
Proof.
  intros Hp Hf. unfold to_scores.
  repeat constructor; simpl.
  - destruct (0 <? test_passed fb + test_failed fb)%Z eqn:Ht.
    + apply Z.ltb_lt in Ht.
      destruct (ratio_within_unit _ _ Hp Hf Ht). lra.
    + destruct (build_success fb); lra.
  - destruct (0 <? test_passed fb + test_failed fb)%Z eqn:Ht.
    + apply Z.ltb_lt in Ht.
      destruct (ratio_within_unit _ _ Hp Hf Ht). lra.
    + destruct (build_success fb); lra.
  - apply py_clamp.
  - apply py_clamp.
  - destruct (_ <? 5000)%Z; [lra |]. destruct (_ <? 30000)%Z; lra.
  - destruct (_ <? 5000)%Z; [lra |]. destruct (_ <? 30000)%Z; lra.
Qed.

(** X13: execution feedback with non-negative test counts turns into exactly
    three scores, for correctness, compliance and efficiency in this order,
    each between 0 and 100. *)
Theorem to_scores_in_range (fb : ExecutionFeedback) :
  (0 <= test_passed fb)%Z -> (0 <= test_failed fb)%Z ->
  (to_scores fb).*1 = [ CORRECTNESS; COMPLIANCE; EFFICIENCY ]
  /\ Forall (fun cs => 0 <= cs.2 /\ cs.2 <= 100) (to_scores fb).
Proof.
  intros Hp Hf. split; [reflexivity | now apply to_scores_bounds].
Qed.

Lemma add_score_within (lo hi : Q) (t : Z) sc c s tid n :
  lo <= s -> s <= hi -> entries_within lo hi sc ->
  entries_within lo hi (add_score t sc c s tid n).
Proof.
  intros Hl Hh Hsc k l. unfold add_score. simpl.
  destruct (decide (value c = k)) as [<- | Hne].
  - rewrite lookup_insert_eq. intros [= <-].
    apply Forall_app. split.
    + destruct (scores sc !! value c) as [old |] eqn:Ho; simpl; [eauto | constructor].
    + repeat constructor; assumption.
  - rewrite lookup_insert_ne by assumption. apply Hsc.
Qed.

Lemma add_scores_within (lo hi : Q) (t : Z) (l : list (ScoreCategory * Q)) tid sc :
  Forall (fun cs => lo <= cs.2 /\ cs.2 <= hi) l -> entries_within lo hi sc ->
  entries_within lo hi (foldl (fun sc '(c, s) => add_score t sc c s tid "") sc l).
Proof.
  intros Hl. revert sc. induction Hl as [| [c s] l [Hs Hs'] _ IH]; intros sc Hsc;
    simpl; [exact Hsc |].
  apply IH. now apply add_score_within.
Qed.

Lemma new_scorecard_within (lo hi : Q) name : entries_within lo hi (new_scorecard name).
Proof. intros k l Hk. simpl in Hk. now rewrite lookup_empty in Hk. Qed.

Lemma recorded_within (lo hi : Q) (t : Z) sc ok l tid :
  Forall (fun cs => lo <= cs.2 /\ cs.2 <= hi) l -> entries_within lo hi sc ->
  entries_within lo hi (recorded t sc ok l tid).
Proof.
  intros Hl Hsc. unfold recorded, entries_within.
  destruct (adjust_autonomy_fields t
              (foldl (fun sc '(c, s) => add_score t sc c s tid "")
                 (if ok then record_success sc else record_failure sc) l))
    as (-> & _).
  apply add_scores_within; [exact Hl |]. destruct ok; exact Hsc.
Qed.

Lemma py_max_nonneg (x : Q) : 0 <= Py.max 0 x.
Proof. unfold Py.max. destruct (Qlt_le_dec 0 x); lra. Qed.

Lemma py_max_le (x hi : Q) : 0 <= hi -> x <= hi -> Py.max 0 x <= hi.
Proof. intros Hh Hx. unfold Py.max. destruct (Qlt_le_dec 0 x); lra. Qed.

(** X14: a review result adds exactly one score to the reviewed worker, a
    compliance score [max(0, 100 - 10 * violations - severity)], and exactly
    one to the reviewer, a correctness score of 100, each stamped with the
    clock and without task id; both have a scorecard afterwards.  It changes
    no other score, no task counter, no escalation count and no autonomy
    level of any worker and leaves all other scorecards alone; with
    non-negative findings it keeps every worker's scores between 0 and 100. *)
Theorem review_result_only_scores (t : Z) (es : gmap string AgentScorecard)
    (reviewer_name reviewed_agent : string) (violations : Z) (severity_score : Q)
    (who : string) :
  let es' := record_review_result t es reviewer_name reviewed_agent
               violations severity_score in
  let sc := default (new_scorecard who) (es !! who) in
  let sc' := default (new_scorecard who) (es' !! who) in
  let compliance_entry :=
    {| category := COMPLIANCE;
       score := Py.max 0 (100 - inject_Z violations * 10 - severity_score);
       timestamp := t; task_id := None; notes := "" |} in
  let correctness_entry :=
    {| category := CORRECTNESS; score := 100; timestamp := t;
       task_id := None; notes := "" |} in
  same_standing sc sc'
  /\ (who <> reviewer_name -> who <> reviewed_agent -> es' !! who = es !! who)
  /\ is_Some (es' !! reviewer_name) /\ is_Some (es' !! reviewed_agent)
  /\ scores sc' !! "compliance"
     = (if decide (who = reviewed_agent)
        then Some (default [] (scores sc !! "compliance") ++ [compliance_entry])%list
        else scores sc !! "compliance")
  /\ scores sc' !! "correctness"
     = (if decide (who = reviewer_name)
        then Some (default [] (scores sc !! "correctness")
                     ++ [correctness_entry])%list
        else scores sc !! "correctness")
  /\ (forall k, k <> "compliance" -> k <> "correctness" ->
        scores sc' !! k = scores sc !! k)
  /\ ((0 <= violations)%Z -> 0 <= severity_score ->
      entries_within 0 100 sc -> entries_within 0 100 sc').
Proof.
  intros es' sc sc' compliance_entry correctness_entry.
  set (score := Py.max 0 (100 - inject_Z violations * 10 - severity_score)).
  set (sc1 := default (new_scorecard reviewed_agent) (es !! reviewed_agent)).
  set (es1 := <[reviewed_agent := add_score t sc1 COMPLIANCE score None ""]> es).
  set (sc2 := default (new_scorecard reviewer_name) (es1 !! reviewer_name)).
  assert (Hes' : es' = <[reviewer_name := add_score t sc2 CORRECTNESS 100 None ""]> es1).
  { unfold es', record_review_result, get_scorecard, es1, sc1, sc2, score.
    destruct (es !! reviewed_agent) as [a |] eqn:Ha; simpl.
    - destruct (_ !! reviewer_name) as [b |] eqn:Hb; simpl; [reflexivity |].
      now rewrite insert_insert_eq.
    - rewrite insert_insert_eq.
      destruct (_ !! reviewer_name) as [b |] eqn:Hb; simpl; [reflexivity |].
      now rewrite insert_insert_eq. }
  set (mid := if decide (who = reviewed_agent)
              then add_score t sc COMPLIANCE score None "" else sc).
  assert (Hmid : default (new_scorecard who) (es1 !! who) = mid).
  { unfold es1, mid. destruct (decide (who = reviewed_agent)) as [-> | Hne].
    - now rewrite lookup_insert_eq.
    - now rewrite lookup_insert_ne by congruence. }
  assert (Hsc' : sc' = if decide (who = reviewer_name)
                       then add_score t mid CORRECTNESS 100 None "" else mid).
  { unfold sc'. rewrite Hes'. destruct (decide (who = reviewer_name)) as [-> | Hne].
    - rewrite lookup_insert_eq. simpl. unfold sc2. now rewrite Hmid.
    - rewrite lookup_insert_ne by congruence. exact Hmid. }
  split.
  { rewrite Hsc'. unfold mid.
    destruct (decide (who = reviewer_name)), (decide (who = reviewed_agent));
      repeat split. }
  split.
  { intros Hr Ha. rewrite Hes'. unfold es1. now rewrite !lookup_insert_ne. }
  split.
  { rewrite Hes'. rewrite lookup_insert_eq. eauto. }
  split.
  { rewrite Hes'. destruct (decide (reviewer_name = reviewed_agent)) as [-> | Hne].
    - rewrite lookup_insert_eq. eauto.
    - rewrite lookup_insert_ne by assumption. unfold es1.
      rewrite lookup_insert_eq. eauto. }
  split.
  { rewrite Hsc'. unfold mid, add_score.
    destruct (decide (who = reviewer_name)), (decide (who = reviewed_agent));
      simpl; rewrite ?lookup_insert_ne by discriminate;
      rewrite ?lookup_insert_eq; reflexivity. }
  split.
  { rewrite Hsc'. unfold mid, add_score.
    destruct (decide (who = reviewer_name)), (decide (who = reviewed_agent));
      simpl; rewrite ?lookup_insert_eq;
      rewrite ?lookup_insert_ne by discriminate; reflexivity. }
  split.
  { intros k Hk1 Hk2. rewrite Hsc'. unfold mid, add_score.
    destruct (decide (who = reviewer_name)), (decide (who = reviewed_agent));
      simpl; rewrite ?lookup_insert_ne by congruence; reflexivity. }
  intros Hv Hs Hin.
  assert (Hscore : 0 <= score /\ score <= 100).
  { unfold score. split; [apply py_max_nonneg |]. apply py_max_le; [lra |].
    assert (0 <= inject_Z violations)
      by (change 0 with (inject_Z 0); rewrite <- Zle_Qle; lia).
    lra. }
  destruct Hscore as [Hs0 Hs1].
  assert (Hmid' : entries_within 0 100 mid).
  { unfold mid. destruct (decide (who = reviewed_agent)); [| exact Hin].
    now apply add_score_within. }
  rewrite Hsc'. destruct (decide (who = reviewer_name)); [| exact Hmid'].
  apply add_score_within; [lra | lra | exact Hmid'].
Qed.

Lemma build_correctness_within (ok : bool) (p f : Z) :
  (0 <= p)%Z -> (0 <= f)%Z ->
  let c0 := if ok then 100 else 0 in
  let c := if (0 <? p + f)%Z
           then (c0 + inject_Z p / inject_Z (p + f) * 100) / 2 else c0 in
  0 <= c /\ c <= 100.
Proof.
  intros Hp Hf c0 c. unfold c, c0.
  destruct (0 <? p + f)%Z eqn:Ht.
  - apply Z.ltb_lt in Ht. destruct (ratio_within_unit p f Hp Hf Ht) as [Hr0 Hr1].
    destruct ok; split;
      (apply Qle_shift_div_l || apply Qle_shift_div_r); lra.
  - destruct ok; split; lra.
Qed.

Lemma py_min_cap_100 (x : Q) : 0 <= x -> 0 <= Py.min 100 x /\ Py.min 100 x <= 100.
Proof. intros Hx. unfold Py.min. destruct (Qlt_le_dec x 100); split; lra. Qed.

(** X15: a build result with non-negative test counts is recorded as one
    task of the worker, successful exactly when the build worked and no test
    failed; other scorecards are untouched and the worker's counters still add
    up, its autonomy level stays in its bounds and its scores between 0 and
    100. *)
Theorem build_result_recorded (t : Z) (es : gmap string AgentScorecard)
    (name : string) (ok : bool) (coverage : Q) (passed failed : Z) :
  (0 <= passed)%Z -> (0 <= failed)%Z ->
  let sc := default (new_scorecard name) (es !! name) in
  let es' := record_build_result t es name ok coverage passed failed in
  (forall who, who <> name -> es' !! who = es !! who)
  /\ exists sc',
      es' !! name = Some sc'
      /\ total_tasks sc' = S (total_tasks sc)
      /\ successful_tasks sc'
         = (successful_tasks sc + (if ok && (failed =? 0)%Z then 1 else 0))%nat
      /\ (balanced sc -> balanced sc')
      /\ (autonomy_in_bounds sc -> autonomy_in_bounds sc')
      /\ (entries_within 0 100 sc -> entries_within 0 100 sc').
Proof.
  intros Hp Hf sc es'.
  pose proof (build_correctness_within ok passed failed Hp Hf) as Hc.
  simpl in Hc.
  set (c := if (0 <? passed + failed)%Z
            then ((if ok then 100 else 0)
                  + inject_Z passed / inject_Z (passed + failed) * 100) / 2
            else if ok then 100 else 0) in *.
  set (sc1 := add_score t sc CORRECTNESS c None "").
  set (sc2 := if Py.ge coverage 0
              then add_score t sc1 COMPLIANCE (Py.min 100 coverage) None ""
              else sc1).
  set (sc3 := if ok && (failed =? 0)%Z then record_success sc2 else record_failure sc2).
  assert (Hes' : es' = <[name := adjust_autonomy t sc3]> es).
  { unfold es', record_build_result, get_scorecard, sc3, sc2, sc1, c, sc.
    destruct (es !! name) as [a |] eqn:Ha; simpl; [reflexivity |].
    now rewrite insert_insert_eq. }
  split; [intros who Hne; rewrite Hes'; now rewrite lookup_insert_ne |].
  exists (adjust_autonomy t sc3). rewrite Hes', lookup_insert_eq.
  split; [reflexivity |].
  destruct (adjust_autonomy_fields t sc3) as (Hsco & Ht & Hs & Hfl & _).
  assert (H2 : same_standing sc sc2)
    by (unfold sc2; destruct (Py.ge coverage 0); repeat split).
  destruct H2 as (Ha2 & Ht2 & Hs2 & Hf2 & _).
  split; [rewrite Ht; unfold sc3; destruct (ok && _); simpl; lia |].
  split; [rewrite Hs; unfold sc3; destruct (ok && _); simpl; lia |].
  split.
  { unfold balanced. rewrite Ht, Hs, Hfl. unfold sc3.
    destruct (ok && _); simpl; lia. }
  split.
  { intros Hb. apply adjust_autonomy_in_bounds. unfold autonomy_in_bounds, sc3.
    destruct (ok && _); simpl; rewrite Ha2; exact Hb. }
  intros Hin. unfold entries_within. rewrite Hsco.
  assert (H1 : entries_within 0 100 sc1)
    by (apply add_score_within; [apply Hc | apply Hc | exact Hin]).
  assert (H2 : entries_within 0 100 sc2).
  { unfold sc2. destruct (Py.ge coverage 0) eqn:Hcov; [| exact H1].
    apply py_ge_true in Hcov. destruct (py_min_cap_100 coverage Hcov).
    now apply add_score_within. }
  unfold sc3. destruct (ok && _); exact H2.
Qed.

Section WithFormats.
Context `{Formats}.

Lemma get_recommendations_scorecards (t : Z) (es : gmap string AgentScorecard) name
    who sc :
  es !! who = Some sc -> (get_recommendations t es name).2 !! who = Some sc.
Proof.
  intros Hsc. unfold get_recommendations, get_scorecard.
  destruct (es !! name) as [sc0 |] eqn:Hn; simpl; [exact Hsc |].
  rewrite lookup_insert_ne by congruence. exact Hsc.
Qed.

(** X16: processing execution feedback records one task of the worker,
    successful exactly when build and tests succeeded, and keeps the worker's
    scores and overall score between 0 and 100 and its autonomy level in its
    bounds. *)
Theorem process_feedback_keeps_ranges (t : Z) (es : gmap string AgentScorecard)
    (name : string) (fb : ExecutionFeedback) (tid : option string) :
  (0 <= test_passed fb)%Z -> (0 <= test_failed fb)%Z ->
  entries_within 0 100 (default (new_scorecard name) (es !! name)) ->
  autonomy_in_bounds (default (new_scorecard name) (es !! name)) ->
  exists sc,
    (process_feedback t es name fb tid).2 !! name = Some sc
    /\ entries_within 0 100 sc
    /\ (0 <= get_overall_score t sc /\ get_overall_score t sc <= 100)
    /\ autonomy_in_bounds sc
    /\ total_tasks sc
       = S (total_tasks (default (new_scorecard name) (es !! name)))
    /\ successful_tasks sc
       = (successful_tasks (default (new_scorecard name) (es !! name))
          + (if build_success fb && test_success fb then 1 else 0))%nat.
Proof.
  intros Hp Hf Hin Hb. pose proof (to_scores_bounds fb Hp Hf) as Hscores.
  set (sc0 := default (new_scorecard name) (es !! name)) in *.
  set (ok := build_success fb && test_success fb).
  exists (recorded t sc0 ok (to_scores fb) tid).
  assert (Hl : (process_feedback t es name fb tid).2 !! name
               = Some (recorded t sc0 ok (to_scores fb) tid)).
  { unfold process_feedback.
    destruct (get_recommendations t _ name) as [recs es'] eqn:Hrec. simpl.
    change es' with (recs, es').2. rewrite <- Hrec.
    apply get_recommendations_scorecards.
    rewrite record_task_result_unfold. apply lookup_insert_eq. }
  split; [exact Hl |].
  assert (Hw : entries_within 0 100 (recorded t sc0 ok (to_scores fb) tid))
    by now apply recorded_within.
  split; [exact Hw |].
  split; [apply (get_overall_score_within 0 100 t _ ltac:(lra) ltac:(lra) Hw) |].
  split; [now apply recorded_in_bounds |].
  unfold recorded.
  destruct (adjust_autonomy_fields t
              (foldl (fun sc '(c, s) => add_score t sc c s tid "")
                 (if ok then record_success sc0 else record_failure sc0)
                 (to_scores fb)))
    as (_ & -> & -> & _).
  destruct (add_scores_fields t (to_scores fb) tid
              (if ok then record_success sc0 else record_failure sc0))
    as (-> & -> & _).
  destruct ok; simpl; split; lia.
Qed.


(** X17: [get_recommendations] returns no recommendation exactly when every
    category averages at least 60, the success rate is at least 0.8 and there
    are at most five escalations; it never returns more than seven. *)
Theorem recommendations_when (t : Z) (es : gmap string AgentScorecard)
    (name : string) :
  let sc := default (new_scorecard name) (es !! name) in
  ((get_recommendations t es name).1 = []
   <-> (forall c, 60 <= get_average t sc c 30)
       /\ 8 # 10 <= get_success_rate sc
       /\ (escalations sc <= 5)%nat)
  /\ (length (get_recommendations t es name).1 <= 7)%nat.
Proof.
  intros sc.
  assert (Hsc : (get_scorecard es name).1 = sc).
  { unfold get_scorecard, sc. now destruct (es !! name). }
  unfold get_recommendations.
  destruct (get_scorecard es name) as [sc' es']. simpl in Hsc. subst sc'.
  simpl flat_map.
  destruct (Py.lt (get_average t sc CORRECTNESS 30) 60) eqn:H1;
  destruct (Py.lt (get_average t sc EFFICIENCY 30) 60) eqn:H2;
  destruct (Py.lt (get_average t sc COMPLIANCE 30) 60) eqn:H3;
  destruct (Py.lt (get_average t sc COST 30) 60) eqn:H4;
  destruct (Py.lt (get_average t sc STABILITY 30) 60) eqn:H5;
  destruct (Py.lt (get_success_rate sc) (8 # 10)) eqn:H6;
  destruct (5 <? escalations sc)%nat eqn:H7;
  simpl; (split; [| lia]);
  try (split; [discriminate |];
       intros (Ha & Hr & He);
       first [ apply py_lt_true in H1; specialize (Ha CORRECTNESS); lra
             | apply py_lt_true in H2; specialize (Ha EFFICIENCY); lra
             | apply py_lt_true in H3; specialize (Ha COMPLIANCE); lra
             | apply py_lt_true in H4; specialize (Ha COST); lra
             | apply py_lt_true in H5; specialize (Ha STABILITY); lra
             | apply py_lt_true in H6; lra
             | apply Nat.ltb_lt in H7; lia ]).
  split; [intros _ | reflexivity].
  apply Nat.ltb_ge in H7.
  assert (Hge : forall a b, Py.lt a b = false -> b <= a).
  { intros a b Hf. unfold Py.lt in Hf. apply negb_false_iff in Hf.
    now apply Qle_bool_iff. }
  repeat split; auto. intros []; now apply Hge.
Qed.

End WithFormats.

End EvaluationFacts.

Section EvaluationExamples.
Import Evaluation.
Local Open Scope Q_scope.

Lemma task_counters_add_up_witness :
  exists sc,
    record_all Samples.five_good_calls
      {[ "GoodAgent" := new_scorecard "GoodAgent" ]} !! "GoodAgent" = Some sc
    /\ balanced sc.
Proof.
  destruct (record_all Samples.five_good_calls
              {[ "GoodAgent" := new_scorecard "GoodAgent" ]} !! "GoodAgent")
    as [sc |] eqn:Hsc; [| vm_compute in Hsc; discriminate].
  exists sc. split; [reflexivity |].
  refine (task_counters_add_up Samples.five_good_calls
            {[ "GoodAgent" := new_scorecard "GoodAgent" ]} _ "GoodAgent" sc Hsc).
  intros who sc0 Hsc0. apply lookup_singleton_Some in Hsc0 as [_ <-].
  reflexivity.
Defined.

Lemma other_workers_untouched_witness :
  record_all Samples.five_good_calls
    {[ "ReviewerAgent" := new_scorecard "ReviewerAgent" ]} !! "ReviewerAgent"
  = ({[ "ReviewerAgent" := new_scorecard "ReviewerAgent" ]}
       : gmap string AgentScorecard) !! "ReviewerAgent".
Proof.
  apply (other_workers_untouched Samples.five_good_calls).
  unfold Samples.five_good_calls. simpl. repeat constructor; simpl; discriminate.
Defined.

Lemma scores_stay_in_range_witness :
  (forall c,
      0 <= get_average 5 Samples.scored c 30
      /\ get_average 5 Samples.scored c 30 <= 100)
  /\ 0 <= get_overall_score 5 Samples.scored
  /\ get_overall_score 5 Samples.scored <= 100.
Proof.
  apply (scores_stay_in_range 5 Samples.scored).
  unfold Samples.scored. apply add_score_within.
  - unfold Qle. simpl. lia.
  - unfold Qle. simpl. lia.
  - apply new_scorecard_within.
Defined.

Lemma adjust_autonomy_step_witness :
  autonomy_level (adjust_autonomy 5 Samples.struggling)
  <= autonomy_level Samples.struggling
  /\ autonomy_level (adjust_autonomy 5 Samples.struggling)
     < autonomy_level Samples.struggling.
Proof.
  destruct (adjust_autonomy_step 5 Samples.struggling) as (_ & Hdown & _).
  - split; simpl; unfold Qle; simpl; lia.
  - destruct Hdown as [Hle Hlt].
    + right. vm_compute. reflexivity.
    + split; [exact Hle | apply Hlt; vm_compute; reflexivity].
Defined.

Lemma to_scores_in_range_witness :
  (to_scores Samples.feedback).*1 = [ CORRECTNESS; COMPLIANCE; EFFICIENCY ]
  /\ Forall (fun cs => 0 <= cs.2 /\ cs.2 <= 100) (to_scores Samples.feedback).
Proof.
  apply (to_scores_in_range Samples.feedback); simpl; lia.
Defined.

Lemma build_result_recorded_witness :
  let sc := default (new_scorecard "BuildTestAgent")
              ((∅ : gmap string AgentScorecard) !! "BuildTestAgent") in
  let es' := record_build_result 5 ∅ "BuildTestAgent" true 85 9 1 in
  (forall who, who <> "BuildTestAgent" ->
     es' !! who = (∅ : gmap string AgentScorecard) !! who)
  /\ exists sc',
      es' !! "BuildTestAgent" = Some sc'
      /\ total_tasks sc' = S (total_tasks sc)
      /\ successful_tasks sc'
         = (successful_tasks sc + (if true && (1 =? 0)%Z then 1 else 0))%nat
      /\ (balanced sc -> balanced sc')
      /\ (autonomy_in_bounds sc -> autonomy_in_bounds sc')
      /\ (entries_within 0 100 sc -> entries_within 0 100 sc').
Proof.
  apply (build_result_recorded 5 ∅ "BuildTestAgent" true 85 9 1); lia.
Defined.

Lemma process_feedback_keeps_ranges_witness :
  exists sc,
    (@process_feedback Samples.formats 5 ∅ "BuildTestAgent" Samples.feedback
       (Some "t1")).2 !! "BuildTestAgent" = Some sc
    /\ entries_within 0 100 sc
    /\ (0 <= get_overall_score 5 sc /\ get_overall_score 5 sc <= 100)
    /\ autonomy_in_bounds sc
    /\ total_tasks sc
       = S (total_tasks (default (new_scorecard "BuildTestAgent")
                           ((∅ : gmap string AgentScorecard) !! "BuildTestAgent")))
    /\ successful_tasks sc
       = (successful_tasks (default (new_scorecard "BuildTestAgent")
                              ((∅ : gmap string AgentScorecard)
                                 !! "BuildTestAgent"))
          + (if build_success Samples.feedback && test_success Samples.feedback
             then 1 else 0))%nat.
Proof.
  apply (@process_feedback_keeps_ranges Samples.formats 5 ∅ "BuildTestAgent"
           Samples.feedback (Some "t1")).
  - simpl. lia.
  - simpl. lia.
  - rewrite lookup_empty. apply new_scorecard_within.
  - rewrite lookup_empty. split; simpl; unfold Qle; simpl; lia.
Defined.

End EvaluationExamples.


(** ** The wrapper's normal return, escalation and authority *)

Section AgentFacts.
Import Contracts Agents.
Context `{Memory.Fingerprint}.

(** X18: authority levels order the agents strictly: one agent can override
    another exactly when the other needs its approval; no agent can override
    its own level or needs approval at it; two agents never override each
    other, and when neither can override the other their levels are equal. *)
Theorem authority_is_a_strict_order (a b : BaseAgent) :
  can_override a (authority_level (config b))
  = requires_approval_from b (authority_level (config a))
  /\ can_override a (authority_level (config a)) = false
  /\ requires_approval_from a (authority_level (config a)) = false
  /\ (can_override a (authority_level (config b)) = true ->
      can_override b (authority_level (config a)) = false)
  /\ (can_override a (authority_level (config b)) = false ->
      can_override b (authority_level (config a)) = false ->
      authority_level (config a) = authority_level (config b)).
Proof.
  unfold can_override, requires_approval_from.
  split; [reflexivity |]. split; [apply Z.ltb_irrefl |].
  split; [apply Z.ltb_irrefl |]. split.
  - intros Hlt%Z.ltb_lt. apply Z.ltb_ge. lia.
  - intros H1%Z.ltb_ge H2%Z.ltb_ge. lia.
Qed.

Lemma execute_unfold (a : BaseAgent) (inp : Envelope) (w : World) :
  let a' := begin_task a (request_id inp) (now w) in
  execute a inp w
  = if any_error (validate inp) then
      (Raised (Py.ContractViolationError
                 ("Input contract violation: " +:+ messages_repr (validate inp))),
       a', w)
    else
      match _execute_impl a inp (remember_task a' inp w) with
      | (Returned out, w1) =>
          if any_error (validate out) then
            let w2 := _record_failure a' "output_validation_failed" w1 in
            let e := Py.ContractViolationError
                       ("Output contract violation: "
                          +:+ messages_repr (validate out)) in
            (Raised e, a', _record_failure a' (Py.str e) w2)
          else (Returned out, a', _record_success a' w1)
      | (Raised e, w1) => (Raised e, a', _record_failure a' (Py.str e) w1)
      end.
Proof.
  intros a'. unfold execute, validate_input. fold a'.
  destruct (any_error (validate inp)); [reflexivity |].
  unfold execute_try, validate_output.
  change (_execute_impl a') with (_execute_impl a).
  destruct (_execute_impl a inp (remember_task a' inp w)) as [[out | e] w1];
    [| reflexivity].
  destruct (any_error (validate out)); reflexivity.
Qed.

(** X19: [execute] returns normally exactly when the input has no
    error-severity violation, the worker-specific logic (run on the stores
    that already hold the task's working-memory entry) returns an output, and
    that output has no error-severity violation; the agent then tracks the
    task and the stores are those the logic left, with the success recorded. *)
Theorem execute_returns_iff (a : BaseAgent) (inp : Envelope) (w : World)
    (out : Envelope) (a' : BaseAgent) (w' : World) :
  execute a inp w = (Returned out, a', w')
  <-> any_error (validate inp) = false
      /\ a' = begin_task a (request_id inp) (now w)
      /\ exists w1,
           _execute_impl a inp (remember_task a' inp w) = (Returned out, w1)
           /\ any_error (validate out) = false
           /\ w' = _record_success a' w1.
Proof.
  rewrite execute_unfold. cbv zeta.
  destruct (any_error (validate inp)) eqn:Hin.
  { split; [discriminate | intros (? & _); discriminate]. }
  split.
  - intros Hex. split; [reflexivity |].
    destruct (_execute_impl a inp _) as [[out1 | e] w1] eqn:Himpl.
    + destruct (any_error (validate out1)) eqn:Hout; [discriminate |].
      injection Hex as <- <- <-. split; [reflexivity |].
      exists w1. rewrite Himpl. auto.
    + discriminate.
  - intros (_ & -> & w1 & Himpl & Hout & ->).
    rewrite Himpl, Hout. reflexivity.
Qed.

Lemma py_min_100_le (x : Q) : (Py.min 100 x <= 100)%Q.
Proof. unfold Py.min. destruct (Qlt_le_dec x 100); lra. Qed.

(** X20: a normal return of [execute] is recorded as exactly one successful
    task of the agent: total and successful tasks grow by one, failed tasks
    and all other scorecards stay, no memory entry is added after the
    worker-specific logic ran, and an efficiency score
    [min(100, 100 - minutes * 10)] is filed under the task id, which is at
    most 100 and is negative exactly when the task took more than 600
    seconds. *)
Theorem success_is_recorded (a : BaseAgent) (inp : Envelope) (w : World)
    (out : Envelope) (a' : BaseAgent) (w' : World) :
  execute a inp w = (Returned out, a', w') ->
  let who := name (config a) in
  exists w1,
    _execute_impl a inp (remember_task a' inp w) = (Returned out, w1)
    /\ memory_store w' = memory_store w1 /\ now w' = now w1
    /\ (forall other, other <> who ->
          evaluation w' !! other = evaluation w1 !! other)
    /\ is_Some (evaluation w' !! who)
    /\ Evaluation.total_tasks (scorecard_of w' who)
       = S (Evaluation.total_tasks (scorecard_of w1 who))
    /\ Evaluation.successful_tasks (scorecard_of w' who)
       = S (Evaluation.successful_tasks (scorecard_of w1 who))
    /\ Evaluation.failed_tasks (scorecard_of w' who)
       = Evaluation.failed_tasks (scorecard_of w1 who)
    /\ exists old e,
         Evaluation.scores (scorecard_of w' who) !! "efficiency" = Some (old ++ [e])%list
         /\ Evaluation.task_id e = Some (request_id inp)
         /\ Evaluation.score e
            = Py.min 100 (100 - inject_Z (now w1 - now w) / 1000000 / 60 * 10)%Q
         /\ (Evaluation.score e <= 100)%Q
         /\ ((0 <= Evaluation.score e)%Q <-> (now w1 - now w <= 600000000)%Z).
Proof.
  intros Hex who. apply execute_returns_iff in Hex as (Hin & -> & w1 & Himpl & Hout & ->).
  exists w1. split; [exact Himpl |].
  unfold _record_success, begin_task.
  cbn [_task_start_time _current_task_id config]. fold who.
  rewrite record_task_result_unfold.
  set (sc0 := default (Evaluation.new_scorecard who) (evaluation w1 !! who)).
  split; [reflexivity |]. split; [reflexivity |]. simpl evaluation.
  split; [intros other Hne; now rewrite lookup_insert_ne |].
  split; [rewrite lookup_insert_eq; eauto |].
  unfold scorecard_of. simpl evaluation. rewrite lookup_insert_eq. simpl default.
  fold sc0.
  unfold Evaluation.recorded.
  match goal with |- context [Evaluation.adjust_autonomy ?t ?sc] =>
    destruct (adjust_autonomy_fields t sc) as (Hs & Ht & Hsu & Hf & _);
    rewrite Hs, Ht, Hsu, Hf end.
  simpl. split; [lia |]. split; [lia |]. split; [reflexivity |].
  set (d := (100 - inject_Z (now w1 - now w) / 1000000 / 60 * 10)%Q).
  eexists _, _. rewrite lookup_insert_eq. split; [reflexivity |]. simpl.
  split; [reflexivity |]. split; [reflexivity |].
  split; [apply py_min_100_le |].
  assert (Hd : (d == 100 - inject_Z (now w1 - now w) * (1 # 6000000))%Q)
    by (unfold d; field).
  unfold Py.min. destruct (Qlt_le_dec d 100) as [Hlt | Hge].
  - rewrite Hd. split.
    + intros H0.
      assert (Hq : (inject_Z (now w1 - now w) <= inject_Z 600000000)%Q).
      { assert (inject_Z 600000000 == 600000000)%Q by reflexivity. lra. }
      now rewrite <- Zle_Qle in Hq.
    + intros Hz. rewrite Zle_Qle in Hz.
      assert (inject_Z 600000000 == 600000000)%Q by reflexivity. lra.
  - split; [intros _ | intros _; lra].
    rewrite Hd in Hge.
    assert (Hq : (inject_Z (now w1 - now w) <= inject_Z 0)%Q).
    { assert (inject_Z 0 == 0)%Q by reflexivity. lra. }
    rewrite <- Zle_Qle in Hq. lia.
Qed.

(** X21: the worker-level [escalate] returns the dictionary of an unresolved
    conflict owned by [authority_<target>] with the agent as only participant,
    stores that dictionary in memory under project scope (slow decay) with the
    agent as source and tags escalation and conflict, and raises the agent's
    escalation count by one; task counters, autonomy, scores, other memory
    entries, other scorecards and the clock are unchanged. *)
Theorem escalate_is_persisted (uuid : string) (a : BaseAgent) (issue : string)
    (target_authority : Z) (evidence : list Py.value) (w : World) :
  let who := name (config a) in
  let r := escalate uuid a issue target_authority evidence w in
  r.1 = to_dict
          {| conflict_id := uuid; topic := issue; agents_involved := [who];
             Contracts.evidence := evidence;
             decision_owner := "authority_" +:+ pretty target_authority;
             resolution := None; created_at := now w; resolved_at := None |}
  /\ (exists e, memory_store r.2 !! Memory._generate_id r.1 = Some e
              /\ Memory.content e = r.1
              /\ Memory.scope e = Memory.PROJECT
              /\ Memory.decay_policy e = Memory.SLOW
              /\ Memory.source e = who
              /\ Memory.tags e = ["escalation"; "conflict"])
  /\ (forall k, k <> Memory._generate_id r.1 ->
        memory_store r.2 !! k = memory_store w !! k)
  /\ is_Some (evaluation r.2 !! who)
  /\ Evaluation.escalations (scorecard_of r.2 who)
     = S (Evaluation.escalations (scorecard_of w who))
  /\ Evaluation.total_tasks (scorecard_of r.2 who)
     = Evaluation.total_tasks (scorecard_of w who)
  /\ Evaluation.successful_tasks (scorecard_of r.2 who)
     = Evaluation.successful_tasks (scorecard_of w who)
  /\ Evaluation.failed_tasks (scorecard_of r.2 who)
     = Evaluation.failed_tasks (scorecard_of w who)
  /\ Evaluation.autonomy_level (scorecard_of r.2 who)
     = Evaluation.autonomy_level (scorecard_of w who)
  /\ Evaluation.scores (scorecard_of r.2 who)
     = Evaluation.scores (scorecard_of w who)
  /\ (forall other, other <> who -> evaluation r.2 !! other = evaluation w !! other)
  /\ now r.2 = now w.
Proof.
  intros who r.
  assert (Hr : r = (to_dict
          {| conflict_id := uuid; topic := issue; agents_involved := [who];
             Contracts.evidence := evidence;
             decision_owner := "authority_" +:+ pretty target_authority;
             resolution := None; created_at := now w; resolved_at := None |},
          set_evaluation
            (set_memory w
               (Memory.remember who (now w) (memory_store w)
                  (to_dict
                     {| conflict_id := uuid; topic := issue;
                        agents_involved := [who];
                        Contracts.evidence := evidence;
                        decision_owner := "authority_" +:+ pretty target_authority;
                        resolution := None; created_at := now w;
                        resolved_at := None |})
                  Memory.PROJECT 1 (Some ["escalation"; "conflict"])).2)
            (<[who := Evaluation.record_escalation (scorecard_of w who)]>
               (evaluation w)))).
  { unfold r, escalate, scorecard_of, Evaluation.get_scorecard. fold who.
    cbn [evaluation set_memory].
    destruct (evaluation w !! who) as [sc |] eqn:Hsc; simpl; [reflexivity |].
    now rewrite insert_insert_eq. }
  assert (Hsc : scorecard_of r.2 who
                = Evaluation.record_escalation (scorecard_of w who)).
  { rewrite Hr. unfold scorecard_of at 1. cbn [snd]. unfold set_evaluation.
    cbn [evaluation]. now rewrite lookup_insert_eq. }
  rewrite Hsc. rewrite Hr. cbn [fst snd]. split; [reflexivity |].
  unfold Memory.remember, Memory.store. cbn [fst snd set_evaluation set_memory
    memory_store evaluation now].
  split.
  { eexists. rewrite lookup_insert_eq. split; [reflexivity |]. repeat split. }
  split; [intros k Hk; now rewrite lookup_insert_ne |].
  split; [rewrite lookup_insert_eq; eauto |].
  split; [unfold Evaluation.record_escalation;
          cbn [Evaluation.escalations]; apply Nat.add_1_r |].
  do 5 (split; [reflexivity |]).
  split; [intros other Hne; now rewrite lookup_insert_ne | reflexivity].
Qed.

End AgentFacts.


(** ** Output contracts *)

Section ContractFacts.
Import Contracts.
Local Open Scope list_scope.

Lemma any_error_app (l1 l2 : list Violation) :
  any_error (l1 ++ l2) = any_error l1 || any_error l2.
Proof. unfold any_error. apply existsb_app. Qed.

(** A requirement is complete when it has an id and a description. *)
Lemma requirements_rest_error (reqs : list (list (string * Py.value))) :
  any_error
    (flat_map
       (fun req =>
          if negb (has_key "id" req) || negb (has_key "description" req) then
            [ violation "REQ-002" "error"
                "Each requirement must have id and description" ]
          else []) reqs) = false
  <-> Forall (fun req => has_key "id" req = true
                         /\ has_key "description" req = true) reqs.
Proof.
  induction reqs as [| req reqs IH]; simpl.
  - split; [constructor | reflexivity].
  - rewrite any_error_app, orb_false_iff, IH, Forall_cons.
    destruct (has_key "id" req), (has_key "description" req); simpl;
      intuition congruence.
Qed.

Lemma requirements_rest_length (reqs : list (list (string * Py.value))) :
  (length
     (flat_map
        (fun req =>
           if negb (has_key "id" req) || negb (has_key "description" req) then
             [ violation "REQ-002" "error"
                 "Each requirement must have id and description" ]
           else []) reqs) <= length reqs)%nat.
Proof.
  induction reqs as [| req reqs IH]; simpl; [lia |].
  rewrite length_app. destruct (_ || _); simpl; lia.
Qed.

(** X22: a requirements output passes validation exactly when it has at
    least one requirement and every requirement has an id and a description;
    all its violations are of error severity (so it has none iff it passes),
    and there are at most as many as requirements (one when there is none). *)
Theorem requirements_output_valid_iff (o : RequirementsOutput.t) :
  (any_error (RequirementsOutput.validate o) = false
   <-> RequirementsOutput.requirements o <> []
       /\ Forall (fun req => has_key "id" req = true
                             /\ has_key "description" req = true)
            (RequirementsOutput.requirements o))
  /\ (RequirementsOutput.validate o = []
      <-> any_error (RequirementsOutput.validate o) = false)
  /\ Forall (fun v => severity v = "error") (RequirementsOutput.validate o)
  /\ (length (RequirementsOutput.validate o)
      <= Nat.max 1 (length (RequirementsOutput.requirements o)))%nat.
Proof.
  unfold RequirementsOutput.validate.
  set (rest := flat_map _ (RequirementsOutput.requirements o)).
  assert (Hsev : Forall (fun v => severity v = "error") rest).
  { unfold rest. apply Forall_flat_map, Forall_forall. intros req _.
    destruct (_ || _); repeat constructor. }
  assert (Hlen : (length rest <= length (RequirementsOutput.requirements o))%nat)
    by apply requirements_rest_length.
  assert (Hnil : forall l, Forall (fun v => severity v = "error") l ->
                           (l = [] <-> any_error l = false)).
  { intros [| v l] Hl; simpl; [tauto |].
    apply Forall_cons in Hl as [-> _]. simpl. split; discriminate. }
  pose proof (requirements_rest_error (RequirementsOutput.requirements o)) as Hrest.
  fold rest in Hrest.
  destruct (RequirementsOutput.requirements o) as [| req reqs] eqn:Hreqs.
  - split; [simpl; split; [discriminate | intros [? _]; congruence] |].
    split; [simpl; split; discriminate |].
    split; [constructor; [reflexivity | exact Hsev] |].
    simpl in *. lia.
  - simpl app. split; [rewrite Hrest; split; [intros ?; split; [discriminate | auto]
                                             | tauto] |].
    split; [now apply Hnil |]. split; [exact Hsev |].
    simpl in Hlen |- *. lia.
Qed.

(** X23: which outputs fail validation: a requirements output without
    requirements or with a requirement lacking id or description, an
    architecture output without components (missing invariants only warn), a
    build/test output whose build or tests failed; implementation, code review
    and integration outputs never do, whatever verdict or success flag they
    carry. *)
Theorem outputs_that_fail_validation (o : StageOutput) :
  any_error (output_validate o) = true
  <-> match o with
      | Requirements r =>
          RequirementsOutput.requirements r = []
          \/ Exists (fun req => has_key "id" req = false
                                \/ has_key "description" req = false)
               (RequirementsOutput.requirements r)
      | Architecture a => ArchitectureOutput.components a = []
      | BuildTest b =>
          BuildTestOutput.build_success b = false
          \/ BuildTestOutput.test_success b = false
      | Implementation _ | CodeReview _ | Integration _ => False
      end.
Proof.
  destruct o as [r | a | i | c | b | g]; simpl.
  - unfold RequirementsOutput.validate.
    pose proof (requirements_rest_error (RequirementsOutput.requirements r)) as Hrest.
    destruct (RequirementsOutput.requirements r) as [| req reqs].
    + simpl. split; auto.
    + simpl app. rewrite <- not_false_iff_true, Hrest, <- Exists_Forall_neg.
      * split; [intros Hex; right | intros [? | Hex]; [discriminate |]];
          (eapply Exists_impl; [exact Hex |]); intros x; simpl;
          destruct (has_key "id" x), (has_key "description" x); intuition congruence.
      * intros x. destruct (has_key "id" x), (has_key "description" x);
          intuition congruence.
  - unfold ArchitectureOutput.validate.
    destruct (ArchitectureOutput.components a), (ArchitectureOutput.invariants a);
      simpl; split; auto; discriminate.
  - unfold ImplementationOutput.validate.
    destruct (ImplementationOutput.files_created i),
      (ImplementationOutput.files_modified i); simpl; split;
      try discriminate; tauto.
  - split; [discriminate | tauto].
  - unfold BuildTestOutput.validate.
    destruct (BuildTestOutput.build_success b), (BuildTestOutput.test_success b);
      simpl; intuition congruence.
  - split; [discriminate | tauto].
Qed.

End ContractFacts.

Section WrapperOnStageOutputs.
Import Contracts Agents.
Context `{Memory.Fingerprint}.

(** X24: what [execute] does with the stage output its worker returns: an
    implementation, code review or integration output is always returned; a
    build/test output is returned when build and tests succeeded and otherwise
    raises [ContractViolationError] naming the failed parts, with the failure
    recorded twice; a requirements or architecture output is returned when it
    passes its validation. *)
Theorem stage_output_through_wrapper (a : BaseAgent) (inp : Envelope) (w : World)
    (rid : string) (ts : Z) (ag : option string) (o : StageOutput) (w1 : World) :
  any_error (validate inp) = false ->
  _execute_impl a inp
    (remember_task (begin_task a (request_id inp) (now w)) inp w)
  = (Returned (envelope rid ts ag o), w1) ->
  match o with
  | Implementation _ | CodeReview _ | Integration _ =>
      (execute a inp w).1.1 = Returned (envelope rid ts ag o)
  | BuildTest b =>
      if BuildTestOutput.build_success b && BuildTestOutput.test_success b then
        (execute a inp w).1.1 = Returned (envelope rid ts ag o)
      else
        (execute a inp w).1.1
        = Raised (Py.ContractViolationError
                    ("Output contract violation: "
                       +:+ (if BuildTestOutput.build_success b
                            then "['Tests failed']"
                            else if BuildTestOutput.test_success b
                                 then "['Build failed']"
                                 else "['Build failed', 'Tests failed']")))
        /\ failures_recorded 2 (name (config a)) w1 (execute a inp w).2
  | Requirements _ | Architecture _ =>
      any_error (output_validate o) = false ->
      (execute a inp w).1.1 = Returned (envelope rid ts ag o)
  end.
Proof.
  intros Hin Himpl. rewrite execute_unfold. cbv zeta. rewrite Hin, Himpl.
  cbn [validate envelope].
  destruct o as [r | ar | i | c | b | g].
  - intros ->. reflexivity.
  - intros ->. reflexivity.
  - cbn [output_validate]. unfold ImplementationOutput.validate.
    destruct (ImplementationOutput.files_created i),
      (ImplementationOutput.files_modified i); reflexivity.
  - reflexivity.
  - cbn [output_validate]. unfold BuildTestOutput.validate.
    destruct (BuildTestOutput.build_success b), (BuildTestOutput.test_success b);
      cbn; try reflexivity;
      (split; [reflexivity |];
       match goal with |- failures_recorded 2 _ _ (_record_failure ?a' ?r2 ?w2) =>
         apply (failures_recorded_trans 1 1 _ w1 w2);
           [apply (record_failure_once a') | apply (record_failure_once a')]
       end).
  - reflexivity.
Qed.

End WrapperOnStageOutputs.


(** ** Runs that complete, and what every run reports *)

Section HappyPath.
Import Contracts Agents Orchestrator.
Context `{Memory.Fingerprint} `{Envelopes}.
Local Open Scope list_scope.

Lemma value_inj (s s' : WorkflowStage) : value s = value s' -> s = s'.
Proof. destruct s, s'; simpl; intros Hv; try reflexivity; discriminate. Qed.

Lemma task_id_inj (wid : string) (s s' : WorkflowStage) :
  task_id wid s = task_id wid s' -> s = s'.
Proof.
  unfold task_id. intros Heq.
  apply (inj (String.app wid)) in Heq. apply (inj (String.app "-")) in Heq.
  now apply value_inj.
Qed.

Lemma same_logic_refl m : same_logic m m.
Proof. intros ag. destruct (m !! ag); auto. Qed.

Lemma same_logic_trans m1 m2 m3 :
  same_logic m1 m2 -> same_logic m2 m3 -> same_logic m1 m3.
Proof.
  intros H12 H23 ag. specialize (H12 ag). specialize (H23 ag).
  destruct (m1 !! ag), (m2 !! ag), (m3 !! ag); try tauto.
  destruct H12, H23. split; congruence.
Qed.

Lemma same_logic_begin m ag a tid t :
  m !! ag = Some a -> same_logic m (<[ag := begin_task a tid t]> m).
Proof.
  intros Ha ag'. destruct (decide (ag = ag')) as [<- | Hne].
  - rewrite lookup_insert_eq, Ha. auto.
  - rewrite lookup_insert_ne by assumption. destruct (m !! ag'); auto.
Qed.

Lemma succeeds_at_same s a a' :
  _execute_impl a' = _execute_impl a -> succeeds_at s a -> succeeds_at s a'.
Proof. intros Heq Hs ctx outs w. rewrite Heq. apply Hs. Qed.

(** The dependency test passes once the stages seen so far are completed. *)
Lemma deps_met_ordered wid def (tasks : gmap WorkflowStage WorkflowTask)
    (seen : list WorkflowStage) t deps :
  dependencies t = List.map (task_id wid) deps ->
  forallb (fun d => bool_decide (d ∈ seen)
                    || negb (bool_decide (d ∈ stage_of <$> def))) deps = true ->
  (forall s, s ∈ seen -> status_of tasks s = Some COMPLETED) ->
  deps_met wid def tasks t = true.
Proof.
  intros Hd Hord Hseen. unfold deps_met. apply forallb_forall.
  intros [[s ag] ds] Hin. apply filter_In in Hin as [Hin Hdep].
  apply bool_decide_eq_true in Hdep. rewrite Hd in Hdep.
  apply list_elem_of_fmap in Hdep as (d & Hid & Hd').
  apply task_id_inj in Hid. subst d.
  rewrite forallb_forall in Hord.
  specialize (Hord s ltac:(now apply list_elem_of_In)).
  apply orb_true_iff in Hord as [Hs | Hs].
  - apply bool_decide_eq_true in Hs. specialize (Hseen s Hs).
    unfold status_of in Hseen. destruct (tasks !! s) as [ts |]; [| discriminate].
    simpl in Hseen. apply bool_decide_eq_true. congruence.
  - apply negb_true_iff, bool_decide_eq_false in Hs. exfalso. apply Hs.
    apply list_elem_of_fmap. exists (s, ag, ds). split; [reflexivity |].
    now apply list_elem_of_In.
Qed.

Lemma execute_succeeds (s : WorkflowStage) (a : BaseAgent) (inp : Envelope)
    (w : World) :
  any_error (validate inp) = false ->
  (forall w0, exists rid ts ag o w1,
      _execute_impl a inp w0 = (Returned (envelope rid ts ag o), w1)
      /\ output_of_stage s o = true
      /\ any_error (output_validate o) = false) ->
  exists rid ts ag o w',
    execute a inp w
    = (Returned (envelope rid ts ag o), begin_task a (request_id inp) (now w), w')
    /\ output_of_stage s o = true.
Proof.
  intros Hin Himpl. rewrite execute_unfold. cbv zeta. rewrite Hin.
  destruct (Himpl (remember_task (begin_task a (request_id inp) (now w)) inp w))
    as (rid & ts & ag & o & w1 & -> & Ho & Hv).
  cbn [validate envelope]. rewrite Hv. eauto 10.
Qed.

(** The context update returns on an output of the stage's contract class. *)
Lemma update_context_returns s rid ts ag (o : StageOutput) ctx :
  output_of_stage s o = true ->
  exists ctx', _update_context s (envelope rid ts ag o) ctx = (None, ctx').
Proof. destruct s, o; simpl; intros Ho; try discriminate; eauto. Qed.

(** A stage whose dependencies are met and whose worker succeeds completes. *)
Lemma run_stage_completes wid def s ag (st : RunState) t a :
  inputs_valid ->
  tasks st !! s = Some t ->
  deps_met wid def (tasks st) t = true ->
  agents st !! ag = Some a ->
  succeeds_at s a ->
  exists out st',
    run_stage wid def s ag st = (Continue, st')
    /\ (exists t', tasks st' = <[s := t']> (tasks st)
                   /\ status t' = COMPLETED /\ same_plan t t')
    /\ completed_stages st' = completed_stages st ++ [s]
    /\ failed_stages st' = failed_stages st
    /\ stage_outputs st' = <[s := out]> (stage_outputs st)
    /\ same_logic (agents st) (agents st').
Proof.
  intros Hvalid Ht Hdeps Ha Hok. unfold run_stage. rewrite Ht, Hdeps.
  cbn [negb tasks agents stores context stage_outputs completed_stages failed_stages].
  rewrite Ha.
  set (inp := _prepare_input s (context st) (stage_outputs st)).
  destruct (execute_succeeds s a inp (stores st) (Hvalid _ _ _)
              (fun w0 => Hok (context st) (stage_outputs st) w0))
    as (rid & ts & pa & o & w' & -> & Ho).
  destruct (update_context_returns s rid ts pa o (context st) Ho) as (ctx' & ->).
  exists (envelope rid ts pa o). eexists. split; [reflexivity |].
  cbn [tasks agents stores context stage_outputs completed_stages failed_stages].
  split.
  { eexists. rewrite insert_insert_eq. split; [reflexivity |].
    split; [reflexivity |]. repeat split. }
  repeat split. now apply same_logic_begin.
Qed.

Lemma planned_insert wid def (tasks : gmap WorkflowStage WorkflowTask) s t t' :
  planned wid def tasks -> tasks !! s = Some t -> same_plan t t' ->
  planned wid def (<[s := t']> tasks).
Proof.
  intros Hpl Ht (Hd & Hr & Hm) x agx depsx Hx.
  destruct (Hpl x agx depsx Hx) as (tx & Htx & Hdx & Hmx & Hrx).
  destruct (decide (s = x)) as [-> | Hne].
  - rewrite lookup_insert_eq. exists t'. simplify_eq.
    repeat split; try congruence. intros Hroute. rewrite Hr. auto.
  - rewrite lookup_insert_ne by assumption. eauto 10.
Qed.

(** Over lines whose workers all succeed, visited in dependency order, the
    loop completes every stage and never leaves early. *)
Lemma run_stages_complete wid def :
  NoDup (stage_of <$> def) -> inputs_valid ->
  forall rest done post (st : RunState),
    def = done ++ rest ++ post ->
    ordered_from (stage_of <$> def) (stage_of <$> done) rest = true ->
    (forall s ag deps, (s, ag, deps) ∈ rest ->
       exists a, agents st !! ag = Some a /\ succeeds_at s a) ->
    planned wid def (tasks st) ->
    (forall s, s ∈ stage_of <$> done -> status_of (tasks st) s = Some COMPLETED) ->
    exists st',
      run_stages wid def rest st = (Continue, st')
      /\ planned wid def (tasks st')
      /\ ((forall x tx, tasks st !! x = Some tx -> retry_count tx = 0%nat) ->
          forall x tx, tasks st' !! x = Some tx -> retry_count tx = 0%nat)
      /\ (forall s, s ∈ stage_of <$> (done ++ rest) ->
            status_of (tasks st') s = Some COMPLETED)
      /\ (forall s, s ∈ stage_of <$> rest -> is_Some (stage_outputs st' !! s))
      /\ (forall s, s ∉ stage_of <$> rest ->
            tasks st' !! s = tasks st !! s
            /\ stage_outputs st' !! s = stage_outputs st !! s)
      /\ completed_stages st' = completed_stages st ++ (stage_of <$> rest)
      /\ failed_stages st' = failed_stages st
      /\ same_logic (agents st) (agents st').
Proof.
  intros Hnd Hvalid. induction rest as [| [[s ag] deps] rest IH];
    intros done post st Hdef Hord Hag Hpl Hdone.
  - exists st. simpl. rewrite !app_nil_r.
    repeat split; auto using same_logic_refl. intros s Hs. inversion Hs.
  - simpl in Hord. apply andb_true_iff in Hord as [Hdeps Hord].
    assert (Hin : (s, ag, deps) ∈ def).
    { rewrite Hdef. apply elem_of_app. right. apply elem_of_app. left. left. }
    destruct (Hpl s ag deps Hin) as (t & Ht & Hd & _).
    destruct (Hag s ag deps ltac:(left)) as (a & Ha & Hok).
    destruct (run_stage_completes wid def s ag st t a Hvalid Ht
                (deps_met_ordered wid def (tasks st) _ t deps Hd Hdeps Hdone)
                Ha Hok)
      as (out & st1 & Hrun & (t' & Htasks & Hst & Hplan) & Hc & Hf & Ho & Hsame).
    assert (Hfresh : s ∉ stage_of <$> rest).
    { rewrite Hdef, !fmap_app, fmap_cons in Hnd.
      apply NoDup_app in Hnd as (_ & _ & Hnd).
      apply NoDup_app in Hnd as (Hnd & _ & _).
      now apply NoDup_cons in Hnd as [Hnd _]. }
    destruct (IH (done ++ [(s, ag, deps)]) post st1) as
      (st' & Hrun' & Hpl' & Hretry & Hall & Houts & Hframe & Hc' & Hf' & Hsame').
    + rewrite Hdef, <- !app_assoc. reflexivity.
    + rewrite fmap_app. exact Hord.
    + intros s2 ag2 deps2 Hin2.
      destruct (Hag s2 ag2 deps2 ltac:(now right)) as (a2 & Ha2 & Hok2).
      specialize (Hsame ag2). rewrite Ha2 in Hsame.
      destruct (agents st1 !! ag2) as [a2' |]; [| contradiction].
      exists a2'. split; [reflexivity |].
      apply (succeeds_at_same s2 a2 a2'); tauto.
    + rewrite Htasks. now apply (planned_insert wid def (tasks st) s t t').
    + intros x Hx. rewrite fmap_app in Hx. apply elem_of_app in Hx as [Hx | Hx].
      * rewrite Htasks. unfold status_of.
        destruct (decide (s = x)) as [-> | Hne].
        -- rewrite lookup_insert_eq. simpl. congruence.
        -- rewrite lookup_insert_ne by assumption. now apply Hdone.
      * apply list_elem_of_singleton in Hx. subst x. rewrite Htasks.
        unfold status_of. rewrite lookup_insert_eq. simpl. congruence.
    + exists st'. split; [simpl; rewrite Hrun; exact Hrun' |].
      split; [exact Hpl' |]. split.
      { intros Hzero. apply Hretry. intros x tx. rewrite Htasks.
        destruct (decide (s = x)) as [<- | Hne].
        - rewrite lookup_insert_eq. intros [= <-].
          destruct Hplan as (_ & -> & _). now apply (Hzero s).
        - rewrite lookup_insert_ne by assumption. apply Hzero. }
      split.
      { intros x Hx. apply Hall. rewrite <- app_assoc. exact Hx. }
      split.
      { intros x Hx. rewrite fmap_cons in Hx. apply elem_of_cons in Hx as [Hx | Hx].
        - unfold stage_of in Hx. simpl in Hx. subst x.
          destruct (Hframe s Hfresh) as [_ ->]. rewrite Ho, lookup_insert_eq. eauto.
        - now apply Houts. }
      split.
      { intros x Hx. rewrite fmap_cons in Hx.
        apply not_elem_of_cons in Hx as [Hne Hx].
        destruct (Hframe x Hx) as [-> ->]. rewrite Htasks, Ho.
        unfold stage_of in Hne. simpl in Hne.
        now rewrite !lookup_insert_ne by congruence. }
      split.
      { rewrite Hc', Hc, fmap_cons, <- app_assoc. reflexivity. }
      split; [congruence |].
      now apply (same_logic_trans _ (agents st1)).
Qed.

Lemma value_injective : Inj (=) (=) value.
Proof. intros s s'. apply value_inj. Qed.

Lemma initial_planned wid req def (o : Orchestrator) :
  NoDup (stage_of <$> def) -> planned wid def (tasks (initial_state wid req def o)).
Proof. intros Hnd. now apply make_tasks_planned. Qed.

(** X25: when the stages of the definition are distinct, every dependency
    that names a stage of the definition names an earlier one, the inputs
    prepared for the stages are valid and every stage's worker returns, on the
    input prepared for its stage, a valid output of the stage's contract class
    (the files an implementation creates having a path and a content), the
    run reports success, lists every stage as completed in the order of the
    definition and none as failed, holds an output for every stage, leaves
    every task completed, and keeps the agents' logic and the escalation
    list. *)
Theorem all_stages_complete (wid req : string)
    (workflow : option (list (WorkflowStage * string * list WorkflowStage)))
    (o : Orchestrator) (def : list (WorkflowStage * string * list WorkflowStage)) :
  workflow_or_default workflow = def ->
  NoDup (stage_of <$> def) -> dependencies_first def -> inputs_valid ->
  (forall s ag deps, (s, ag, deps) ∈ def ->
     exists a, _agents o !! ag = Some a /\ succeeds_at s a) ->
  let r := (run_workflow wid req workflow o).1 in
  let o' := (run_workflow wid req workflow o).2 in
  success r = true
  /\ stages_completed r = stage_of <$> def
  /\ stages_failed r = []
  /\ (forall s, s ∈ stage_of <$> def -> is_Some (outputs r !! value s))
  /\ (exists tasks, _active_workflows o' !! wid = Some tasks
                    /\ forall s, s ∈ stage_of <$> def ->
                         status_of tasks s = Some COMPLETED)
  /\ same_logic (_agents o) (_agents o')
  /\ _escalations o' = _escalations o.
Proof.
  intros Hdef Hnd Hord Hvalid Hag r o'.
  destruct (run_stages_complete wid def Hnd Hvalid def [] []
              (initial_state wid req def o))
    as (st' & Hrun & Hpl & _ & Hall & Houts & _ & Hc & Hf & Hsame).
  - now rewrite app_nil_r.
  - exact Hord.
  - exact Hag.
  - now apply initial_planned.
  - intros s Hs. inversion Hs.
  - assert (Hloop : run_loop wid req workflow o = st').
    { unfold run_loop. rewrite Hdef, Hrun. reflexivity. }
    unfold r, o', run_workflow. rewrite Hloop. cbn [fst snd success
      stages_completed stages_failed outputs _active_workflows _agents
      _escalations].
    simpl in Hc, Hf. rewrite Hc, Hf.
    split; [reflexivity |]. split; [reflexivity |]. split; [reflexivity |].
    split; [intros s Hs; rewrite (lookup_kmap value (Inj0 := value_injective));
            now apply Houts |].
    split.
    { exists (tasks st'). rewrite lookup_insert_eq. split; [reflexivity |].
      exact Hall. }
    split; [exact Hsame | reflexivity].
Qed.

Lemma raises_at_same s a a' :
  _execute_impl a' = _execute_impl a -> raises_at s a -> raises_at s a'.
Proof. intros Heq Hs ctx outs w. rewrite Heq. apply Hs. Qed.

Lemma execute_raises (a : BaseAgent) (inp : Envelope) (w : World) :
  any_error (validate inp) = false ->
  (forall w0, exists e w1, _execute_impl a inp w0 = (Raised e, w1)) ->
  exists e w',
    execute a inp w = (Raised e, begin_task a (request_id inp) (now w), w').
Proof.
  intros Hin Himpl. rewrite execute_unfold. cbv zeta. rewrite Hin.
  destruct (Himpl (remember_task (begin_task a (request_id inp) (now w)) inp w))
    as (e & w1 & ->).
  eauto.
Qed.

(** A failure with retries left whose routing target has a task is routed:
    the loop goes on and neither result list changes. *)
Lemma on_exception_routed s (task : WorkflowTask) e (st : RunState) target tt :
  max_retries task = 3%nat -> retry_count task = 0%nat ->
  FAILURE_ROUTING s = Some target ->
  tasks st !! target = Some tt ->
  exists st',
    on_exception s task e st = (Continue, st')
    /\ tasks st' = <[target := reset_task tt]>
                     (<[s := fail_task task e (now (stores st))]> (tasks st))
    /\ completed_stages st' = completed_stages st
    /\ failed_stages st' = failed_stages st
    /\ stage_outputs st' = stage_outputs st
    /\ agents st' = agents st.
Proof.
  intros Hm Hr Hroute Htt. unfold on_exception, _handle_failure.
  cbn [max_retries retry_count fail_task]. rewrite Hm, Hr. cbn [Nat.leb].
  rewrite Hroute.
  assert (Hne : s <> target)
    by (intros ->; now apply (failure_routing_irreflexive target)).
  rewrite lookup_insert_ne by assumption. rewrite Htt.
  eexists. split; [reflexivity |]. repeat split.
Qed.

Lemma run_stage_routed wid def s ag (st : RunState) t target tt :
  inputs_valid ->
  tasks st !! s = Some t ->
  deps_met wid def (tasks st) t = true ->
  max_retries t = 3%nat -> retry_count t = 0%nat ->
  (forall a, agents st !! ag = Some a -> raises_at s a) ->
  FAILURE_ROUTING s = Some target ->
  tasks st !! target = Some tt ->
  exists st' t',
    run_stage wid def s ag st = (Continue, st')
    /\ tasks st' = <[target := reset_task tt]> (<[s := t']> (tasks st))
    /\ status t' = FAILED /\ is_Some (error t')
    /\ completed_stages st' = completed_stages st
    /\ failed_stages st' = failed_stages st
    /\ stage_outputs st' = stage_outputs st
    /\ same_logic (agents st) (agents st').
Proof.
  intros Hvalid Ht Hdeps Hm Hr Hag Hroute Htt.
  assert (Hne : s <> target)
    by (intros ->; now apply (failure_routing_irreflexive target)).
  unfold run_stage. rewrite Ht, Hdeps.
  cbn [negb tasks agents stores context stage_outputs completed_stages failed_stages].
  set (inp := _prepare_input s (context st) (stage_outputs st)).
  destruct (agents st !! ag) as [a |] eqn:Ha.
  - destruct (execute_raises a inp (stores st) (Hvalid _ _ _)
                (fun w0 => Hag a eq_refl (context st) (stage_outputs st) w0))
      as (e & w' & ->).
    match goal with |- context [on_exception s ?task e ?st1] =>
      destruct (on_exception_routed s task e st1 target tt Hm Hr Hroute)
        as (st' & -> & Htasks & Hc & Hf & Ho & Hags)
    end.
    { cbn [tasks]. now rewrite lookup_insert_ne. }
    exists st'. eexists. split; [reflexivity |].
    cbn [tasks stores] in Htasks. rewrite insert_insert_eq in Htasks.
    split; [exact Htasks |]. split; [reflexivity |]. split; [simpl; eauto |].
    split; [exact Hc |]. split; [exact Hf |]. split; [exact Ho |].
    rewrite Hags. cbn [agents]. now apply same_logic_begin.
  - match goal with |- context [on_exception s ?task ?e ?st1] =>
      destruct (on_exception_routed s task e st1 target tt Hm Hr Hroute)
        as (st' & -> & Htasks & Hc & Hf & Ho & Hags)
    end.
    { cbn [tasks]. now rewrite lookup_insert_ne. }
    exists st'. eexists. split; [reflexivity |].
    cbn [tasks stores] in Htasks. rewrite insert_insert_eq in Htasks.
    split; [exact Htasks |]. split; [reflexivity |]. split; [simpl; eauto |].
    split; [exact Hc |]. split; [exact Hf |]. split; [exact Ho |].
    rewrite Hags. apply same_logic_refl.
Qed.

Lemma ordered_from_app stages seen
    (l1 l2 : list (WorkflowStage * string * list WorkflowStage)) :
  ordered_from stages seen (l1 ++ l2)
  = ordered_from stages seen l1
    && ordered_from stages (seen ++ (stage_of <$> l1)) l2.
Proof.
  revert seen. induction l1 as [| [[s ag] deps] l1 IH]; intros seen.
  - simpl. now rewrite app_nil_r.
  - simpl. rewrite IH, <- app_assoc, andb_assoc. reflexivity.
Qed.

(** X26: a routed failure of the last stage goes unreported: when the
    workers of all earlier stages return valid outputs of their stages'
    contract classes on valid prepared inputs, and the worker of the last
    stage raises (or is missing) while the stage has a routing target among
    the earlier stages, the run reports success with no failed stage,
    although the last stage's task is failed with an error, is not listed as
    completed and has no output; the target's task is pending again with one
    retry used. *)
Theorem routed_last_failure_reports_success (wid req : string)
    (workflow : option (list (WorkflowStage * string * list WorkflowStage)))
    (o : Orchestrator) (pre : list (WorkflowStage * string * list WorkflowStage))
    (s : WorkflowStage) (ag : string) (deps : list WorkflowStage)
    (target : WorkflowStage) :
  workflow_or_default workflow = pre ++ [(s, ag, deps)] ->
  NoDup (stage_of <$> (pre ++ [(s, ag, deps)])) ->
  dependencies_first (pre ++ [(s, ag, deps)]) ->
  inputs_valid ->
  (forall s' ag' deps', (s', ag', deps') ∈ pre ->
     exists a, _agents o !! ag' = Some a /\ succeeds_at s' a) ->
  (forall a, _agents o !! ag = Some a -> raises_at s a) ->
  FAILURE_ROUTING s = Some target ->
  target ∈ stage_of <$> pre ->
  let r := (run_workflow wid req workflow o).1 in
  let o' := (run_workflow wid req workflow o).2 in
  success r = true
  /\ stages_failed r = []
  /\ stages_completed r = stage_of <$> pre
  /\ (s ∉ stages_completed r)
  /\ outputs r !! value s = None
  /\ exists tasks ts tt,
       _active_workflows o' !! wid = Some tasks
       /\ tasks !! s = Some ts /\ status ts = FAILED /\ is_Some (error ts)
       /\ tasks !! target = Some tt /\ status tt = PENDING
       /\ retry_count tt = 1%nat.
Proof.
  intros Hdef Hnd Hord Hvalid Hpre Hlast Hroute Htarget r o'.
  set (def := pre ++ [(s, ag, deps)]) in *.
  unfold dependencies_first in Hord. unfold def in Hord at 2.
  rewrite ordered_from_app in Hord. apply andb_true_iff in Hord as [Hord1 Hord2].
  simpl in Hord2. rewrite andb_true_r in Hord2.
  set (st0 := initial_state wid req def o).
  assert (Hzero : forall x tx, tasks st0 !! x = Some tx -> retry_count tx = 0%nat).
  { intros x tx Hx. simpl in Hx.
    pose proof (make_tasks_only_planned wid (now (world o)) def x tx Hx) as Hin.
    apply list_elem_of_fmap in Hin as ([[x' agx] dx] & -> & Hin).
    rewrite (make_tasks_lookup wid _ def x' agx dx Hnd Hin) in Hx.
    now injection Hx as <-. }
  destruct (run_stages_complete wid def Hnd Hvalid pre [] [(s, ag, deps)] st0)
    as (st1 & Hrun1 & Hpl1 & Hretry & Hall & Houts & Hframe & Hc & Hf & Hsame).
  { reflexivity. }
  { exact Hord1. }
  { exact Hpre. }
  { now apply initial_planned. }
  { intros x Hx. inversion Hx. }
  specialize (Hretry Hzero).
  assert (Hs_pre : s ∉ stage_of <$> pre).
  { unfold def in Hnd. rewrite fmap_app in Hnd.
    apply NoDup_app in Hnd as (_ & Hnd & _). intros Hs. apply (Hnd s Hs). left. }
  assert (Hin : (s, ag, deps) ∈ def) by (apply elem_of_app; right; left).
  destruct (Hpl1 s ag deps Hin) as (t & Ht & Hd & Hm & _).
  assert (Htt : exists tt, tasks st1 !! target = Some tt).
  { apply list_elem_of_fmap in Htarget as ([[x agx] dx] & -> & Hx).
    destruct (Hpl1 x agx dx ltac:(apply elem_of_app; now left)) as (tt & Htt & _).
    eauto. }
  destruct Htt as (tt & Htt).
  destruct (run_stage_routed wid def s ag st1 t target tt Hvalid Ht) as
    (st2 & t' & Hrun2 & Htasks & Hst & Herr & Hc2 & Hf2 & Ho2 & Hsame2).
  { apply (deps_met_ordered wid def (tasks st1) (stage_of <$> pre) t deps Hd Hord2).
    intros x Hx. apply Hall. exact Hx. }
  { exact Hm. }
  { now apply (Hretry s). }
  { intros a Ha. specialize (Hsame ag). simpl in Hsame. rewrite Ha in Hsame.
    destruct (_agents o !! ag) as [a0 |] eqn:Ha0; [| contradiction].
    apply (raises_at_same s a0 a); [tauto |]. now apply Hlast. }
  { exact Hroute. }
  { exact Htt. }
  assert (Hloop : run_loop wid req workflow o = st2).
  { unfold run_loop. rewrite Hdef. fold st0. unfold def at 2.
    rewrite run_stages_app, Hrun1. simpl. rewrite Hrun2. reflexivity. }
  assert (Hne : s <> target)
    by (intros ->; now apply (failure_routing_irreflexive target)).
  unfold r, o', run_workflow. rewrite Hloop. cbn [fst snd success
    stages_completed stages_failed outputs _active_workflows _agents
    _escalations].
  rewrite Hc2, Hf2, Hc, Hf, Ho2. simpl.
  split; [reflexivity |]. split; [reflexivity |]. split; [reflexivity |].
  split; [exact Hs_pre |]. split.
  { rewrite (lookup_kmap value (Inj0 := value_injective)).
    destruct (Hframe s Hs_pre) as [_ ->]. apply lookup_empty. }
  exists (tasks st2), t', (reset_task tt). rewrite lookup_insert_eq.
  split; [reflexivity |]. rewrite Htasks.
  rewrite lookup_insert_ne by congruence. rewrite !lookup_insert_eq.
  repeat split; auto. simpl. rewrite (Hretry target tt Htt). reflexivity.
Qed.

End HappyPath.

Section Report.
Import Contracts Agents Orchestrator.
Context `{Memory.Fingerprint} `{Envelopes}.
Local Open Scope list_scope.





(** Every task is pending, completed, failed or blocked. *)
Lemma iteration_settled wid def s ag (st : RunState) t fl st' :
  tasks st !! s = Some t ->
  iteration wid def s ag st t fl st' ->
  (forall x tx, tasks st !! x = Some tx ->
     status tx = PENDING \/ status tx = COMPLETED
     \/ status tx = FAILED \/ status tx = BLOCKED) ->
  forall x tx, tasks st' !! x = Some tx ->
    status tx = PENDING \/ status tx = COMPLETED
    \/ status tx = FAILED \/ status tx = BLOCKED.
Proof.
  intros Ht Hit Hinv x tx.
  inversion Hit as [st1 Hdeps Htasks | st1 t' a out Hdeps Ha Hex Hst Hplan Htasks
                   | st1 t' target tt Hdeps Hst Hplan Hretry Hroute Htt Htasks
                   | st1 t' Hdeps Hst Hplan Hwhy Htasks
                   | st1 t' a out e context' Hdeps Ha Hex Hraised Hst Hplan Htasks]; subst; rewrite Htasks.
  - destruct (decide (s = x)) as [-> | Hne].
    + rewrite lookup_insert_eq. intros [= <-]. simpl. auto.
    + rewrite lookup_insert_ne by assumption. apply Hinv.
  - destruct (decide (s = x)) as [-> | Hne].
    + rewrite lookup_insert_eq. intros [= <-]. auto.
    + rewrite lookup_insert_ne by assumption. apply Hinv.
  - destruct (decide (target = x)) as [-> | Hne].
    + rewrite lookup_insert_eq. intros [= <-]. simpl. auto.
    + rewrite lookup_insert_ne by assumption.
      destruct (decide (s = x)) as [-> | Hne'].
      * rewrite lookup_insert_eq. intros [= <-]. auto.
      * rewrite lookup_insert_ne by assumption. apply Hinv.
  - destruct (decide (s = x)) as [-> | Hne].
    + rewrite lookup_insert_eq. intros [= <-]. auto.
    + rewrite lookup_insert_ne by assumption. apply Hinv.
  - destruct (decide (s = x)) as [-> | Hne].
    + rewrite lookup_insert_eq. intros [= <-]. auto.
    + rewrite lookup_insert_ne by assumption. apply Hinv.
Qed.

(** X28: the tasks a run over distinct stages leaves behind: exactly one per
    stage of the definition, with the dependencies of its line, three retries
    at most and, for a stage that has a routing target, no retry used; every
    task is pending, completed, failed or blocked, none running or escalated. *)
Theorem run_leaves_settled_tasks (wid req : string)
    (workflow : option (list (WorkflowStage * string * list WorkflowStage)))
    (o : Orchestrator) (def : list (WorkflowStage * string * list WorkflowStage)) :
  workflow_or_default workflow = def ->
  NoDup (stage_of <$> def) ->
  exists tasks,
    _active_workflows (run_workflow wid req workflow o).2 !! wid = Some tasks
    /\ (forall x, is_Some (tasks !! x) <-> x ∈ stage_of <$> def)
    /\ (forall s ag deps, (s, ag, deps) ∈ def ->
          exists t, tasks !! s = Some t
                    /\ dependencies t = List.map (task_id wid) deps
                    /\ max_retries t = 3%nat
                    /\ (FAILURE_ROUTING s <> None -> retry_count t = 0%nat))
    /\ (forall x t, tasks !! x = Some t ->
          status t = PENDING \/ status t = COMPLETED
          \/ status t = FAILED \/ status t = BLOCKED).
Proof.
  intros Hdef Hnd.
  set (st0 := initial_state wid req def o).
  destruct (run_stages wid def def st0) as [fl st'] eqn:Hrun.
  assert (Hloop : run_loop wid req workflow o = st').
  { unfold run_loop. rewrite Hdef. fold st0. now rewrite Hrun. }
  pose proof (initial_planned wid req def o Hnd) as Hpl0. fold st0 in Hpl0.
  destruct (run_stages_maintains wid def
              (fun st => only_planned def (tasks st)
                         /\ forall x tx, tasks st !! x = Some tx ->
                              status tx = PENDING \/ status tx = COMPLETED
                              \/ status tx = FAILED \/ status tx = BLOCKED)
              def ltac:(auto)) with (st := st0) (fl := fl) (st' := st')
    as (Hpl & Honly & Hsettled); auto.
  - intros s ag deps st t fl1 st1 Hin Ht Hit [Honly Hset]. split.
    + eapply iteration_only_planned; eauto.
    + eapply iteration_settled; eauto.
  - split; [apply make_tasks_only_planned |].
    intros x tx Hx. simpl in Hx.
    pose proof (make_tasks_only_planned wid (now (world o)) def x tx Hx) as Hin.
    apply list_elem_of_fmap in Hin as ([[x' agx] dx] & -> & Hin).
    rewrite (make_tasks_lookup wid _ def x' agx dx Hnd Hin) in Hx.
    injection Hx as <-. auto.
  - exists (tasks st'). unfold run_workflow. rewrite Hloop.
    cbn [snd _active_workflows]. rewrite lookup_insert_eq.
    split; [reflexivity |]. split.
    { intros x. split.
      - intros [t Ht]. now apply (Honly x t).
      - intros Hx. apply list_elem_of_fmap in Hx as ([[x' agx] dx] & -> & Hin).
        destruct (Hpl x' agx dx Hin) as (t & Ht & _). eauto. }
    split; [exact Hpl | exact Hsettled].
Qed.

(** X29: a conflict escalated under an id that no earlier record carries
    can be resolved: [resolve_conflict] returns True and leaves the earlier
    records as they were followed by the new record, owned by the architect,
    with the resolution and the clock value set; before the escalation
    resolving that id returns False; the next run reports the resolved
    conflict last among its escalations. *)
Theorem escalate_then_resolve (uuid : string) (o : Orchestrator) (topic : string)
    (agents_involved : list string) (evidence : list Py.value) (res : Py.value)
    (wid req : string)
    (workflow : option (list (WorkflowStage * string * list WorkflowStage))) :
  Forall (fun c => conflict_id c <> uuid) (_escalations o) ->
  let c := (escalate_conflict uuid o topic agents_involved evidence).1 in
  let o1 := (escalate_conflict uuid o topic agents_involved evidence).2 in
  let resolved := resolve_record c res (now (world o)) in
  resolve_conflict o1 uuid res
  = (true, set_escalations o (_escalations o ++ [resolved]))
  /\ resolution resolved = Some res
  /\ resolved_at resolved = Some (now (world o))
  /\ decision_owner resolved = "ArchitectAgent"
  /\ (forall res', (resolve_conflict o uuid res').1 = false)
  /\ escalations
       (run_workflow wid req workflow (resolve_conflict o1 uuid res).2).1
     = List.map to_dict (_escalations o) ++ [to_dict resolved].
Proof.
  intros Hfresh c o1 resolved.
  assert (Hres : resolve_conflict o1 uuid res
                 = (true, set_escalations o (_escalations o ++ [resolved]))).
  { unfold resolve_conflict, o1, escalate_conflict. cbn [snd _escalations
      set_escalations world].
    rewrite resolve_in_first; [reflexivity | exact Hfresh | reflexivity]. }
  split; [exact Hres |]. split; [reflexivity |]. split; [reflexivity |].
  split.
  { unfold resolved, c, escalate_conflict. simpl. now destruct (_ <? 10)%Z. }
  split.
  { intros res'. unfold resolve_conflict.
    now rewrite resolve_in_unknown by exact Hfresh. }
  rewrite Hres. unfold run_workflow. cbn [fst snd escalations _escalations
    set_escalations]. now rewrite map_app.
Qed.

End Report.


Section AgentExamples.
Import Contracts Agents.

Lemma success_is_recorded_witness :
  exists w1,
    _execute_impl (Samples.agent "ProductAgent" 9 Samples.succeeds)
      (Samples.input "r1" true)
      (@remember_task Samples.fingerprint
         (begin_task (Samples.agent "ProductAgent" 9 Samples.succeeds) "r1" 0)
         (Samples.input "r1" true) Samples.empty_world)
    = (Returned (Samples.output "r1" true), w1)
    /\ Evaluation.successful_tasks
         (scorecard_of
            (@execute Samples.fingerprint
               (Samples.agent "ProductAgent" 9 Samples.succeeds)
               (Samples.input "r1" true) Samples.empty_world).2 "ProductAgent")
       = S (Evaluation.successful_tasks (scorecard_of w1 "ProductAgent")).
Proof.
  destruct (@success_is_recorded Samples.fingerprint
              (Samples.agent "ProductAgent" 9 Samples.succeeds)
              (Samples.input "r1" true) Samples.empty_world
              (Samples.output "r1" true)
              (begin_task (Samples.agent "ProductAgent" 9 Samples.succeeds) "r1" 0)
              (@execute Samples.fingerprint
                 (Samples.agent "ProductAgent" 9 Samples.succeeds)
                 (Samples.input "r1" true) Samples.empty_world).2)
    as (w1 & Himpl & _ & _ & _ & _ & _ & Hs & _).
  - reflexivity.
  - exists w1. split; [exact Himpl | exact Hs].
Defined.

Lemma stage_output_through_wrapper_witness :
  (@execute Samples.fingerprint
     (Samples.agent "BuildTestAgent" 8 Samples.reports_red_build)
     (Samples.input "r1" true) Samples.empty_world).1.1
  = Raised (Py.ContractViolationError
              "Output contract violation: ['Tests failed']").
Proof.
  destruct (@stage_output_through_wrapper Samples.fingerprint
              (Samples.agent "BuildTestAgent" 8 Samples.reports_red_build)
              (Samples.input "r1" true) Samples.empty_world "r1" 0
              (Some "BuildTestAgent") (BuildTest Samples.red_build)
              (@remember_task Samples.fingerprint
                 (begin_task
                    (Samples.agent "BuildTestAgent" 8 Samples.reports_red_build)
                    "r1" 0)
                 (Samples.input "r1" true) Samples.empty_world))
    as [Hraised _].
  - reflexivity.
  - reflexivity.
  - exact Hraised.
Defined.

End AgentExamples.

Section OrchestratorExamples.
Import Contracts Agents Orchestrator.
Local Open Scope list_scope.

Lemma all_stages_complete_witness :
  success (@run_workflow Samples.fingerprint Samples.envelopes "w1" "req" None
             (Samples.orchestrator Samples.succeeds)).1 = true
  /\ stages_completed
       (@run_workflow Samples.fingerprint Samples.envelopes "w1" "req" None
          (Samples.orchestrator Samples.succeeds)).1
     = stage_of <$> DEFAULT_WORKFLOW.
Proof.
  destruct (@all_stages_complete Samples.fingerprint Samples.envelopes
              "w1" "req" None (Samples.orchestrator Samples.succeeds)
              DEFAULT_WORKFLOW)
    as (Hs & Hc & _).
  - reflexivity.
  - apply (bool_decide_unpack _). vm_compute. reflexivity.
  - vm_compute. reflexivity.
  - intros s ctx outs. reflexivity.
  - intros s ag deps Hin.
    repeat (apply elem_of_cons in Hin as [Hin | Hin];
            [injection Hin as -> -> ->; eexists; split; [reflexivity |];
             intros ctx outs w; eexists _, _, _, _, _;
             split; [reflexivity | split; reflexivity] |]).
    inversion Hin.
  - split; [exact Hs | exact Hc].
Defined.

Lemma routed_last_failure_reports_success_witness :
  success (@run_workflow Samples.fingerprint Samples.envelopes "w1" "req" None
             (Samples.orchestrator Samples.rejects_final)).1 = true
  /\ FINAL_APPROVAL
       ∉ stages_completed
           (@run_workflow Samples.fingerprint Samples.envelopes "w1" "req" None
              (Samples.orchestrator Samples.rejects_final)).1.
Proof.
  destruct (@routed_last_failure_reports_success Samples.fingerprint
              Samples.envelopes "w1" "req" None
              (Samples.orchestrator Samples.rejects_final)
              (Samples.review_pre
                 ++ [ (REVIEW, "ReviewerAgent", [ IMPLEMENTATION ]);
                      (BUILD_TEST, "BuildTestAgent", [ REVIEW ]);
                      (INTEGRATION, "IntegratorAgent", [ BUILD_TEST ]) ])
              FINAL_APPROVAL "ArchitectAgent" [ INTEGRATION ] ARCHITECTURE)
    as (Hs & _ & _ & Hc & _).
  - reflexivity.
  - apply (bool_decide_unpack _). vm_compute. reflexivity.
  - vm_compute. reflexivity.
  - intros s ctx outs. reflexivity.
  - intros s ag deps Hin.
    repeat (apply elem_of_cons in Hin as [Hin | Hin];
            [injection Hin as -> -> ->; eexists; split; [reflexivity |];
             intros ctx outs w; eexists _, _, _, _, _;
             split; [reflexivity | split; reflexivity] |]).
    inversion Hin.
  - intros a Ha. injection Ha as <-. intros ctx outs w.
    eexists _, _. reflexivity.
  - reflexivity.
  - apply (bool_decide_unpack _). vm_compute. reflexivity.
  - split; [exact Hs | exact Hc].
Defined.

(** A stage in both result lists: the requirements worker returns a valid
    plain [ContractOutput], the stage is listed as completed and its output
    kept, then the context update fails on the missing field and the stage,
    which has no routing target, is listed as failed too; the run stops. *)
Lemma update_failure_after_completion :
  success Samples.untyped_run.1 = false
  /\ stages_completed Samples.untyped_run.1 = [ REQUIREMENTS ]
  /\ stages_failed Samples.untyped_run.1 = [ REQUIREMENTS ]
  /\ is_Some (outputs Samples.untyped_run.1 !! "requirements")
  /\ (_active_workflows Samples.untyped_run.2 !! "w1"
        ≫= fun tasks => status_of tasks REQUIREMENTS) = Some FAILED
  /\ (_active_workflows Samples.untyped_run.2 !! "w1"
        ≫= fun tasks => tasks !! REQUIREMENTS ≫= error)
     = Some "'ContractOutput' object has no attribute 'requirements'"
  /\ (_active_workflows Samples.untyped_run.2 !! "w1"
        ≫= fun tasks => status_of tasks ARCHITECTURE) = Some PENDING.
Proof. vm_compute. repeat split. eauto. Qed.


Lemma run_leaves_settled_tasks_witness :
  exists tasks,
    _active_workflows Samples.review_run.2 !! "w1" = Some tasks
    /\ forall x t, tasks !! x = Some t ->
         status t = PENDING \/ status t = COMPLETED
         \/ status t = FAILED \/ status t = BLOCKED.
Proof.
  destruct (@run_leaves_settled_tasks Samples.fingerprint Samples.envelopes
              "w1" "req" (Some DEFAULT_WORKFLOW)
              (Samples.orchestrator_but "ReviewerAgent" Samples.succeeds)
              DEFAULT_WORKFLOW)
    as (tasks & Hl & _ & _ & Hs).
  - reflexivity.
  - apply (bool_decide_unpack _). vm_compute. reflexivity.
  - exists tasks. split; [exact Hl | exact Hs].
Defined.

Lemma escalate_then_resolve_witness :
  (resolve_conflict
     (escalate_conflict "c2"
        (set_escalations (Samples.orchestrator Samples.succeeds)
           [ Samples.resolved_conflict ])
        "Design disagreement" [ "ProductAgent"; "ImplementationAgent" ] []).2
     "c2" (Py.VStr "keep the interface")).1
  = true.
Proof.
  destruct (@escalate_then_resolve Samples.fingerprint Samples.envelopes "c2"
              (set_escalations (Samples.orchestrator Samples.succeeds)
                 [ Samples.resolved_conflict ])
              "Design disagreement" [ "ProductAgent"; "ImplementationAgent" ] []
              (Py.VStr "keep the interface") "w1" "req" None)
    as (Hres & _).
  - repeat constructor. discriminate.
  - now rewrite Hres.
Defined.

End OrchestratorExamples.
